(** * A reactor runtime: channels, select poller, timer queue, TCP connection

    Shallow embedding of the reactor core of the file server
    (net/Channel, net/SelectPoller, net/Timer, net/TimerQueue,
    net/TcpConnection and the inline part of net/EventLoop.h).

    Objects that the C++ code reaches through pointers (channels, timers)
    live in heaps indexed by their address; methods are computations in a
    small monad over the world of one event loop, which can finish, abort
    the process (abortNotInLoopThread) or crash (dangling pointer, empty
    std::function called).  System calls (write, readFd, new, now) take
    their result as an explicit argument.  User callbacks are opaque: a
    call is recorded in the trace, a queued closure in the loop's pending
    list. *)

From Stdlib Require Import ZArith List Bool Lia Sorted.
From stdpp Require Import base option list gmap sorting.
Import ListNotations.

Local Open Scope Z_scope.

(** ** Plain data *)

(** Identity of a user supplied std::function. *)
Definition CallbackId := nat.

(** base/Platform.h: readiness bits and poller operations. *)
Definition XPOLLIN : Z := 1.
Definition XPOLLPRI : Z := 2.
Definition XPOLLOUT : Z := 4.
Definition XPOLLERR : Z := 8.
Definition XPOLLHUP : Z := 16.
Definition XPOLLNVAL : Z := 32.
Definition XPOLLRDHUP : Z := 8192.

Definition XEPOLL_CTL_ADD : Z := 1.
Definition XEPOLL_CTL_DEL : Z := 2.
Definition XEPOLL_CTL_MOD : Z := 3.

(** errno values tested by TcpConnection::sendInLoop (Linux). *)
Definition EWOULDBLOCK : Z := 11.
Definition EPIPE : Z := 32.
Definition ECONNRESET : Z := 104.

(** A C++ integer used as a condition: nonzero is true. *)
Definition truthy (z : Z) : bool := negb (z =? 0).

(** Two's complement wrap of a signed 64-bit value (int64_t arithmetic). *)
Definition wrap64 (z : Z) : Z := (z + 2 ^ 63) mod 2 ^ 64 - 2 ^ 63.

(** Wrap of an unsigned 64-bit value (size_t arithmetic). *)
Definition wrap_size_t (z : Z) : Z := z mod 2 ^ 64.

Module Channel.
(** net/Channel.h: the per-fd record.  The four std::function members
    are [None] when empty. *)
Record t := mk {
  m_fd : Z;
  m_events : Z;
  m_revents : Z;
  m_index : Z;
  m_readCallback : option CallbackId;
  m_writeCallback : option CallbackId;
  m_closeCallback : option CallbackId;
  m_errorCallback : option CallbackId
}.

Definition kNoneEvent : Z := 0.
Definition kReadEvent : Z := Z.lor XPOLLIN XPOLLPRI.
Definition kWriteEvent : Z := XPOLLOUT.

Definition set_events (c : t) (ev : Z) : t :=
  mk (m_fd c) ev (m_revents c) (m_index c)
     (m_readCallback c) (m_writeCallback c) (m_closeCallback c) (m_errorCallback c).

Definition set_revents (c : t) (revt : Z) : t :=
  mk (m_fd c) (m_events c) revt (m_index c)
     (m_readCallback c) (m_writeCallback c) (m_closeCallback c) (m_errorCallback c).

Definition add_revents (c : t) (revt : Z) : t :=
  set_revents c (Z.lor (m_revents c) revt).

Definition set_index (c : t) (idx : Z) : t :=
  mk (m_fd c) (m_events c) (m_revents c) idx
     (m_readCallback c) (m_writeCallback c) (m_closeCallback c) (m_errorCallback c).

Definition isNoneEvent (c : t) : bool := m_events c =? kNoneEvent.
Definition isWriting (c : t) : bool := truthy (Z.land (m_events c) kWriteEvent).

(** Channel::Channel(loop, fd) *)
Definition new (fd : Z) : t := mk fd 0 0 (-1) None None None None.
End Channel.

Module Timer.
(** net/Timer.h *)
Record t := mk {
  m_callback : CallbackId;
  m_expiration : Z;
  m_interval : Z;
  m_repeatCount : Z;
  m_sequence : Z;
  m_canceled : bool
}.

Definition cancel (tm : t) (off : bool) : t :=
  mk (m_callback tm) (m_expiration tm) (m_interval tm) (m_repeatCount tm)
     (m_sequence tm) off.

Definition set_repeatCount (tm : t) (n : Z) : t :=
  mk (m_callback tm) (m_expiration tm) (m_interval tm) n
     (m_sequence tm) (m_canceled tm).

Definition set_expiration (tm : t) (e : Z) : t :=
  mk (m_callback tm) e (m_interval tm) (m_repeatCount tm)
     (m_sequence tm) (m_canceled tm).
End Timer.

Module SelectPoller.
(** struct epoll_event as SelectPoller uses it: the event mask and
    data.ptr. *)
Record epoll_event := mk_event { events : Z; data_ptr : Z }.

(** net/SelectPoller.h: ChannelMap m_channels (fd to channel
    address) and the bookkeeping vector m_events. *)
Record t := mk {
  m_channels : gmap Z Z;
  m_events : list epoll_event
}.

Definition kNew : Z := -1.
Definition kAdded : Z := 1.
Definition kDeleted : Z := 2.
End SelectPoller.

Module TimerQueue.
(** typedef std::pair<Timestamp, Timer *> Entry *)
Definition Entry : Type := Z * Z.

(** std::pair's operator<: lexicographic on the timestamp, then on
    the address of the timer. *)
Definition entry_ltb (a b : Entry) : bool :=
  (fst a <? fst b) || ((fst a =? fst b) && (snd a <? snd b)).

Definition entry_lt (a b : Entry) : Prop :=
  fst a < fst b \/ (fst a = fst b /\ snd a < snd b).

(** std::set<Entry>::insert on the set kept as its in-order sequence. *)
Fixpoint set_insert (e : Entry) (l : list Entry) : list Entry :=
  match l with
  | [] => [e]
  | x :: r =>
      if entry_ltb e x then e :: l
      else if entry_ltb x e then x :: set_insert e r
      else l
  end.

(** TimerList m_timers *)
Record t := mk { m_timers : list Entry }.
End TimerQueue.

(** Closures handed to EventLoop::runInLoop / queueInLoop. *)
Inductive Functor :=
| FnWriteComplete (cb : CallbackId)
| FnHighWaterMark (cb : CallbackId) (bytes : Z)
| FnSendInLoop (message : list Byte.byte)
| FnAddTimerInLoop (timer : Z)
| FnForceCloseInLoop.

Module EventLoop.
(** net/EventLoop.h, the members the modelled methods touch. *)
Record t := mk {
  m_threadId : Z;
  m_doingOtherTasks : bool;
  m_poller : SelectPoller.t;
  m_timerQueue : TimerQueue.t;
  m_pendingFunctors : list Functor
}.
End EventLoop.

(** Which of the four Channel callbacks ran. *)
Inductive ChannelCallback :=
| CbClose
| CbError
| CbRead (receiveTime : Z)
| CbWrite.

(** Everything observable outside the modelled objects, in order. *)
Inductive Event :=
| EvChannelCallback (fd : Z) (which : ChannelCallback) (cb : CallbackId)
| EvTimerCallback (timer : Z) (cb : CallbackId)
| EvSocketWrite (fd : Z) (data : list Byte.byte) (ret : Z)
| EvReadFd (fd : Z)
| EvGetSocketError (fd : Z)
| EvConnectionCallback (cb : CallbackId) (connected : bool)
| EvMessageCallback (cb : CallbackId) (input : list Byte.byte) (receiveTime : Z)
| EvCloseCallback (cb : CallbackId)
| EvWakeup.

(** ** The world of one event loop *)

Record World := mkWorld {
  current_thread : Z;
  loop : EventLoop.t;
  channels : gmap Z Channel.t;
  timers : gmap Z Timer.t;
  s_numCreated : Z;
  trace : list Event
}.

Inductive Outcome (A : Type) :=
| Done (a : A) (w : World)
| Abort (w : World)
| Crash.

Arguments Done {A} a w.
Arguments Abort {A} w.
Arguments Crash {A}.

Definition M (A : Type) : Type := World -> Outcome A.

Definition ret {A} (a : A) : M A := fun w => Done a w.

Definition bind {A B} (m : M A) (k : A -> M B) : M B :=
  fun w =>
    match m w with
    | Done a w' => k a w'
    | Abort w' => Abort w'
    | Crash => Crash
    end.

Declare Scope reactor_scope.
Delimit Scope reactor_scope with reactor.
Notation "x <- c1 ;; c2" := (bind c1 (fun x => c2))
  (at level 100, c1 at next level, right associativity) : reactor_scope.
Notation "c1 ;; c2" := (bind c1 (fun _ => c2))
  (at level 100, right associativity) : reactor_scope.
Local Open Scope reactor_scope.

Definition gets {A} (f : World -> A) : M A := fun w => Done (f w) w.
Definition modify (f : World -> World) : M unit := fun w => Done tt (f w).
Definition abort {A} : M A := fun w => Abort w.
Definition crash {A} : M A := fun _ => Crash.

Definition set_loop (l : EventLoop.t) (w : World) : World :=
  mkWorld (current_thread w) l (channels w) (timers w) (s_numCreated w) (trace w).

Definition set_channels (h : gmap Z Channel.t) (w : World) : World :=
  mkWorld (current_thread w) (loop w) h (timers w) (s_numCreated w) (trace w).

Definition set_timers (h : gmap Z Timer.t) (w : World) : World :=
  mkWorld (current_thread w) (loop w) (channels w) h (s_numCreated w) (trace w).

Definition set_numCreated (n : Z) (w : World) : World :=
  mkWorld (current_thread w) (loop w) (channels w) (timers w) n (trace w).

Definition log_events (es : list Event) (w : World) : World :=
  mkWorld (current_thread w) (loop w) (channels w) (timers w) (s_numCreated w)
          (trace w ++ es).

Definition emit (e : Event) : M unit := modify (log_events [e]).

(** Dereference of a Channel*: a dangling pointer crashes. *)
Definition channel_at (c : Z) : M Channel.t :=
  fun w => match channels w !! c with
           | Some ch => Done ch w
           | None => Crash
           end.

Definition store_channel (c : Z) (ch : Channel.t) : M unit :=
  modify (fun w => set_channels (<[c := ch]> (channels w)) w).

(** Dereference of a Timer*. *)
Definition timer_at (p : Z) : M Timer.t :=
  fun w => match timers w !! p with
           | Some tm => Done tm w
           | None => Crash
           end.

Definition store_timer (p : Z) (tm : Timer.t) : M unit :=
  modify (fun w => set_timers (<[p := tm]> (timers w)) w).

(** Call of a std::function member: an empty one throws
    std::bad_function_call, which nothing catches. *)
Definition call (f : option CallbackId) (ev : CallbackId -> Event) : M unit :=
  match f with
  | Some cb => emit (ev cb)
  | None => crash
  end.

(** [if (f) f(...)] *)
Definition call_if_set (f : option CallbackId) (ev : CallbackId -> Event) : M unit :=
  match f with
  | Some cb => emit (ev cb)
  | None => ret tt
  end.

(** [if (cond) body] *)
Definition when (cond : bool) (body : M unit) : M unit :=
  if cond then body else ret tt.

(** ** EventLoop *)

(** EventLoop::isInLoopThread *)
Definition EventLoop_isInLoopThread : M bool :=
  gets (fun w => EventLoop.m_threadId (loop w) =? current_thread w).

(** Modelled from the spec: EventLoop::abortNotInLoopThread is declared in
    EventLoop.h ("Aborts when a function is called from a non-loop
    thread") and defined in EventLoop.cpp, which is not among the sources;
    the spec says a failed assertion aborts the process. *)
Definition EventLoop_abortNotInLoopThread : M unit := abort.

(** EventLoop::assertInLoopThread (inline in EventLoop.h) *)
Definition EventLoop_assertInLoopThread : M unit :=
  b <- EventLoop_isInLoopThread ;;
  if negb b then EventLoop_abortNotInLoopThread else ret tt.

(** ** Channel::handleEvent *)

(** Channel::handleEvent (the LOGD / LOGW lines write to the log only). *)
Definition Channel_handleEvent (c : Z) (receiveTime : Z) : M unit :=
  ch <- channel_at c ;;
  when (truthy (Z.land (Channel.m_revents ch) XPOLLHUP)
        && negb (truthy (Z.land (Channel.m_revents ch) XPOLLIN)))
       (call_if_set (Channel.m_closeCallback ch)
                    (EvChannelCallback (Channel.m_fd ch) CbClose)) ;;
  ch <- channel_at c ;;
  when (truthy (Z.land (Channel.m_revents ch) (Z.lor XPOLLERR XPOLLNVAL)))
       (call_if_set (Channel.m_errorCallback ch)
                    (EvChannelCallback (Channel.m_fd ch) CbError)) ;;
  ch <- channel_at c ;;
  when (truthy (Z.land (Channel.m_revents ch)
                       (Z.lor (Z.lor XPOLLIN XPOLLPRI) XPOLLRDHUP)))
       (call_if_set (Channel.m_readCallback ch)
                    (EvChannelCallback (Channel.m_fd ch) (CbRead receiveTime))) ;;
  ch <- channel_at c ;;
  when (truthy (Z.land (Channel.m_revents ch) XPOLLOUT))
       (call_if_set (Channel.m_writeCallback ch)
                    (EvChannelCallback (Channel.m_fd ch) CbWrite)).


(** ** SelectPoller *)

Definition poller (w : World) : SelectPoller.t := EventLoop.m_poller (loop w).

Definition set_poller (p : SelectPoller.t) (w : World) : World :=
  set_loop (EventLoop.mk (EventLoop.m_threadId (loop w))
                         (EventLoop.m_doingOtherTasks (loop w))
                         p
                         (EventLoop.m_timerQueue (loop w))
                         (EventLoop.m_pendingFunctors (loop w))) w.

Definition set_m_channels (m : gmap Z Z) (w : World) : World :=
  set_poller (SelectPoller.mk m (SelectPoller.m_events (poller w))) w.

Definition set_m_events (evs : list SelectPoller.epoll_event) (w : World) : World :=
  set_poller (SelectPoller.mk (SelectPoller.m_channels (poller w)) evs) w.

(** SelectPoller::assertInLoopThread *)
Definition SelectPoller_assertInLoopThread : M unit := EventLoop_assertInLoopThread.

(** The loop of the XEPOLL_CTL_DEL branch: erase the first element whose
    data.ptr is the channel; [None] when there is none. *)
Fixpoint erase_first (channel : Z) (evs : list SelectPoller.epoll_event)
  : option (list SelectPoller.epoll_event) :=
  match evs with
  | [] => None
  | e :: r =>
      if SelectPoller.data_ptr e =? channel then Some r
      else match erase_first channel r with
           | Some r' => Some (e :: r')
           | None => None
           end
  end.

(** The loop of the XEPOLL_CTL_MOD branch: overwrite the mask of the first
    element whose data.ptr is the channel. *)
Fixpoint modify_first (channel ev : Z) (evs : list SelectPoller.epoll_event)
  : option (list SelectPoller.epoll_event) :=
  match evs with
  | [] => None
  | e :: r =>
      if SelectPoller.data_ptr e =? channel
      then Some (SelectPoller.mk_event ev (SelectPoller.data_ptr e) :: r)
      else match modify_first channel ev r with
           | Some r' => Some (e :: r')
           | None => None
           end
  end.

(** SelectPoller::update (the failure path only logs). *)
Definition SelectPoller_update (operation : Z) (channel : Z) : M bool :=
  ch <- channel_at channel ;;
  evs <- gets (fun w => SelectPoller.m_events (poller w)) ;;
  if operation =? XEPOLL_CTL_ADD then
    modify (set_m_events (evs ++ [SelectPoller.mk_event (Channel.m_events ch) channel])) ;;
    ret true
  else if operation =? XEPOLL_CTL_DEL then
    match erase_first channel evs with
    | Some evs' => modify (set_m_events evs') ;; ret true
    | None => ret false
    end
  else if operation =? XEPOLL_CTL_MOD then
    match modify_first channel (Channel.m_events ch) evs with
    | Some evs' => modify (set_m_events evs') ;; ret true
    | None => ret false
    end
  else ret false.

(** channel->set_index(idx) *)
Definition Channel_set_index (c : Z) (idx : Z) : M unit :=
  ch <- channel_at c ;;
  store_channel c (Channel.set_index ch idx).

(** SelectPoller::updateChannel *)
Definition SelectPoller_updateChannel (channel : Z) : M bool :=
  SelectPoller_assertInLoopThread ;;
  ch <- channel_at channel ;;
  let index := Channel.m_index ch in
  let fd := Channel.m_fd ch in
  m <- gets (fun w => SelectPoller.m_channels (poller w)) ;;
  if (index =? SelectPoller.kNew) || (index =? SelectPoller.kDeleted) then
    if index =? SelectPoller.kNew then
      match m !! fd with
      | Some _ => ret false
      | None =>
          modify (set_m_channels (<[fd := channel]> m)) ;;
          Channel_set_index channel SelectPoller.kAdded ;;
          SelectPoller_update XEPOLL_CTL_ADD channel
      end
    else
      match m !! fd with
      | None => ret false
      | Some p =>
          if negb (p =? channel) then ret false
          else
            Channel_set_index channel SelectPoller.kAdded ;;
            SelectPoller_update XEPOLL_CTL_ADD channel
      end
  else
    match m !! fd with
    | None => ret false
    | Some p =>
        if negb (p =? channel) || negb (index =? SelectPoller.kAdded) then ret false
        else if Channel.isNoneEvent ch then
          ok <- SelectPoller_update XEPOLL_CTL_DEL channel ;;
          if ok then Channel_set_index channel SelectPoller.kDeleted ;; ret true
          else ret false
        else SelectPoller_update XEPOLL_CTL_MOD channel
    end.

(** SelectPoller::removeChannel *)
Definition SelectPoller_removeChannel (channel : Z) : M unit :=
  SelectPoller_assertInLoopThread ;;
  ch <- channel_at channel ;;
  let fd := Channel.m_fd ch in
  m <- gets (fun w => SelectPoller.m_channels (poller w)) ;;
  match m !! fd with
  | None => ret tt
  | Some p =>
      if negb (p =? channel) then ret tt
      else if negb (Channel.isNoneEvent ch) then ret tt
      else
        modify (set_m_channels (delete fd m)) ;;
        Channel_set_index channel SelectPoller.kNew
  end.

(** SelectPoller::hasChannel *)
Definition SelectPoller_hasChannel (channel : Z) : M bool :=
  SelectPoller_assertInLoopThread ;;
  ch <- channel_at channel ;;
  m <- gets (fun w => SelectPoller.m_channels (poller w)) ;;
  ret match m !! Channel.m_fd ch with
      | Some p => p =? channel
      | None => false
      end.

(** Modelled from the spec: EventLoop::updateChannel and
    EventLoop::removeChannel are declared in EventLoop.h and defined in
    EventLoop.cpp, which is not among the sources; the spec has the
    channel "synchronously ask the owning loop to update the poller", so
    both forward to the poller. *)
Definition EventLoop_updateChannel (channel : Z) : M bool :=
  SelectPoller_updateChannel channel.

Definition EventLoop_removeChannel (channel : Z) : M unit :=
  SelectPoller_removeChannel channel.

(** Modelled from the spec: EventLoop::queueInLoop (EventLoop.cpp is not
    among the sources) "pushes f, then wakes the loop iff
    !isInLoopThread() || doingOtherTasks". *)
Definition EventLoop_queueInLoop (cb : Functor) : M unit :=
  modify (fun w =>
    set_loop (EventLoop.mk (EventLoop.m_threadId (loop w))
                           (EventLoop.m_doingOtherTasks (loop w))
                           (EventLoop.m_poller (loop w))
                           (EventLoop.m_timerQueue (loop w))
                           (EventLoop.m_pendingFunctors (loop w) ++ [cb])) w) ;;
  b <- EventLoop_isInLoopThread ;;
  d <- gets (fun w => EventLoop.m_doingOtherTasks (loop w)) ;;
  when (negb b || d) (emit EvWakeup).

(** Modelled from the spec: EventLoop::runInLoop (EventLoop.cpp is not
    among the sources): "if the caller is the loop thread, execute f
    immediately; otherwise queueInLoop(f)".  [run] is what the closure
    [cb] does; the result says whether it ran. *)
Definition EventLoop_runInLoop {A} (cb : Functor) (run : M A) : M (option A) :=
  b <- EventLoop_isInLoopThread ;;
  if b then a <- run ;; ret (Some a)
  else EventLoop_queueInLoop cb ;; ret None.

(** ** Channel: interest mask *)

(** Channel::update *)
Definition Channel_update (c : Z) : M bool := EventLoop_updateChannel c.

(** Channel::enableReading *)
Definition Channel_enableReading (c : Z) : M bool :=
  ch <- channel_at c ;;
  store_channel c (Channel.set_events ch (Z.lor (Channel.m_events ch) Channel.kReadEvent)) ;;
  Channel_update c.

(** Channel::disableReading *)
Definition Channel_disableReading (c : Z) : M bool :=
  ch <- channel_at c ;;
  store_channel c (Channel.set_events ch
                     (Z.land (Channel.m_events ch) (Z.lnot Channel.kReadEvent))) ;;
  Channel_update c.

(** Channel::enableWriting *)
Definition Channel_enableWriting (c : Z) : M bool :=
  ch <- channel_at c ;;
  store_channel c (Channel.set_events ch (Z.lor (Channel.m_events ch) Channel.kWriteEvent)) ;;
  Channel_update c.

(** Channel::disableWriting *)
Definition Channel_disableWriting (c : Z) : M bool :=
  ch <- channel_at c ;;
  store_channel c (Channel.set_events ch
                     (Z.land (Channel.m_events ch) (Z.lnot Channel.kWriteEvent))) ;;
  Channel_update c.

(** Channel::disableAll *)
Definition Channel_disableAll (c : Z) : M bool :=
  ch <- channel_at c ;;
  store_channel c (Channel.set_events ch Channel.kNoneEvent) ;;
  Channel_update c.

(** Channel::remove *)
Definition Channel_remove (c : Z) : M unit :=
  ch <- channel_at c ;;
  if negb (Channel.isNoneEvent ch) then ret tt
  else EventLoop_removeChannel c.

(** ** Timer and TimerQueue *)

Definition timer_queue (w : World) : list TimerQueue.Entry :=
  TimerQueue.m_timers (EventLoop.m_timerQueue (loop w)).

Definition set_m_timers (es : list TimerQueue.Entry) (w : World) : World :=
  set_loop (EventLoop.mk (EventLoop.m_threadId (loop w))
                         (EventLoop.m_doingOtherTasks (loop w))
                         (EventLoop.m_poller (loop w))
                         (TimerQueue.mk es)
                         (EventLoop.m_pendingFunctors (loop w))) w.

(** Modelled from the spec: Timestamp (base/Timestamp.h is not among the
    sources) is "a signed 64-bit microsecond count" whose "arithmetic is
    total"; [m_expiration += m_interval] is the wrapped sum. *)
Definition Timestamp_add (t : Z) (us : Z) : Z := wrap64 (t + us).

(** [new Timer(cb, when, interval, repeatCount)] placed at address [p] by
    the allocator; the constructor draws the sequence number from
    ++s_numCreated.  An address that is still live is never handed out. *)
Definition Timer_new (p : Z) (cb : CallbackId) (when_ : Z) (interval repeatCount : Z)
  : M unit :=
  h <- gets timers ;;
  match h !! p with
  | Some _ => crash
  | None =>
      n <- gets s_numCreated ;;
      modify (set_numCreated (wrap64 (n + 1))) ;;
      store_timer p (Timer.mk cb when_ interval repeatCount (wrap64 (n + 1)) false)
  end.

(** Timer::run *)
Definition Timer_run (p : Z) : M unit :=
  tm <- timer_at p ;;
  if Timer.m_canceled tm then ret tt
  else
    emit (EvTimerCallback p (Timer.m_callback tm)) ;;
    if negb (Timer.m_repeatCount tm =? -1) then
      let n := wrap64 (Timer.m_repeatCount tm - 1) in
      store_timer p (Timer.set_repeatCount tm n) ;;
      if n =? 0 then ret tt
      else
        store_timer p (Timer.set_expiration (Timer.set_repeatCount tm n)
                         (Timestamp_add (Timer.m_expiration tm) (Timer.m_interval tm)))
    else
      store_timer p (Timer.set_expiration tm
                       (Timestamp_add (Timer.m_expiration tm) (Timer.m_interval tm))).

(** TimerQueue::insert *)
Definition TimerQueue_insert (timer : Z) : M unit :=
  EventLoop_assertInLoopThread ;;
  tm <- timer_at timer ;;
  let when_ := Timer.m_expiration tm in
  modify (fun w => set_m_timers (TimerQueue.set_insert (when_, timer) (timer_queue w)) w).

(** TimerQueue::addTimerInLoop *)
Definition TimerQueue_addTimerInLoop (timer : Z) : M unit :=
  EventLoop_assertInLoopThread ;;
  TimerQueue_insert timer.

(** TimerQueue::addTimer(const TimerCallback &, ...): the constructor call
    has three arguments, so the repeat count is the default -1.  The
    result is the TimerId (Timer*, sequence). *)
Definition TimerQueue_addTimer (p : Z) (cb : CallbackId) (when_ : Z)
    (interval repeatCount : Z) : M (Z * Z) :=
  Timer_new p cb when_ interval (-1) ;;
  EventLoop_runInLoop (FnAddTimerInLoop p) (TimerQueue_addTimerInLoop p) ;;
  tm <- timer_at p ;;
  ret (p, Timer.m_sequence tm).

(** TimerQueue::addTimer(TimerCallback &&, ...): four arguments, the
    repeat count is passed on. *)
Definition TimerQueue_addTimer_move (p : Z) (cb : CallbackId) (when_ : Z)
    (interval repeatCount : Z) : M (Z * Z) :=
  Timer_new p cb when_ interval repeatCount ;;
  EventLoop_runInLoop (FnAddTimerInLoop p) (TimerQueue_addTimerInLoop p) ;;
  tm <- timer_at p ;;
  ret (p, Timer.m_sequence tm).

(** TimerQueue::cancelTimerInLoop: the first entry holding the timer. *)
Definition TimerQueue_cancelTimerInLoop (timer : Z) (off : bool) : M unit :=
  EventLoop_assertInLoopThread ;;
  es <- gets timer_queue ;;
  if existsb (fun e => snd e =? timer) es then
    tm <- timer_at timer ;;
    store_timer timer (Timer.cancel tm off)
  else ret tt.



(** The for loop of TimerQueue::doTimer over the entries from the
    iterator on; the result is what remains of them in the set. *)
Fixpoint doTimer_from (now : Z) (es : list TimerQueue.Entry)
  : M (list TimerQueue.Entry) :=
  match es with
  | [] => ret []
  | e :: rest =>
      tm <- timer_at (snd e) ;;
      if Timer.m_expiration tm <=? now then
        Timer_run (snd e) ;;
        tm' <- timer_at (snd e) ;;
        if Timer.m_repeatCount tm' =? 0 then doTimer_from now rest
        else
          rest' <- doTimer_from now rest ;;
          ret (e :: rest')
      else ret (e :: rest)
  end.

(** TimerQueue::doTimer, with [now] the value of Timestamp::now(). *)
Definition TimerQueue_doTimer (now : Z) : M unit :=
  EventLoop_assertInLoopThread ;;
  es <- gets timer_queue ;;
  es' <- doTimer_from now es ;;
  modify (set_m_timers es').

(** ** ByteBuffer *)

Module ByteBuffer.
(** Modelled from the spec: ByteBuffer (its header and implementation
    are not among the sources) is "a growable byte region with a read
    cursor and a write cursor" with readable = write - read; only the
    readable region is kept.  [append] adds at its end, [retrieveAll]
    empties it, [peek] is its start. *)
Record t := mk { readable : list Byte.byte }.

Definition readableBytes (b : t) : Z := Z.of_nat (length (readable b)).
Definition peek (b : t) : list Byte.byte := readable b.
Definition append (b : t) (src : list Byte.byte) : t := mk (readable b ++ src).
Definition retrieveAll (b : t) : t := mk [].
Definition retrieveAllAsString (b : t) : list Byte.byte * t := (readable b, mk []).
End ByteBuffer.

(** What ByteBuffer::readFd got from the socket: bytes (none at end of
    file) or an error with its errno. *)
Inductive ReadResult :=
| ReadBytes (data : list Byte.byte)
| ReadError (savedErrno : Z).

(** The count readFd returns. *)
Definition read_count (r : ReadResult) : Z :=
  match r with
  | ReadBytes data => Z.of_nat (length data)
  | ReadError _ => -1
  end.

(** Modelled from the spec: ByteBuffer::readFd "performs a scattered read
    into the tail ... then appends the overflow to restore contiguity":
    the bytes read end up appended. *)
Definition ByteBuffer_readFd (b : ByteBuffer.t) (r : ReadResult) : ByteBuffer.t :=
  match r with
  | ReadBytes data => ByteBuffer.append b data
  | ReadError _ => b
  end.

(** What sockets::write returned, and errno after it. *)
Record WriteResult := mkWrite { write_ret : Z; write_errno : Z }.

(** ** TcpConnection *)

Module TcpConnection.
Inductive StateE := kDisconnected | kConnecting | kConnected | kDisconnecting.

Definition StateE_eqb (a b : StateE) : bool :=
  match a, b with
  | kDisconnected, kDisconnected | kConnecting, kConnecting
  | kConnected, kConnected | kDisconnecting, kDisconnecting => true
  | _, _ => false
  end.

(** net/TcpConnection.h, without the name, the addresses and the socket
    wrapper (its fd is the channel's).  m_channel is the address of the
    owned Channel. *)
Record t := mk {
  m_state : StateE;
  m_channel : Z;
  m_connectionCallback : option CallbackId;
  m_messageCallback : option CallbackId;
  m_writeCompleteCallback : option CallbackId;
  m_highWaterMarkCallback : option CallbackId;
  m_closeCallback : option CallbackId;
  m_highWaterMark : Z;
  m_inputBuffer : ByteBuffer.t;
  m_outputBuffer : ByteBuffer.t
}.

Definition setState (c : t) (s : StateE) : t :=
  mk s (m_channel c) (m_connectionCallback c) (m_messageCallback c)
     (m_writeCompleteCallback c) (m_highWaterMarkCallback c) (m_closeCallback c)
     (m_highWaterMark c) (m_inputBuffer c) (m_outputBuffer c).

Definition set_inputBuffer (c : t) (b : ByteBuffer.t) : t :=
  mk (m_state c) (m_channel c) (m_connectionCallback c) (m_messageCallback c)
     (m_writeCompleteCallback c) (m_highWaterMarkCallback c) (m_closeCallback c)
     (m_highWaterMark c) b (m_outputBuffer c).

Definition set_outputBuffer (c : t) (b : ByteBuffer.t) : t :=
  mk (m_state c) (m_channel c) (m_connectionCallback c) (m_messageCallback c)
     (m_writeCompleteCallback c) (m_highWaterMarkCallback c) (m_closeCallback c)
     (m_highWaterMark c) (m_inputBuffer c) b.

Definition connected (c : t) : bool := StateE_eqb (m_state c) kConnected.
End TcpConnection.

Import TcpConnection (kDisconnected, kConnecting, kConnected, kDisconnecting).

(** [if (f) queueInLoop(bind(f, ...))] *)
Definition queue_if_set (f : option CallbackId) (mk : CallbackId -> Functor) : M unit :=
  match f with
  | Some cb => EventLoop_queueInLoop (mk cb)
  | None => ret tt
  end.

(** TcpConnection::handleClose *)
Definition TcpConnection_handleClose (this : TcpConnection.t) : M TcpConnection.t :=
  if TcpConnection.StateE_eqb (TcpConnection.m_state this) kDisconnected then ret this
  else
    EventLoop_assertInLoopThread ;;
    let this := TcpConnection.setState this kDisconnected in
    Channel_disableAll (TcpConnection.m_channel this) ;;
    call (TcpConnection.m_connectionCallback this)
         (fun cb => EvConnectionCallback cb (TcpConnection.connected this)) ;;
    call (TcpConnection.m_closeCallback this) EvCloseCallback ;;
    ret this.

(** TcpConnection::handleError *)
Definition TcpConnection_handleError (this : TcpConnection.t) : M TcpConnection.t :=
  ch <- channel_at (TcpConnection.m_channel this) ;;
  emit (EvGetSocketError (Channel.m_fd ch)) ;;
  TcpConnection_handleClose this.

(** TcpConnection::handleRead, with [r] what readFd got. *)
Definition TcpConnection_handleRead (this : TcpConnection.t) (receiveTime : Z)
    (r : ReadResult) : M TcpConnection.t :=
  EventLoop_assertInLoopThread ;;
  ch <- channel_at (TcpConnection.m_channel this) ;;
  emit (EvReadFd (Channel.m_fd ch)) ;;
  let this :=
    TcpConnection.set_inputBuffer this
      (ByteBuffer_readFd (TcpConnection.m_inputBuffer this) r) in
  let n := read_count r in
  if n >? 0 then
    call (TcpConnection.m_messageCallback this)
         (fun cb => EvMessageCallback cb
                      (ByteBuffer.peek (TcpConnection.m_inputBuffer this)) receiveTime) ;;
    ret this
  else if n =? 0 then TcpConnection_handleClose this
  else TcpConnection_handleError this.

(** The block of sendInLoop under [if (!m_channel->isWriting() &&
    m_outputBuffer.readableBytes() == 0)]: the direct write.  The result
    is (nwrote, remaining, faultError). *)
Definition sendInLoop_direct_write (this : TcpConnection.t) (ch : Channel.t)
    (data : list Byte.byte) (wr : WriteResult) : M (Z * Z * bool) :=
  let len := Z.of_nat (length data) in
  emit (EvSocketWrite (Channel.m_fd ch) data (write_ret wr)) ;;
  if write_ret wr >=? 0 then
    let remaining := wrap_size_t (len - write_ret wr) in
    when (remaining =? 0)
         (queue_if_set (TcpConnection.m_writeCompleteCallback this) FnWriteComplete) ;;
    ret (write_ret wr, remaining, false)
  else
    ret (0, len,
         negb (write_errno wr =? EWOULDBLOCK)
         && ((write_errno wr =? EPIPE) || (write_errno wr =? ECONNRESET))).

(** The block of sendInLoop under [if (!faultError && remaining > 0)]:
    high-water-mark callback, append, write interest. *)
Definition sendInLoop_buffer (this : TcpConnection.t) (data : list Byte.byte)
    (nwrote remaining : Z) : M TcpConnection.t :=
  let oldLen := ByteBuffer.readableBytes (TcpConnection.m_outputBuffer this) in
  when ((wrap_size_t (oldLen + remaining) >=? TcpConnection.m_highWaterMark this)
        && (oldLen <? TcpConnection.m_highWaterMark this))
       (queue_if_set (TcpConnection.m_highWaterMarkCallback this)
                     (fun cb => FnHighWaterMark cb (wrap_size_t (oldLen + remaining)))) ;;
  let this :=
    TcpConnection.set_outputBuffer this
      (ByteBuffer.append (TcpConnection.m_outputBuffer this)
         (firstn (Z.to_nat remaining) (skipn (Z.to_nat nwrote) data))) in
  ch <- channel_at (TcpConnection.m_channel this) ;;
  (if negb (Channel.isWriting ch)
   then Channel_enableWriting (TcpConnection.m_channel this) ;; ret tt
   else ret tt) ;;
  ret this.

(** TcpConnection::sendInLoop(const void *data, size_t len): the payload
    is the byte list, len its length, [wr] what sockets::write returns if
    it is called. *)
Definition TcpConnection_sendInLoop (this : TcpConnection.t) (data : list Byte.byte)
    (wr : WriteResult) : M TcpConnection.t :=
  EventLoop_assertInLoopThread ;;
  let len := Z.of_nat (length data) in
  if TcpConnection.StateE_eqb (TcpConnection.m_state this) kDisconnected then ret this
  else
    ch <- channel_at (TcpConnection.m_channel this) ;;
    st <-
      (if negb (Channel.isWriting ch)
          && (ByteBuffer.readableBytes (TcpConnection.m_outputBuffer this) =? 0)
       then sendInLoop_direct_write this ch data wr
       else ret (0, len, false)) ;;
    let '(nwrote, remaining, faultError) := st in
    if remaining >? len then ret this
    else if negb faultError && (remaining >? 0)
    then sendInLoop_buffer this data nwrote remaining
    else ret this.

(** TcpConnection::sendInLoop(const string &message) *)
Definition TcpConnection_sendInLoop_string (this : TcpConnection.t)
    (message : list Byte.byte) (wr : WriteResult) : M TcpConnection.t :=
  TcpConnection_sendInLoop this message wr.

(** The connection after a runInLoop that may or may not have run. *)
Definition after_runInLoop (this : TcpConnection.t) (r : option TcpConnection.t)
  : TcpConnection.t :=
  match r with Some this' => this' | None => this end.

(** TcpConnection::send(const void *data, int len) *)
Definition TcpConnection_send (this : TcpConnection.t) (data : list Byte.byte)
    (wr : WriteResult) : M TcpConnection.t :=
  if TcpConnection.StateE_eqb (TcpConnection.m_state this) kConnected then
    b <- EventLoop_isInLoopThread ;;
    if b then TcpConnection_sendInLoop this data wr
    else
      r <- EventLoop_runInLoop (FnSendInLoop data)
             (TcpConnection_sendInLoop_string this data wr) ;;
      ret (after_runInLoop this r)
  else ret this.

(** TcpConnection::send(const string &message) *)
Definition TcpConnection_send_string (this : TcpConnection.t) (message : list Byte.byte)
    (wr : WriteResult) : M TcpConnection.t :=
  if TcpConnection.StateE_eqb (TcpConnection.m_state this) kConnected then
    b <- EventLoop_isInLoopThread ;;
    if b then TcpConnection_sendInLoop_string this message wr
    else
      r <- EventLoop_runInLoop (FnSendInLoop message)
             (TcpConnection_sendInLoop_string this message wr) ;;
      ret (after_runInLoop this r)
  else ret this.

(** TcpConnection::send(ByteBuffer *buf): the result also carries the
    caller's buffer. *)
Definition TcpConnection_send_buffer (this : TcpConnection.t) (buf : ByteBuffer.t)
    (wr : WriteResult) : M (TcpConnection.t * ByteBuffer.t) :=
  if TcpConnection.StateE_eqb (TcpConnection.m_state this) kConnected then
    b <- EventLoop_isInLoopThread ;;
    if b then
      this' <- TcpConnection_sendInLoop this (ByteBuffer.peek buf) wr ;;
      ret (this', ByteBuffer.retrieveAll buf)
    else
      let '(message, buf') := ByteBuffer.retrieveAllAsString buf in
      r <- EventLoop_runInLoop (FnSendInLoop message)
             (TcpConnection_sendInLoop_string this message wr) ;;
      ret (after_runInLoop this r, buf')
  else ret (this, buf).

(** ** Notions the statements use *)

(** The events one guarded call contributes. *)
Definition fired (cond : bool) (f : option CallbackId) (ev : CallbackId -> Event)
  : list Event :=
  if cond then match f with Some cb => [ev cb] | None => [] end else [].

(** The dispatch the specification describes, on the bits of the ready
    mask: IN is bit 0, PRI bit 1, OUT bit 2, ERR bit 3, HUP bit 4, NVAL
    bit 5 and RDHUP bit 13. *)
Definition dispatch_of_spec (ch : Channel.t) (receiveTime : Z) : list Event :=
  let r := Channel.m_revents ch in
  let fd := Channel.m_fd ch in
  fired (Z.testbit r 4 && negb (Z.testbit r 0))
        (Channel.m_closeCallback ch) (EvChannelCallback fd CbClose)
  ++ fired (Z.testbit r 3 || Z.testbit r 5)
        (Channel.m_errorCallback ch) (EvChannelCallback fd CbError)
  ++ fired (Z.testbit r 0 || Z.testbit r 1 || Z.testbit r 13)
        (Channel.m_readCallback ch) (EvChannelCallback fd (CbRead receiveTime))
  ++ fired (Z.testbit r 2)
        (Channel.m_writeCallback ch) (EvChannelCallback fd CbWrite).

(** The caller is the loop's own thread. *)
Definition in_loop_thread (w : World) : Prop :=
  EventLoop.m_threadId (loop w) = current_thread w.

(** The registration invariant of the poller: every fd in the map leads
    to a live channel that has this fd and whose index is Added or
    Deleted. *)
Definition registered_ok (w : World) (fd p : Z) : bool :=
  match channels w !! p with
  | Some ch =>
      (Channel.m_fd ch =? fd)
      && ((Channel.m_index ch =? SelectPoller.kAdded)
          || (Channel.m_index ch =? SelectPoller.kDeleted))
  | None => false
  end.

Definition poller_inv (w : World) : Prop :=
  map_Forall (fun fd p => registered_ok w fd p = true)
             (SelectPoller.m_channels (poller w)).

(** The index of the channel at an address, -2 standing for a dangling
    address. *)
Definition index_of (w : World) (c : Z) : Z :=
  match channels w !! c with
  | Some ch => Channel.m_index ch
  | None => -2
  end.

(** Whether the timer behind an entry has expired at [now]. *)
Definition expired (now : Z) (h : gmap Z Timer.t) (e : TimerQueue.Entry) : bool :=
  match h !! snd e with
  | Some tm => Timer.m_expiration tm <=? now
  | None => false
  end.

(** The entries a doTimer pass visits: the longest prefix of the set, in
    its order, whose timers have expired. *)
Fixpoint due_prefix (now : Z) (h : gmap Z Timer.t) (es : list TimerQueue.Entry)
  : list TimerQueue.Entry :=
  match es with
  | [] => []
  | e :: r => if expired now h e then e :: due_prefix now h r else []
  end.

(** The entries behind that prefix. *)
Fixpoint after_due (now : Z) (h : gmap Z Timer.t) (es : list TimerQueue.Entry)
  : list TimerQueue.Entry :=
  match es with
  | [] => []
  | e :: r => if expired now h e then after_due now h r else es
  end.

(** The callbacks of the timers of [es] that are not cancelled, in order. *)
Definition fire_event (h : gmap Z Timer.t) (e : TimerQueue.Entry) : list Event :=
  match h !! snd e with
  | Some tm =>
      if Timer.m_canceled tm then [] else [EvTimerCallback (snd e) (Timer.m_callback tm)]
  | None => []
  end.

Definition fired_events (h : gmap Z Timer.t) (es : list TimerQueue.Entry) : list Event :=
  flat_map (fire_event h) es.

(** The repeat count a timer that fires is left with: -1 stays, any other
    count goes down by one. *)
Definition count_after_firing (tm : Timer.t) : Z :=
  if Timer.m_repeatCount tm =? -1 then -1 else wrap64 (Timer.m_repeatCount tm - 1).

(** The state Timer::run leaves a timer in. *)
Definition Timer_after_run (tm : Timer.t) : Timer.t :=
  if Timer.m_canceled tm then tm
  else if Timer.m_repeatCount tm =? -1 then
    Timer.set_expiration tm (Timestamp_add (Timer.m_expiration tm) (Timer.m_interval tm))
  else
    let n := wrap64 (Timer.m_repeatCount tm - 1) in
    if n =? 0 then Timer.set_repeatCount tm n
    else Timer.set_expiration (Timer.set_repeatCount tm n)
           (Timestamp_add (Timer.m_expiration tm) (Timer.m_interval tm)).

(** The timer heap after the timers of the visited prefix have run. *)
Fixpoint run_due (now : Z) (h : gmap Z Timer.t) (es : list TimerQueue.Entry)
  : gmap Z Timer.t :=
  match es with
  | [] => h
  | e :: r =>
      match h !! snd e with
      | Some tm =>
          if Timer.m_expiration tm <=? now
          then <[snd e := Timer_after_run tm]> (run_due now h r)
          else h
      | None => h
      end
  end.

(** The entries a doTimer pass leaves in the set. *)
Fixpoint kept (now : Z) (h : gmap Z Timer.t) (es : list TimerQueue.Entry)
  : list TimerQueue.Entry :=
  match es with
  | [] => []
  | e :: r =>
      match h !! snd e with
      | Some tm =>
          if Timer.m_expiration tm <=? now then
            if Timer.m_repeatCount (Timer_after_run tm) =? 0 then kept now h r
            else e :: kept now h r
          else es
      | None => es
      end
  end.

(** Every entry leads to a live timer. *)
Definition timers_live (w : World) : Prop :=
  Forall (fun e => is_Some (timers w !! snd e)) (timer_queue w).

(** Every entry sits under the expiration its timer has now, as right
    after TimerQueue::insert. *)
Definition keys_current (w : World) : Prop :=
  Forall (fun e => exists tm, timers w !! snd e = Some tm /\ Timer.m_expiration tm = fst e)
         (timer_queue w).

(** [a] comes before [b] in [l]. *)
Definition before {A} (a b : A) (l : list A) : Prop :=
  exists l1 l2 l3, l = l1 ++ a :: l2 ++ b :: l3.

(** The set is usable by doTimer and as TimerQueue::insert leaves it: one
    entry per timer, every timer live, entries in the order of
    std::pair's operator<, every key the expiration of its timer. *)
Definition queue_ok (w : World) : Prop :=
  NoDup (map snd (timer_queue w))
  /\ timers_live w
  /\ StronglySorted TimerQueue.entry_lt (timer_queue w)
  /\ keys_current w.

(** All that differs between the two worlds is the poller and the
    channels. *)
Definition same_outside_poller (w w' : World) : Prop :=
  current_thread w' = current_thread w
  /\ EventLoop.m_threadId (loop w') = EventLoop.m_threadId (loop w)
  /\ EventLoop.m_doingOtherTasks (loop w') = EventLoop.m_doingOtherTasks (loop w)
  /\ EventLoop.m_timerQueue (loop w') = EventLoop.m_timerQueue (loop w)
  /\ EventLoop.m_pendingFunctors (loop w') = EventLoop.m_pendingFunctors (loop w)
  /\ timers w' = timers w
  /\ s_numCreated w' = s_numCreated w
  /\ trace w' = trace w.

(** The closures waiting in the loop. *)
Definition pending (w : World) : list Functor := EventLoop.m_pendingFunctors (loop w).

(** sendInLoop tries the socket first when the channel is not writing
    and the output buffer is empty. *)
Definition direct_write_attempted (this : TcpConnection.t) (ch : Channel.t) : bool :=
  negb (Channel.isWriting ch)
  && (ByteBuffer.readableBytes (TcpConnection.m_outputBuffer this) =? 0).

(** The errors that make sendInLoop drop the remainder. *)
Definition fatal_errno (e : Z) : bool := (e =? EPIPE) || (e =? ECONNRESET).

(** The nonempty remainder of the payload that survives the direct-write
    attempt without a fatal error, if there is one: the whole payload
    when no write is attempted or the write fails otherwise than by
    EPIPE or ECONNRESET, what the write did not take when it took less
    than all. *)
Definition surviving_remainder (this : TcpConnection.t) (ch : Channel.t)
    (data : list Byte.byte) (wr : WriteResult) : option (list Byte.byte) :=
  let len := Z.of_nat (length data) in
  if direct_write_attempted this ch then
    if 0 <=? write_ret wr then
      if write_ret wr <? len then Some (skipn (Z.to_nat (write_ret wr)) data) else None
    else if fatal_errno (write_errno wr) then None
    else if 0 <? len then Some data else None
  else if 0 <? len then Some data else None.

(** The events of a send of no bytes: the write call with count 0 and
    the wakeup of the loop. *)
Definition empty_send_event (fd : Z) (wr : WriteResult) (e : Event) : Prop :=
  e = EvSocketWrite fd [] (write_ret wr) \/ e = EvWakeup.

(** What queueInLoop adds to the trace: the wakeup, when the caller is
    another thread or the loop is draining its tasks. *)
Definition wakeup_events (w : World) : list Event :=
  if negb (EventLoop.m_threadId (loop w) =? current_thread w)
     || EventLoop.m_doingOtherTasks (loop w)
  then [EvWakeup] else [].

(** The world with one more closure waiting in the loop. *)
Definition push_functor (cb : Functor) (w : World) : World :=
  set_loop (EventLoop.mk (EventLoop.m_threadId (loop w))
                         (EventLoop.m_doingOtherTasks (loop w))
                         (EventLoop.m_poller (loop w))
                         (EventLoop.m_timerQueue (loop w))
                         (EventLoop.m_pendingFunctors (loop w) ++ [cb])) w.

(** ** Concrete worlds *)

(** A loop owned by thread 1 with nothing registered. *)
Definition loop0 : EventLoop.t :=
  EventLoop.mk 1 false (SelectPoller.mk ∅ []) (TimerQueue.mk []) [].

(** The world seen from the loop thread itself. *)
Definition world0 : World := mkWorld 1 loop0 ∅ ∅ 0 [].

(** The same loop seen from another thread. *)
Definition world_other_thread : World := mkWorld 2 loop0 ∅ ∅ 0 [].

(** A channel for fd 5 as its constructor leaves it, with the read,
    write, close and error callbacks 1 to 4 set. *)
Definition chan_new : Channel.t :=
  Channel.mk 5 0 0 (-1) (Some 1%nat) (Some 2%nat) (Some 3%nat) (Some 4%nat).

(** The same channel reported ready with HUP, ERR and OUT. *)
Definition chan_ready : Channel.t :=
  Channel.set_revents chan_new (Z.lor XPOLLHUP (Z.lor XPOLLERR XPOLLOUT)).

Definition world_ready : World := mkWorld 1 loop0 {[100 := chan_ready]} ∅ 0 [].

(** A channel for fd 6 registered (Added) with read interest. *)
Definition chan_added : Channel.t := Channel.mk 6 3 0 1 None None None None.

(** The loop with the channel at address 200 registered for fd 6, and the
    fresh channel for fd 5 at address 100. *)
Definition loop_registered : EventLoop.t :=
  EventLoop.mk 1 false
    (SelectPoller.mk {[6 := 200]} [SelectPoller.mk_event 3 200])
    (TimerQueue.mk []) [].

Definition world_registered : World :=
  mkWorld 1 loop_registered {[100 := chan_new; 200 := chan_added]} ∅ 0 [].

(** A second channel for fd 5, at address 300, already registered while
    the fresh one at address 100 wants the same fd. *)
Definition chan_fd5_added : Channel.t := Channel.mk 5 3 0 1 None None None None.

Definition loop_fd5_taken : EventLoop.t :=
  EventLoop.mk 1 false
    (SelectPoller.mk {[5 := 300]} [SelectPoller.mk_event 3 300])
    (TimerQueue.mk []) [].

Definition world_fd5_taken : World :=
  mkWorld 1 loop_fd5_taken {[100 := chan_new; 300 := chan_fd5_added]} ∅ 0 [].

(** Four timers: a cancelled one due at 5, a repeating one (every 100)
    and a single-shot one (repeat count 1) both due at 10, and one due
    at 30. *)
Definition timer_cancelled : Timer.t := Timer.mk 60%nat 5 0 1 1 true.
Definition timer_repeating : Timer.t := Timer.mk 70%nat 10 100 (-1) 2 false.
Definition timer_single : Timer.t := Timer.mk 80%nat 10 0 1 3 false.
Definition timer_later : Timer.t := Timer.mk 90%nat 30 0 1 4 false.

Definition loop_timers : EventLoop.t :=
  EventLoop.mk 1 false (SelectPoller.mk ∅ [])
    (TimerQueue.mk [(5, 6); (10, 7); (10, 8); (30, 9)]) [].

Definition world_timers : World :=
  mkWorld 1 loop_timers ∅
    {[6 := timer_cancelled; 7 := timer_repeating; 8 := timer_single; 9 := timer_later]}
    4 [].

(** Only the repeating timer. *)
Definition loop_repeating : EventLoop.t :=
  EventLoop.mk 1 false (SelectPoller.mk ∅ []) (TimerQueue.mk [(10, 7)]) [].

Definition world_repeating : World :=
  mkWorld 1 loop_repeating ∅ {[7 := timer_repeating]} 2 [].

(** The repeating timer and, behind it, a single-shot timer due at 50. *)
Definition timer_due_50 : Timer.t := Timer.mk 80%nat 50 0 1 3 false.

Definition loop_two_timers : EventLoop.t :=
  EventLoop.mk 1 false (SelectPoller.mk ∅ []) (TimerQueue.mk [(10, 7); (50, 8)]) [].

Definition world_two_timers : World :=
  mkWorld 1 loop_two_timers ∅ {[7 := timer_repeating; 8 := timer_due_50]} 3 [].

(** A Connected connection on fd 5: its channel at address 100 is
    registered with read interest; all five callbacks are set, the
    high-water mark is 4 bytes, both buffers are empty. *)
Definition chan_conn : Channel.t :=
  Channel.mk 5 3 0 1 (Some 1%nat) (Some 2%nat) (Some 3%nat) (Some 4%nat).

Definition loop_conn : EventLoop.t :=
  EventLoop.mk 1 false
    (SelectPoller.mk {[5 := 100]} [SelectPoller.mk_event 3 100])
    (TimerQueue.mk []) [].

Definition world_conn : World := mkWorld 1 loop_conn {[100 := chan_conn]} ∅ 0 [].

Definition conn0 : TcpConnection.t :=
  TcpConnection.mk kConnected 100
    (Some 10%nat) (Some 11%nat) (Some 12%nat) (Some 13%nat) (Some 14%nat)
    4 (ByteBuffer.mk []) (ByteBuffer.mk []).

(** The same connection after shutdown(). *)
Definition conn_disconnecting : TcpConnection.t :=
  TcpConnection.setState conn0 kDisconnecting.

(** The four bytes "abcd". *)
Definition abcd : list Byte.byte := [Byte.x61; Byte.x62; Byte.x63; Byte.x64].

(** The connection's world seen from another thread. *)
Definition world_conn_other_thread : World :=
  mkWorld 2 loop_conn {[100 := chan_conn]} ∅ 0 [].

(** ** TcpConnection: the rest of the life cycle *)

(** Calls on the connection's socket other than read and write; a method
    that makes one returns it. *)
Inductive SocketCall :=
| SockShutdownWrite (fd : Z).

(** Modelled from the spec: ByteBuffer::retrieve (ByteBuffer is not among
    the sources).  The spec has retrieve(n) advance the read cursor by n
    when n is less than the readable count and reset both cursors
    otherwise: the first n readable bytes are gone, all of them when n is
    the readable count or more. *)
Definition ByteBuffer_retrieve (b : ByteBuffer.t) (n : Z) : ByteBuffer.t :=
  ByteBuffer.mk (skipn (Z.to_nat n) (ByteBuffer.readable b)).

(** TcpConnection::shutdownInLoop; the socket is the one of the channel's
    fd. *)
Definition TcpConnection_shutdownInLoop (this : TcpConnection.t) : M (list SocketCall) :=
  EventLoop_assertInLoopThread ;;
  ch <- channel_at (TcpConnection.m_channel this) ;;
  if negb (Channel.isWriting ch) then ret [SockShutdownWrite (Channel.m_fd ch)]
  else ret [].

(** TcpConnection::handleWrite, with [wr] what sockets::write returns if
    it is called. *)
Definition TcpConnection_handleWrite (this : TcpConnection.t) (wr : WriteResult)
  : M (TcpConnection.t * list SocketCall) :=
  EventLoop_assertInLoopThread ;;
  ch <- channel_at (TcpConnection.m_channel this) ;;
  if Channel.isWriting ch then
    emit (EvSocketWrite (Channel.m_fd ch)
            (ByteBuffer.peek (TcpConnection.m_outputBuffer this)) (write_ret wr)) ;;
    if write_ret wr >? 0 then
      let this :=
        TcpConnection.set_outputBuffer this
          (ByteBuffer_retrieve (TcpConnection.m_outputBuffer this) (write_ret wr)) in
      if ByteBuffer.readableBytes (TcpConnection.m_outputBuffer this) =? 0 then
        Channel_disableWriting (TcpConnection.m_channel this) ;;
        queue_if_set (TcpConnection.m_writeCompleteCallback this) FnWriteComplete ;;
        if TcpConnection.StateE_eqb (TcpConnection.m_state this) kDisconnecting then
          calls <- TcpConnection_shutdownInLoop this ;;
          ret (this, calls)
        else ret (this, [])
      else ret (this, [])
    else
      this' <- TcpConnection_handleClose this ;;
      ret (this', [])
  else ret (this, []).

(** TcpConnection::forceClose *)
Definition TcpConnection_forceClose (this : TcpConnection.t) : M TcpConnection.t :=
  if TcpConnection.StateE_eqb (TcpConnection.m_state this) kConnected
     || TcpConnection.StateE_eqb (TcpConnection.m_state this) kDisconnecting
  then
    let this := TcpConnection.setState this kDisconnecting in
    EventLoop_queueInLoop FnForceCloseInLoop ;;
    ret this
  else ret this.

(** TcpConnection::forceCloseInLoop *)
Definition TcpConnection_forceCloseInLoop (this : TcpConnection.t) : M TcpConnection.t :=
  EventLoop_assertInLoopThread ;;
  if TcpConnection.StateE_eqb (TcpConnection.m_state this) kConnected
     || TcpConnection.StateE_eqb (TcpConnection.m_state this) kDisconnecting
  then TcpConnection_handleClose this
  else ret this.

(** TcpConnection::connectEstablished *)
Definition TcpConnection_connectEstablished (this : TcpConnection.t) : M TcpConnection.t :=
  EventLoop_assertInLoopThread ;;
  if negb (TcpConnection.StateE_eqb (TcpConnection.m_state this) kConnecting) then ret this
  else
    let this := TcpConnection.setState this kConnected in
    ok <- Channel_enableReading (TcpConnection.m_channel this) ;;
    if negb ok then TcpConnection_handleClose this
    else
      call (TcpConnection.m_connectionCallback this)
           (fun cb => EvConnectionCallback cb (TcpConnection.connected this)) ;;
      ret this.


(** The bytes the socket of [fd] has taken, in order: of every write call
    the part it accepted. *)
Fixpoint socket_stream (fd : Z) (tr : list Event) : list Byte.byte :=
  match tr with
  | [] => []
  | EvSocketWrite fd' data n :: r =>
      (if fd' =? fd then firstn (Z.to_nat n) data else []) ++ socket_stream fd r
  | _ :: r => socket_stream fd r
  end.

(** Pending output implies write interest, for a connection that is not
    Disconnected. *)
Definition output_armed (this : TcpConnection.t) (w : World) : Prop :=
  TcpConnection.m_state this <> kDisconnected ->
  0 < ByteBuffer.readableBytes (TcpConnection.m_outputBuffer this) ->
  exists ch, channels w !! TcpConnection.m_channel this = Some ch
             /\ Channel.isWriting ch = true.

(** ** The poller's event list *)

(** The entries of the event list whose data.ptr is the channel. *)
Definition entries_of (c : Z) (evs : list SelectPoller.epoll_event)
  : list SelectPoller.epoll_event :=
  List.filter (fun e => SelectPoller.data_ptr e =? c) evs.

(** The poller has a channel as the channel says: a channel whose index is
    Added or Deleted is the one its fd maps to, a channel whose index is
    Deleted has no interest, and the event list has one entry for a
    channel whose index is Added, with the channel's interest mask, and
    none for a channel with another index. *)
Definition watched (w : World) (c : Z) (ch : Channel.t) : Prop :=
  ((Channel.m_index ch = SelectPoller.kAdded
    \/ Channel.m_index ch = SelectPoller.kDeleted) ->
   SelectPoller.m_channels (poller w) !! Channel.m_fd ch = Some c)
  /\ (Channel.m_index ch = SelectPoller.kDeleted -> Channel.isNoneEvent ch = true)
  /\ entries_of c (SelectPoller.m_events (poller w))
     = if Channel.m_index ch =? SelectPoller.kAdded
       then [SelectPoller.mk_event (Channel.m_events ch) c]
       else [].

Definition watch_inv (w : World) : Prop :=
  forall c ch, channels w !! c = Some ch -> watched w c ch.

(** ** SelectPoller::poll *)

(** FD_SETSIZE of the C library (1024 with glibc): FD_SET and FD_ISSET on
    a descriptor outside 0 .. FD_SETSIZE-1 touch memory outside the set. *)
Definition FD_SETSIZE : Z := 1024.

Definition fd_in_range (fd : Z) : bool := (0 <=? fd) && (fd <? FD_SETSIZE).

(** FD_SET *)
Definition FD_SET (fd : Z) (s : gset Z) : M (gset Z) :=
  if fd_in_range fd then ret ({[fd]} ∪ s) else crash.

(** FD_ISSET *)
Definition FD_ISSET (fd : Z) (s : gset Z) : M bool :=
  if fd_in_range fd then ret (bool_decide (fd ∈ s)) else crash.

(** The order of the keys of the ChannelMap. *)
Definition fd_le (a b : Z * Z) : Prop := fst a <= fst b.

Definition fd_le_dec (a b : Z * Z) : Decision (fd_le a b) := Z_le_dec (fst a) (fst b).

(** The pairs (fd, channel) of the ChannelMap, a std::map, as a loop over
    it meets them: by increasing fd. *)
Definition ChannelMap_entries (m : gmap Z Z) : list (Z * Z) :=
  @merge_sort _ fd_le fd_le_dec (map_to_list m).

(** The first loop of poll: the largest fd and the two sets given to
    select. *)
Fixpoint poll_fd_sets (es : list (Z * Z)) (maxfd : Z) (readfds writefds : gset Z)
  : M (Z * gset Z * gset Z) :=
  match es with
  | [] => ret (maxfd, readfds, writefds)
  | (tmpfd, channel) :: r =>
      let maxfd := if tmpfd >? maxfd then tmpfd else maxfd in
      ch <- channel_at channel ;;
      readfds <-
        (if truthy (Z.land (Channel.m_events ch) XPOLLIN) then FD_SET tmpfd readfds
         else ret readfds) ;;
      writefds <-
        (if truthy (Z.land (Channel.m_events ch) XPOLLOUT) then FD_SET tmpfd writefds
         else ret writefds) ;;
      poll_fd_sets r maxfd readfds writefds
  end.

(** channel->add_revents(revt) *)
Definition Channel_add_revents (c : Z) (revt : Z) : M unit :=
  ch <- channel_at c ;;
  store_channel c (Channel.add_revents ch revt).

(** The loop of fillActiveChannels from the entries still to visit. *)
Fixpoint fillActiveChannels_from (es : list (Z * Z)) (numEvents : Z)
    (readfds writefds : gset Z) (currentCount : Z) (activeChannels : list Z)
  : M (list Z) :=
  match es with
  | [] => ret activeChannels
  | (fd, channel) :: r =>
      rd <- FD_ISSET fd readfds ;;
      when rd (Channel_add_revents channel XPOLLIN) ;;
      wr <- FD_ISSET fd writefds ;;
      when wr (Channel_add_revents channel XPOLLOUT) ;;
      if rd || wr then
        let activeChannels := activeChannels ++ [channel] in
        let currentCount := currentCount + 1 in
        if currentCount >=? numEvents then ret activeChannels
        else fillActiveChannels_from r numEvents readfds writefds currentCount
               activeChannels
      else fillActiveChannels_from r numEvents readfds writefds currentCount
             activeChannels
  end.

(** SelectPoller::fillActiveChannels; the result is the list of active
    channels after it. *)
Definition SelectPoller_fillActiveChannels (numEvents : Z) (activeChannels : list Z)
    (readfds writefds : gset Z) : M (list Z) :=
  m <- gets (fun w => SelectPoller.m_channels (poller w)) ;;
  fillActiveChannels_from (ChannelMap_entries m) numEvents readfds writefds 0
    activeChannels.

(** The arguments of the call of select. *)
Record SelectCall := mkSelectCall {
  sc_nfds : Z;
  sc_readfds : gset Z;
  sc_writefds : gset Z;
  sc_tv_sec : Z;
  sc_tv_usec : Z
}.

(** What select returned and left in the two sets. *)
Record SelectResult := mkSelectResult {
  sr_numEvents : Z;
  sr_readfds : gset Z;
  sr_writefds : gset Z
}.

(** SelectPoller::poll, with [sel] what select returns and [now] the time
    read after it.  The result is the time, the list of active channels
    and the call of select that was made. *)
Definition SelectPoller_poll (timeoutMs : Z) (activeChannels : list Z)
    (sel : SelectResult) (now : Z) : M (Z * list Z * SelectCall) :=
  m <- gets (fun w => SelectPoller.m_channels (poller w)) ;;
  sets <- poll_fd_sets (ChannelMap_entries m) 0 ∅ ∅ ;;
  let '(maxfd, readfds, writefds) := sets in
  let tv_sec := Z.quot timeoutMs 1000 in
  let tv_usec := (timeoutMs - tv_sec * 1000) * 1000 in
  let call := mkSelectCall (maxfd + 1) readfds writefds tv_sec tv_usec in
  let numEvents := sr_numEvents sel in
  if numEvents >? 0 then
    activeChannels <-
      SelectPoller_fillActiveChannels numEvents activeChannels
        (sr_readfds sel) (sr_writefds sel) ;;
    evs <- gets (fun w => SelectPoller.m_events (poller w)) ;;
    when (wrap_size_t numEvents =? Z.of_nat (length evs))
         (modify (set_m_events
                    (evs ++ repeat (SelectPoller.mk_event 0 0) (length evs)))) ;;
    ret (now, activeChannels, call)
  else ret (now, activeChannels, call).

(** The entries whose fd select left in one of the two sets. *)
Definition fd_ready (readfds writefds : gset Z) (e : Z * Z) : bool :=
  bool_decide (fst e ∈ readfds) || bool_decide (fst e ∈ writefds).

(** The bits fillActiveChannels adds to the revents of the channel of a
    ready fd. *)
Definition ready_bits (readfds writefds : gset Z) (fd : Z) : Z :=
  Z.lor (if bool_decide (fd ∈ readfds) then XPOLLIN else 0)
        (if bool_decide (fd ∈ writefds) then XPOLLOUT else 0).

(** Every fd of the poller's map fits an fd_set. *)
Definition fds_in_range (w : World) : Prop :=
  map_Forall (fun fd _ => fd_in_range fd = true) (SelectPoller.m_channels (poller w)).

(** ** The length-prefixed packages of the file protocol *)

(** src/FileSession.cpp: [#define MAX_PACKAGE_SIZE 50 * 1024 * 1024] *)
Definition MAX_PACKAGE_SIZE : Z := 50 * 1024 * 1024.

(** sizeof(file_msg_header): one packed int64_t. *)
Definition sizeof_file_msg_header : Z := 8.

(** Two's complement wrap of a signed 32-bit value (conversion to int). *)
Definition wrap32 (z : Z) : Z := (z + 2 ^ 31) mod 2 ^ 32 - 2 ^ 31.

(** The byte with the low 8 bits of an integer, and the value of a byte. *)
Definition byte_of_Z (z : Z) : Byte.byte :=
  match Byte.of_N (Z.to_N (z mod 256)) with
  | Some b => b
  | None => Byte.x00
  end.

Definition Z_of_byte (b : Byte.byte) : Z := Z.of_N (Byte.to_N b).

(** The [k] low bytes of an integer in two's complement, least
    significant first, and the unsigned value of such bytes. *)
Fixpoint le_bytes (k : nat) (n : Z) : list Byte.byte :=
  match k with
  | O => []
  | S k => byte_of_Z n :: le_bytes k (n / 256)
  end.

Fixpoint le_value (bs : list Byte.byte) : Z :=
  match bs with
  | [] => 0
  | b :: r => Z_of_byte b + 256 * le_value r
  end.

(** The bytes of a file_msg_header in memory, as the two memcpy-style
    copies of the header see them on a little-endian host: the eight
    bytes of packagesize. *)
Definition header_bytes (packagesize : Z) : list Byte.byte := le_bytes 8 packagesize.

(** [memcpy(&header, p, sizeof(file_msg_header)); header.packagesize] *)
Definition header_packagesize (p : list Byte.byte) : Z :=
  wrap64 (le_value (firstn 8 p)).

(** The package TcpSession::sendPackage builds: header, then body. *)
Definition package (body : list Byte.byte) : list Byte.byte :=
  header_bytes (Z.of_nat (length body)) ++ body.

(** TcpSession::sendPackage, for a body given with its own length as at
    the call in TcpSession::send; [conn] is what tmpConn_.lock() gives
    and [wr] what sockets::write returns if it is called.  send takes the
    length as an int: a length that the conversion makes negative has
    write read past the end of the string. *)
Definition TcpSession_sendPackage (conn : option TcpConnection.t) (body : list Byte.byte)
    (wr : WriteResult) : M (option TcpConnection.t) :=
  let bodylength := Z.of_nat (length body) in
  if bodylength <=? 0 then ret conn
  else
    let strPackageData := header_bytes bodylength ++ body in
    match conn with
    | None => ret None
    | Some c =>
        let len := wrap32 (Z.of_nat (length strPackageData)) in
        if len <? 0 then crash
        else
          c' <- TcpConnection_send c (firstn (Z.to_nat len) strPackageData) wr ;;
          ret (Some c')
    end.

Section FileSession.

(** FileSession::process: it decodes the body with BinaryStreamReader
    (net/ProtocolStream.cpp, not among the sources) and answers through
    the connection; here it is any action on the connection and the
    world that says whether it succeeded. *)
Variable process : TcpConnection.t -> list Byte.byte -> M (bool * TcpConnection.t).

(** The loop of FileSession::onRead; pBuffer is the input buffer of the
    connection, as TcpConnection::handleRead passes it.  Every round
    that does not return takes a package out of the buffer; [fuel]
    bounds the rounds, and the result is [None] when it runs out. *)
Fixpoint FileSession_onRead (fuel : nat) (conn : TcpConnection.t)
  : M (option TcpConnection.t) :=
  match fuel with
  | O => ret None
  | S fuel =>
      let pBuffer := TcpConnection.m_inputBuffer conn in
      if ByteBuffer.readableBytes pBuffer <? wrap_size_t sizeof_file_msg_header
      then ret (Some conn)
      else
        let packagesize := header_packagesize (ByteBuffer.peek pBuffer) in
        if (packagesize <=? 0) || (packagesize >? MAX_PACKAGE_SIZE) then
          conn <- TcpConnection_forceClose conn ;;
          ret (Some conn)
        else if ByteBuffer.readableBytes pBuffer
                <? wrap_size_t (wrap_size_t packagesize + sizeof_file_msg_header)
        then ret (Some conn)
        else
          let pBuffer := ByteBuffer_retrieve pBuffer sizeof_file_msg_header in
          let inbuf := firstn (Z.to_nat packagesize) (ByteBuffer.peek pBuffer) in
          let pBuffer := ByteBuffer_retrieve pBuffer packagesize in
          let conn := TcpConnection.set_inputBuffer conn pBuffer in
          r <- process conn inbuf ;;
          let '(ok, conn) := r in
          conn <- (if negb ok then TcpConnection_forceClose conn else ret conn) ;;
          FileSession_onRead fuel conn
  end.

(** What onRead does with a buffer that holds the packages of [bodies]
    and then [tail]: each body goes to process, which sees the buffer
    without the package, and a body that process fails on is followed by
    forceClose. *)
Fixpoint deliver (bodies : list (list Byte.byte)) (tail : list Byte.byte)
    (conn : TcpConnection.t) : M TcpConnection.t :=
  match bodies with
  | [] => ret conn
  | body :: rest =>
      let conn :=
        TcpConnection.set_inputBuffer conn
          (ByteBuffer.mk (concat (map package rest) ++ tail)) in
      r <- process conn body ;;
      let '(ok, conn) := r in
      conn <- (if negb ok then TcpConnection_forceClose conn else ret conn) ;;
      deliver rest tail conn
  end.

End FileSession.

(** A body that sendPackage frames and onRead accepts. *)
Definition valid_body (body : list Byte.byte) : Prop :=
  0 < Z.of_nat (length body) <= MAX_PACKAGE_SIZE.

(** A buffer that does not start with a whole package: too short for a
    header, or shorter than the package its header announces. *)
Definition incomplete (tail : list Byte.byte) : Prop :=
  Z.of_nat (length tail) < sizeof_file_msg_header
  \/ (0 < header_packagesize tail <= MAX_PACKAGE_SIZE
      /\ Z.of_nat (length tail) < header_packagesize tail + sizeof_file_msg_header).

(** A buffer that starts with a header no package may have. *)
Definition bad_header (tail : list Byte.byte) : Prop :=
  sizeof_file_msg_header <= Z.of_nat (length tail)
  /\ (header_packagesize tail <= 0 \/ MAX_PACKAGE_SIZE < header_packagesize tail).

(** ** More concrete worlds *)

(** The connection of [world_conn] while output is pending: its channel
    has write interest as well, and "abcd" waits in the output buffer. *)
Definition chan_conn_writing : Channel.t :=
  Channel.mk 5 7 0 1 (Some 1%nat) (Some 2%nat) (Some 3%nat) (Some 4%nat).

Definition loop_conn_writing : EventLoop.t :=
  EventLoop.mk 1 false
    (SelectPoller.mk {[5 := 100]} [SelectPoller.mk_event 7 100])
    (TimerQueue.mk []) [].

Definition world_conn_writing : World :=
  mkWorld 1 loop_conn_writing {[100 := chan_conn_writing]} ∅ 0 [].

Definition conn_pending : TcpConnection.t :=
  TcpConnection.set_outputBuffer conn0 (ByteBuffer.mk abcd).

(** The same after shutdown(). *)
Definition conn_pending_closing : TcpConnection.t :=
  TcpConnection.setState conn_pending kDisconnecting.

(** The connection before connectEstablished. *)
Definition conn_connecting : TcpConnection.t :=
  TcpConnection.setState conn0 kConnecting.

(** A channel for fd 6 that was registered and has dropped all interest
    (Deleted): it is still in the map, not in the event list. *)
Definition chan_deleted : Channel.t := Channel.mk 6 0 0 2 None None None None.

Definition loop_deleted : EventLoop.t :=
  EventLoop.mk 1 false (SelectPoller.mk {[6 := 200]} []) (TimerQueue.mk []) [].

Definition world_deleted : World :=
  mkWorld 1 loop_deleted {[200 := chan_deleted]} ∅ 0 [].

(** Two registered channels: fd 5 with read interest at address 100 and
    fd 7 with read and write interest at address 300. *)
Definition chan_fd7 : Channel.t := Channel.mk 7 7 0 1 None None None None.

Definition loop_poll : EventLoop.t :=
  EventLoop.mk 1 false
    (SelectPoller.mk {[5 := 100; 7 := 300]}
       [SelectPoller.mk_event 3 100; SelectPoller.mk_event 7 300])
    (TimerQueue.mk []) [].

Definition world_poll : World :=
  mkWorld 1 loop_poll {[100 := chan_conn; 300 := chan_fd7]} ∅ 0 [].

(** select found fd 5 readable and fd 7 writable. *)
Definition select_5r_7w : SelectResult := mkSelectResult 2 {[5]} {[7]}.

(** A process that fails on bodies of one byte and touches nothing. *)
Definition process_short_fails (conn : TcpConnection.t) (body : list Byte.byte)
  : M (bool * TcpConnection.t) :=
  ret (negb (Nat.eqb (length body) 1), conn).

(** A connection whose input buffer holds the package of "abcd", the
    package of "a" and one more byte. *)
Definition conn_two_packages : TcpConnection.t :=
  TcpConnection.set_inputBuffer conn0
    (ByteBuffer.mk (package abcd ++ package [Byte.x61] ++ [Byte.x00])).
(** ** Facts about the monad and the world *)

Lemma log_events_nil w : log_events [] w = w.
Proof. destruct w; unfold log_events; simpl. now rewrite app_nil_r. Qed.

Lemma log_events_app es1 es2 w :
  log_events es2 (log_events es1 w) = log_events (es1 ++ es2) w.
Proof. unfold log_events; simpl. now rewrite app_assoc. Qed.

Lemma channel_at_log c ch es w :
  channels w !! c = Some ch ->
  channel_at c (log_events es w) = Done ch (log_events es w).
Proof. intros H. unfold channel_at; simpl. now rewrite H. Qed.

Lemma when_call_if_set cond f ev w :
  when cond (call_if_set f ev) w = Done tt (log_events (fired cond f ev) w).
Proof.
  unfold when, call_if_set, fired, emit, modify, ret.
  destruct cond; [destruct f|]; now rewrite ?log_events_nil.
Qed.

(** ** Bit tests *)

Lemma truthy_land_pow2 r n :
  0 <= n -> truthy (Z.land r (2 ^ n)) = Z.testbit r n.
Proof.
  intros Hn. unfold truthy.
  destruct (Z.testbit r n) eqn:Hb.
  - apply negb_true_iff, Z.eqb_neq. intros H0.
    assert (Hc : Z.testbit (Z.land r (2 ^ n)) n = true).
    { rewrite Z.land_spec, Hb, Z.pow2_bits_true by lia. reflexivity. }
    rewrite H0, Z.bits_0 in Hc. discriminate.
  - apply negb_false_iff, Z.eqb_eq. apply Z.bits_inj'. intros k Hk.
    rewrite Z.land_spec, Z.bits_0, Z.pow2_bits_eqb by lia.
    destruct (Z.eqb_spec n k) as [->|]; [rewrite Hb|]; now rewrite ?andb_false_r.
Qed.

Lemma truthy_land_lor r a b :
  truthy (Z.land r (Z.lor a b)) = truthy (Z.land r a) || truthy (Z.land r b).
Proof.
  unfold truthy. rewrite Z.land_lor_distr_r.
  destruct (Z.eqb_spec (Z.land r a) 0) as [Ha|Ha];
    destruct (Z.eqb_spec (Z.land r b) 0) as [Hb|Hb]; simpl.
  - rewrite Ha, Hb. reflexivity.
  - apply negb_true_iff, Z.eqb_neq. rewrite Z.lor_eq_0_iff. tauto.
  - apply negb_true_iff, Z.eqb_neq. rewrite Z.lor_eq_0_iff. tauto.
  - apply negb_true_iff, Z.eqb_neq. rewrite Z.lor_eq_0_iff. tauto.
Qed.

(** ** Channel::handleEvent dispatches close, error, read, write *)

(** C5. For every ready mask, handleEvent returns after running exactly
    the registered callbacks whose condition holds, in the order close
    (HUP and not IN), error (ERR or NVAL), read (IN, PRI or RDHUP), write
    (OUT); nothing else in the world changes. *)
Theorem Channel_handleEvent_dispatch (w : World) (c : Z) (ch : Channel.t) (receiveTime : Z) :
  channels w !! c = Some ch ->
  Channel_handleEvent c receiveTime w
  = Done tt (log_events (dispatch_of_spec ch receiveTime) w).
Proof.
  intros Hc. unfold Channel_handleEvent, bind at 1.
  unfold channel_at at 1. rewrite Hc.
  unfold bind at 1. rewrite when_call_if_set.
  unfold bind at 1. rewrite (channel_at_log _ _ _ _ Hc).
  unfold bind at 1. rewrite when_call_if_set, log_events_app.
  unfold bind at 1. rewrite (channel_at_log _ _ _ _ Hc).
  unfold bind at 1. rewrite when_call_if_set, log_events_app.
  unfold bind at 1. rewrite (channel_at_log _ _ _ _ Hc).
  rewrite when_call_if_set, log_events_app.
  unfold dispatch_of_spec. rewrite <- !app_assoc.
  rewrite !truthy_land_lor.
  change XPOLLHUP with (2 ^ 4). change XPOLLIN with (2 ^ 0).
  change XPOLLERR with (2 ^ 3). change XPOLLNVAL with (2 ^ 5).
  change XPOLLPRI with (2 ^ 1). change XPOLLRDHUP with (2 ^ 13).
  change XPOLLOUT with (2 ^ 2).
  rewrite !truthy_land_pow2 by lia. reflexivity.
Qed.

(** ** The poller keeps its registration invariant *)

Lemma assertInLoopThread_ok w :
  in_loop_thread w -> EventLoop_assertInLoopThread w = Done tt w.
Proof.
  unfold in_loop_thread, EventLoop_assertInLoopThread, EventLoop_isInLoopThread, bind, gets.
  intros ->. rewrite Z.eqb_refl. reflexivity.
Qed.

Lemma assertInLoopThread_abort w :
  ~ in_loop_thread w -> EventLoop_assertInLoopThread w = Abort w.
Proof.
  unfold in_loop_thread, EventLoop_assertInLoopThread, EventLoop_isInLoopThread, bind, gets.
  intros H. destruct (Z.eqb_spec (EventLoop.m_threadId (loop w)) (current_thread w)); easy.
Qed.

(** Two steps that open most runs of a method: the thread assertion in
    the loop thread, and the dereference of a live channel. *)
Ltac run_assert Ht :=
  unfold bind at 1; rewrite (assertInLoopThread_ok _ Ht).

Ltac run_channel_at Hc :=
  unfold bind at 1; unfold channel_at at 1; rewrite Hc.

Lemma Channel_set_index_ok c idx w ch :
  channels w !! c = Some ch ->
  Channel_set_index c idx w
  = Done tt (set_channels (<[c := Channel.set_index ch idx]> (channels w)) w).
Proof.
  intros H. unfold Channel_set_index, bind, channel_at, store_channel, modify.
  now rewrite H.
Qed.

Lemma SelectPoller_update_ADD c w ch :
  channels w !! c = Some ch ->
  SelectPoller_update XEPOLL_CTL_ADD c w
  = Done true (set_m_events (SelectPoller.m_events (poller w)
                             ++ [SelectPoller.mk_event (Channel.m_events ch) c]) w).
Proof.
  intros H. unfold SelectPoller_update, bind, channel_at, gets. now rewrite H.
Qed.

Lemma SelectPoller_update_DEL c w ch :
  channels w !! c = Some ch ->
  SelectPoller_update XEPOLL_CTL_DEL c w
  = match erase_first c (SelectPoller.m_events (poller w)) with
    | Some evs => Done true (set_m_events evs w)
    | None => Done false w
    end.
Proof.
  intros H. unfold SelectPoller_update, bind, channel_at, gets. rewrite H. simpl.
  now destruct (erase_first _ _).
Qed.

Lemma SelectPoller_update_MOD c w ch :
  channels w !! c = Some ch ->
  SelectPoller_update XEPOLL_CTL_MOD c w
  = match modify_first c (Channel.m_events ch) (SelectPoller.m_events (poller w)) with
    | Some evs => Done true (set_m_events evs w)
    | None => Done false w
    end.
Proof.
  intros H. unfold SelectPoller_update, bind, channel_at, gets. rewrite H. simpl.
  now destruct (modify_first _ _ _).
Qed.

Lemma registered_ok_spec w fd p :
  registered_ok w fd p = true <->
  exists ch, channels w !! p = Some ch /\ Channel.m_fd ch = fd
             /\ (Channel.m_index ch = SelectPoller.kAdded
                 \/ Channel.m_index ch = SelectPoller.kDeleted).
Proof.
  unfold registered_ok. split.
  - destruct (channels w !! p) as [ch|]; [|discriminate].
    intros H. apply andb_true_iff in H as [H1 H2]. apply orb_true_iff in H2.
    exists ch. split; [reflexivity|]. split; [now apply Z.eqb_eq|].
    destruct H2 as [H2|H2]; apply Z.eqb_eq in H2; tauto.
  - intros (ch & -> & Hfd & Hi). apply andb_true_iff. split; [now apply Z.eqb_eq|].
    apply orb_true_iff. destruct Hi as [Hi|Hi]; rewrite Hi; auto.
Qed.

Lemma poller_inv_same w w' :
  channels w' = channels w ->
  SelectPoller.m_channels (poller w') = SelectPoller.m_channels (poller w) ->
  poller_inv w -> poller_inv w'.
Proof.
  unfold poller_inv, registered_ok. intros -> ->. auto.
Qed.

(** Setting the index of a channel to Added or Deleted while its fd maps
    to it keeps the invariant. *)
Lemma poller_inv_register w w' c ch idx :
  poller_inv w ->
  channels w !! c = Some ch ->
  idx = SelectPoller.kAdded \/ idx = SelectPoller.kDeleted ->
  channels w' = <[c := Channel.set_index ch idx]> (channels w) ->
  SelectPoller.m_channels (poller w')
  = <[Channel.m_fd ch := c]> (SelectPoller.m_channels (poller w)) ->
  poller_inv w'.
Proof.
  intros Hinv Hc Hidx Hh Hm. unfold poller_inv. rewrite Hm.
  intros fd p Hl. apply registered_ok_spec. rewrite Hh.
  destruct (decide (Channel.m_fd ch = fd)) as [<-|Hne].
  - rewrite lookup_insert_eq in Hl. injection Hl as <-.
    rewrite lookup_insert_eq. eexists. split; [reflexivity|]. simpl. tauto.
  - rewrite lookup_insert_ne in Hl by exact Hne.
    apply Hinv in Hl. apply registered_ok_spec in Hl as (ch' & Hp & Hfd & Hi).
    assert (c <> p) by (intros ->; congruence).
    rewrite lookup_insert_ne by assumption. eauto.
Qed.

(** Erasing the fd of a channel keeps the invariant, whatever index the
    channel then gets. *)
Lemma poller_inv_unregister w w' c ch idx :
  poller_inv w ->
  channels w !! c = Some ch ->
  channels w' = <[c := Channel.set_index ch idx]> (channels w) ->
  SelectPoller.m_channels (poller w')
  = delete (Channel.m_fd ch) (SelectPoller.m_channels (poller w)) ->
  poller_inv w'.
Proof.
  intros Hinv Hc Hh Hm. unfold poller_inv. rewrite Hm.
  intros fd p Hl. apply registered_ok_spec. rewrite Hh.
  destruct (decide (Channel.m_fd ch = fd)) as [<-|Hne].
  - rewrite lookup_delete_eq in Hl. discriminate.
  - rewrite lookup_delete_ne in Hl by exact Hne.
    apply Hinv in Hl. apply registered_ok_spec in Hl as (ch' & Hp & Hfd & Hi).
    assert (c <> p) by (intros ->; congruence).
    rewrite lookup_insert_ne by assumption. eauto.
Qed.

(** What updateChannel does to a fresh channel whose fd is free. *)
Lemma SelectPoller_updateChannel_new w c ch :
  in_loop_thread w ->
  channels w !! c = Some ch ->
  Channel.m_index ch = SelectPoller.kNew ->
  SelectPoller.m_channels (poller w) !! Channel.m_fd ch = None ->
  exists w',
    SelectPoller_updateChannel c w = Done true w'
    /\ channels w' = <[c := Channel.set_index ch SelectPoller.kAdded]> (channels w)
    /\ SelectPoller.m_channels (poller w')
       = <[Channel.m_fd ch := c]> (SelectPoller.m_channels (poller w))
    /\ same_outside_poller w w'.
Proof.
  intros Ht Hc Hi Hm.
  unfold SelectPoller_updateChannel, SelectPoller_assertInLoopThread.
  run_assert Ht.
  run_channel_at Hc.
  unfold bind at 1. unfold gets at 1.
  rewrite Hi, Hm. simpl.
  unfold bind at 1. unfold modify at 1.
  unfold bind at 1. erewrite Channel_set_index_ok by (simpl; exact Hc).
  erewrite SelectPoller_update_ADD by (simpl; apply lookup_insert_eq).
  eexists. split; [reflexivity|]. split; [reflexivity|]. split; [reflexivity|].
  repeat split.
Qed.

Lemma SelectPoller_updateChannel_cases w c ch :
  in_loop_thread w ->
  channels w !! c = Some ch ->
  exists ok w',
    SelectPoller_updateChannel c w = Done ok w'
    /\ same_outside_poller w w'
    /\ ((channels w' = channels w
         /\ SelectPoller.m_channels (poller w') = SelectPoller.m_channels (poller w))
        \/ (ok = true
            /\ exists idx,
                 (idx = SelectPoller.kAdded
                  \/ (idx = SelectPoller.kDeleted
                      /\ Channel.m_index ch = SelectPoller.kAdded
                      /\ Channel.isNoneEvent ch = true))
                 /\ channels w' = <[c := Channel.set_index ch idx]> (channels w)
                 /\ SelectPoller.m_channels (poller w')
                    = <[Channel.m_fd ch := c]> (SelectPoller.m_channels (poller w)))).
Proof.
  intros Ht Hc.
  unfold SelectPoller_updateChannel, SelectPoller_assertInLoopThread.
  run_assert Ht.
  run_channel_at Hc.
  unfold bind at 1. unfold gets at 1.
  destruct ((Channel.m_index ch =? SelectPoller.kNew)
            || (Channel.m_index ch =? SelectPoller.kDeleted)) eqn:Hnd.
  - destruct (Channel.m_index ch =? SelectPoller.kNew) eqn:Hn.
    + destruct (SelectPoller.m_channels (poller w) !! Channel.m_fd ch) eqn:Hm.
      * exists false, w. split; [reflexivity|]. split; [repeat split|]. left. tauto.
      * apply Z.eqb_eq in Hn.
        destruct (SelectPoller_updateChannel_new w c ch Ht Hc Hn Hm)
          as (w' & E & Hh & Hm' & Hsame).
        unfold SelectPoller_updateChannel, SelectPoller_assertInLoopThread in E.
        unfold bind at 1 in E. rewrite (assertInLoopThread_ok _ Ht) in E.
        unfold bind at 1 in E. unfold channel_at at 1 in E. rewrite Hc in E.
        unfold bind at 1 in E. unfold gets at 1 in E.
        rewrite Hn, Hm in E. simpl in E.
        exists true, w'. split; [exact E|]. split; [exact Hsame|].
        right. split; [reflexivity|].
        exists SelectPoller.kAdded. tauto.
    + destruct (SelectPoller.m_channels (poller w) !! Channel.m_fd ch) as [p|] eqn:Hm.
      2:{ exists false, w. split; [reflexivity|]. split; [repeat split|]. left. tauto. }
      destruct (Z.eqb_spec p c) as [->|Hne]; simpl.
      2:{ exists false, w. split; [reflexivity|]. split; [repeat split|]. left. tauto. }
      unfold bind at 1. erewrite Channel_set_index_ok by exact Hc.
      erewrite SelectPoller_update_ADD by (simpl; apply lookup_insert_eq).
      eexists _, _. split; [reflexivity|]. split; [repeat split|].
      right. split; [reflexivity|].
      exists SelectPoller.kAdded. split; [tauto|]. split; [reflexivity|].
      simpl. symmetry. now apply insert_id.
  - destruct (SelectPoller.m_channels (poller w) !! Channel.m_fd ch) as [p|] eqn:Hm.
    2:{ exists false, w. split; [reflexivity|]. split; [repeat split|]. left. tauto. }
    destruct (Z.eqb_spec p c) as [->|Hne]; simpl.
    2:{ exists false, w. split; [reflexivity|]. split; [repeat split|]. left. tauto. }
    destruct (Z.eqb_spec (Channel.m_index ch) SelectPoller.kAdded) as [Hi|Hi]; simpl.
    2:{ exists false, w. split; [reflexivity|]. split; [repeat split|]. left. tauto. }
    destruct (Channel.isNoneEvent ch) eqn:Hnone.
    + unfold bind at 1. rewrite (SelectPoller_update_DEL _ _ _ Hc).
      destruct (erase_first c (SelectPoller.m_events (poller w))) as [evs|].
      * unfold bind at 1. erewrite Channel_set_index_ok by (simpl; exact Hc).
        eexists _, _. split; [reflexivity|]. split; [repeat split|].
      right. split; [reflexivity|].
        exists SelectPoller.kDeleted. split; [tauto|]. split; [reflexivity|].
        simpl. symmetry. now apply insert_id.
      * exists false, w. split; [reflexivity|]. split; [repeat split|]. left. tauto.
    + rewrite (SelectPoller_update_MOD _ _ _ Hc).
      destruct (modify_first _ _ _).
      * eexists _, _. split; [reflexivity|]. split; [repeat split|].
        left. split; reflexivity.
      * exists false, w. split; [reflexivity|]. split; [repeat split|]. left. tauto.
Qed.

(** An Added channel without interest that updateChannel accepts ends up
    Deleted and stays in the map. *)
Lemma SelectPoller_updateChannel_delete w c ch w' :
  in_loop_thread w ->
  channels w !! c = Some ch ->
  Channel.m_index ch = SelectPoller.kAdded ->
  Channel.isNoneEvent ch = true ->
  SelectPoller_updateChannel c w = Done true w' ->
  channels w' = <[c := Channel.set_index ch SelectPoller.kDeleted]> (channels w)
  /\ SelectPoller.m_channels (poller w') = SelectPoller.m_channels (poller w)
  /\ SelectPoller.m_channels (poller w) !! Channel.m_fd ch = Some c.
Proof.
  intros Ht Hc Hi Hnone.
  unfold SelectPoller_updateChannel, SelectPoller_assertInLoopThread.
  run_assert Ht.
  run_channel_at Hc.
  unfold bind at 1. unfold gets at 1.
  rewrite Hi, Hnone. simpl.
  destruct (SelectPoller.m_channels (poller w) !! Channel.m_fd ch) as [p|] eqn:Hm;
    [|discriminate].
  destruct (Z.eqb_spec p c) as [->|Hne]; simpl; [|discriminate].
  unfold bind at 1. rewrite (SelectPoller_update_DEL _ _ _ Hc).
  destruct (erase_first c (SelectPoller.m_events (poller w))) as [evs|]; [|discriminate].
  unfold bind at 1. erewrite Channel_set_index_ok by (simpl; exact Hc).
  unfold ret. intros E. injection E as <-. simpl. tauto.
Qed.

Lemma SelectPoller_removeChannel_cases w c ch :
  in_loop_thread w ->
  channels w !! c = Some ch ->
  exists w',
    SelectPoller_removeChannel c w = Done tt w'
    /\ ((w' = w
         /\ ~ (SelectPoller.m_channels (poller w) !! Channel.m_fd ch = Some c
               /\ Channel.isNoneEvent ch = true))
        \/ (SelectPoller.m_channels (poller w) !! Channel.m_fd ch = Some c
            /\ Channel.isNoneEvent ch = true
            /\ channels w' = <[c := Channel.set_index ch SelectPoller.kNew]> (channels w)
            /\ SelectPoller.m_channels (poller w')
               = delete (Channel.m_fd ch) (SelectPoller.m_channels (poller w)))).
Proof.
  intros Ht Hc.
  unfold SelectPoller_removeChannel, SelectPoller_assertInLoopThread.
  run_assert Ht.
  run_channel_at Hc.
  unfold bind at 1. unfold gets at 1.
  destruct (SelectPoller.m_channels (poller w) !! Channel.m_fd ch) as [p|] eqn:Hm.
  2:{ exists w. split; [reflexivity|]. left. split; [reflexivity|]. now intros [? _]. }
  destruct (Z.eqb_spec p c) as [->|Hne]; simpl.
  2:{ exists w. split; [reflexivity|]. left. split; [reflexivity|].
      intros [E _]. congruence. }
  destruct (Channel.isNoneEvent ch) eqn:Hnone; simpl.
  2:{ exists w. split; [reflexivity|]. left. split; [reflexivity|]. now intros [_ ?]. }
  unfold bind at 1. unfold modify at 1.
  erewrite Channel_set_index_ok by (simpl; exact Hc).
  eexists. split; [reflexivity|]. right. simpl. tauto.
Qed.

Lemma index_of_insert w w' c ch idx :
  channels w' = <[c := Channel.set_index ch idx]> (channels w) ->
  index_of w' c = idx.
Proof. intros H. unfold index_of. rewrite H, lookup_insert_eq. reflexivity. Qed.

(** C7. In the loop thread, updateChannel and removeChannel on a live
    channel return and keep the registration invariant (every fd of the
    map leads to the channel with that fd, whose index is Added or
    Deleted); updateChannel on a New channel with a free fd succeeds,
    maps the fd to the channel and sets index Added; a successful
    updateChannel on an Added channel without interest sets index Deleted
    and keeps the map entry; removeChannel of a registered channel
    without interest erases the entry and sets index New. *)
Theorem SelectPoller_registration_invariant (w : World) (c : Z) (ch : Channel.t) :
  poller_inv w ->
  in_loop_thread w ->
  channels w !! c = Some ch ->
  (exists ok w',
     SelectPoller_updateChannel c w = Done ok w'
     /\ poller_inv w'
     /\ (Channel.m_index ch = SelectPoller.kNew ->
         SelectPoller.m_channels (poller w) !! Channel.m_fd ch = None ->
         ok = true
         /\ SelectPoller.m_channels (poller w') !! Channel.m_fd ch = Some c
         /\ index_of w' c = SelectPoller.kAdded)
     /\ (Channel.m_index ch = SelectPoller.kAdded ->
         Channel.isNoneEvent ch = true ->
         ok = true ->
         index_of w' c = SelectPoller.kDeleted
         /\ SelectPoller.m_channels (poller w') !! Channel.m_fd ch = Some c))
  /\ (exists w',
        SelectPoller_removeChannel c w = Done tt w'
        /\ poller_inv w'
        /\ (SelectPoller.m_channels (poller w) !! Channel.m_fd ch = Some c ->
            Channel.isNoneEvent ch = true ->
            SelectPoller.m_channels (poller w') !! Channel.m_fd ch = None
            /\ index_of w' c = SelectPoller.kNew)).
Proof.
  intros Hinv Ht Hc. split.
  - destruct (SelectPoller_updateChannel_cases w c ch Ht Hc) as (ok & w' & E & _ & Hcase).
    exists ok, w'. split; [exact E|]. split; [|split].
    + destruct Hcase as [[Hh Hm]|(_ & idx & Hidx & Hh & Hm)].
      * now apply (poller_inv_same w).
      * apply (poller_inv_register w w' c ch idx); try assumption. tauto.
    + intros Hi Hfree.
      destruct (SelectPoller_updateChannel_new w c ch Ht Hc Hi Hfree)
        as (w2 & E2 & Hh & Hm & _).
      rewrite E in E2. injection E2 as -> ->.
      split; [reflexivity|]. split.
      * rewrite Hm. apply lookup_insert_eq.
      * now apply (index_of_insert w _ c ch).
    + intros Hi Hnone ->.
      destruct (SelectPoller_updateChannel_delete w c ch w' Ht Hc Hi Hnone E)
        as (Hh & Hm & Hl).
      split.
      * now apply (index_of_insert w _ c ch).
      * now rewrite Hm.
  - destruct (SelectPoller_removeChannel_cases w c ch Ht Hc) as (w' & E & Hcase).
    exists w'. split; [exact E|]. split.
    + destruct Hcase as [[-> _]|(Hl & Hnone & Hh & Hm)]; [assumption|].
      now apply (poller_inv_unregister w w' c ch SelectPoller.kNew).
    + intros Hl Hnone.
      destruct Hcase as [[_ Hno]|(_ & _ & Hh & Hm)]; [tauto|].
      split.
      * rewrite Hm. apply lookup_delete_eq.
      * now apply (index_of_insert w _ c ch).
Qed.

(** ** Programming errors *)

(** C6 (as the code has it).  A call from a thread other than the loop's
    makes assertInLoopThread abort, and with it updateChannel and
    removeChannel; updateChannel on a New channel whose fd is already in
    the map returns false and changes nothing; Channel::remove on a
    channel that still has interest returns and changes nothing. *)
Theorem programming_errors (w : World) (c : Z) (ch : Channel.t) :
  channels w !! c = Some ch ->
  (~ in_loop_thread w ->
   EventLoop_assertInLoopThread w = Abort w
   /\ SelectPoller_updateChannel c w = Abort w
   /\ SelectPoller_removeChannel c w = Abort w)
  /\ (in_loop_thread w ->
      Channel.m_index ch = SelectPoller.kNew ->
      is_Some (SelectPoller.m_channels (poller w) !! Channel.m_fd ch) ->
      SelectPoller_updateChannel c w = Done false w)
  /\ (Channel.isNoneEvent ch = false -> Channel_remove c w = Done tt w).
Proof.
  intros Hc. split; [|split].
  - intros Hn. split; [now apply assertInLoopThread_abort|]. split.
    + unfold SelectPoller_updateChannel, SelectPoller_assertInLoopThread.
      unfold bind at 1. now rewrite (assertInLoopThread_abort _ Hn).
    + unfold SelectPoller_removeChannel, SelectPoller_assertInLoopThread.
      unfold bind at 1. now rewrite (assertInLoopThread_abort _ Hn).
  - intros Ht Hi [p Hm].
    unfold SelectPoller_updateChannel, SelectPoller_assertInLoopThread.
    run_assert Ht.
    run_channel_at Hc.
    unfold bind at 1. unfold gets at 1.
    rewrite Hi, Hm. reflexivity.
  - intros Hnone. unfold Channel_remove, bind, channel_at. now rewrite Hc, Hnone.
Qed.

(** ** Timer::run and the walk of doTimer *)

Lemma set_timers_id w : set_timers (timers w) w = w.
Proof. now destruct w. Qed.

Lemma Timer_run_spec p w tm :
  timers w !! p = Some tm ->
  Timer_run p w
  = Done tt (log_events (fire_event (timers w) (0, p))
               (set_timers (<[p := Timer_after_run tm]> (timers w)) w)).
Proof.
  intros H. unfold Timer_run, fire_event, Timer_after_run. simpl.
  unfold bind at 1. unfold timer_at at 1. rewrite H.
  destruct (Timer.m_canceled tm).
  { unfold ret. rewrite log_events_nil, insert_id by exact H.
    now rewrite set_timers_id. }
  unfold bind at 1. unfold emit, modify at 1.
  destruct (Timer.m_repeatCount tm =? -1); simpl.
  { reflexivity. }
  unfold bind at 1. unfold store_timer at 1, modify at 1.
  destruct (wrap64 (Timer.m_repeatCount tm - 1) =? 0).
  { reflexivity. }
  unfold store_timer, modify. simpl. now rewrite insert_insert_eq.
Qed.

(** Entries that do not hold the timer at [p] do not see a change of the
    heap at [p]. *)
Section Frame.
Variables (now : Z) (h : gmap Z Timer.t) (p : Z) (x : Timer.t).

Lemma due_prefix_frame r :
  ~ In p (map snd r) ->
  due_prefix now (<[p := x]> h) r = due_prefix now h r.
Proof.
  induction r as [|e r IH]; simpl; [reflexivity|]. intros Hn.
  apply not_in_cons in Hn as [Hne Hn].
  unfold expired. rewrite lookup_insert_ne by exact Hne.
  rewrite IH by exact Hn. reflexivity.
Qed.

Lemma fired_due_frame r :
  ~ In p (map snd r) ->
  fired_events (<[p := x]> h) (due_prefix now (<[p := x]> h) r)
  = fired_events h (due_prefix now h r).
Proof.
  induction r as [|e r IH]; simpl; [reflexivity|]. intros Hn.
  apply not_in_cons in Hn as [Hne Hn].
  unfold expired. rewrite lookup_insert_ne by exact Hne.
  destruct (h !! snd e) as [tm|] eqn:Htm; [|reflexivity].
  destruct (Timer.m_expiration tm <=? now); [|reflexivity].
  simpl. f_equal.
  - unfold fire_event. now rewrite lookup_insert_ne by exact Hne.
  - apply IH. exact Hn.
Qed.

Lemma kept_frame r :
  ~ In p (map snd r) ->
  kept now (<[p := x]> h) r = kept now h r.
Proof.
  induction r as [|e r IH]; simpl; [reflexivity|]. intros Hn.
  apply not_in_cons in Hn as [Hne Hn].
  rewrite lookup_insert_ne by exact Hne. rewrite IH by exact Hn. reflexivity.
Qed.

Lemma run_due_frame r :
  ~ In p (map snd r) ->
  run_due now (<[p := x]> h) r = <[p := x]> (run_due now h r).
Proof.
  induction r as [|e r IH]; simpl; [reflexivity|]. intros Hn.
  apply not_in_cons in Hn as [Hne Hn].
  rewrite lookup_insert_ne by exact Hne.
  destruct (h !! snd e) as [tm|]; [|reflexivity].
  destruct (Timer.m_expiration tm <=? now); [|reflexivity].
  rewrite IH by exact Hn. apply insert_insert_ne. congruence.
Qed.
End Frame.

(** The loop of doTimer returns; it runs the timers of the visited
    prefix and nothing else. *)
Lemma doTimer_from_spec now es :
  forall w,
    NoDup (map snd es) ->
    Forall (fun e => is_Some (timers w !! snd e)) es ->
    doTimer_from now es w
    = Done (kept now (timers w) es)
           (log_events (fired_events (timers w) (due_prefix now (timers w) es))
              (set_timers (run_due now (timers w) es) w)).
Proof.
  induction es as [|e r IH]; intros w Hnd Hlive.
  - simpl. unfold ret. now rewrite set_timers_id, log_events_nil.
  - simpl in Hnd. apply NoDup_cons in Hnd as [Hp Hnd].
    rewrite list_elem_of_In in Hp.
    apply Forall_cons in Hlive as [[tm Htm] Hlive].
    simpl. unfold expired. rewrite Htm.
    unfold bind at 1. unfold timer_at at 1. rewrite Htm.
    destruct (Timer.m_expiration tm <=? now); [|
      unfold ret; simpl; now rewrite set_timers_id, log_events_nil].
    unfold bind at 1. rewrite (Timer_run_spec _ _ _ Htm).
    set (h1 := <[snd e := Timer_after_run tm]> (timers w)).
    set (w1 := log_events _ (set_timers h1 w)).
    assert (Hl1 : timers w1 !! snd e = Some (Timer_after_run tm))
      by (apply lookup_insert_eq).
    unfold bind at 1. unfold timer_at at 1. rewrite Hl1.
    assert (Hlive1 : Forall (fun e0 => is_Some (timers w1 !! snd e0)) r).
    { eapply Forall_impl; [exact Hlive|]. simpl. intros e0 He0. unfold h1.
      destruct (decide (snd e = snd e0)) as [->|Hne].
      - rewrite lookup_insert_eq. eauto.
      - now rewrite lookup_insert_ne. }
    specialize (IH w1 Hnd Hlive1).
    assert (Ew : log_events (fired_events (timers w1) (due_prefix now (timers w1) r))
                   (set_timers (run_due now (timers w1) r) w1)
                 = log_events (fire_event (timers w) e
                               ++ fired_events (timers w) (due_prefix now (timers w) r))
                     (set_timers (<[snd e := Timer_after_run tm]>
                                    (run_due now (timers w) r)) w)).
    { change (timers w1) with h1. unfold h1.
      rewrite fired_due_frame, run_due_frame by exact Hp.
      unfold w1, log_events, set_timers. simpl. now rewrite app_assoc. }
    assert (Ek : kept now (timers w1) r = kept now (timers w) r).
    { change (timers w1) with h1. unfold h1. now apply kept_frame. }
    destruct (Timer.m_repeatCount (Timer_after_run tm) =? 0).
    + rewrite IH, Ew, Ek. reflexivity.
    + unfold bind. rewrite IH, Ew, Ek. reflexivity.
Qed.

Lemma in_loop_thread_same w w' :
  current_thread w' = current_thread w ->
  EventLoop.m_threadId (loop w') = EventLoop.m_threadId (loop w) ->
  in_loop_thread w -> in_loop_thread w'.
Proof. unfold in_loop_thread. congruence. Qed.

(** doTimer returns; it leaves the kept entries in the set, the heap
    after the runs, and the fired callbacks in the trace. *)
Lemma TimerQueue_doTimer_spec now w :
  in_loop_thread w ->
  NoDup (map snd (timer_queue w)) ->
  timers_live w ->
  exists w',
    TimerQueue_doTimer now w = Done tt w'
    /\ timer_queue w' = kept now (timers w) (timer_queue w)
    /\ timers w' = run_due now (timers w) (timer_queue w)
    /\ trace w' = trace w
                  ++ fired_events (timers w) (due_prefix now (timers w) (timer_queue w)).
Proof.
  intros Ht Hnd Hlive. unfold TimerQueue_doTimer.
  run_assert Ht.
  unfold bind at 1. unfold gets at 1.
  unfold bind at 1. rewrite (doTimer_from_spec now _ w Hnd Hlive).
  unfold modify. eexists. split; [reflexivity|]. simpl. tauto.
Qed.

Lemma due_prefix_In now h es e : In e (due_prefix now h es) -> In e es.
Proof.
  induction es as [|x r IH]; simpl; [tauto|].
  destruct (expired now h x); simpl; tauto.
Qed.

Lemma due_prefix_expired now h es e :
  In e (due_prefix now h es) -> expired now h e = true.
Proof.
  induction es as [|x r IH]; simpl; [tauto|].
  destruct (expired now h x) eqn:Hx; simpl; [|tauto].
  intros [<-|H]; auto.
Qed.

Lemma after_due_In now h es e : In e (after_due now h es) -> In e es.
Proof.
  induction es as [|x r IH]; [simpl; tauto|].
  cbn [after_due]. destruct (expired now h x); [|tauto].
  intros H. right. auto.
Qed.

Lemma NoDup_map_snd_cons (x : Z * Z) r :
  NoDup (map snd (x :: r)) -> ~ In (snd x) (map snd r) /\ NoDup (map snd r).
Proof.
  simpl. intros H. apply NoDup_cons in H as [H1 H2].
  now rewrite list_elem_of_In in H1.
Qed.

(** What the heap holds after the pass for a visited entry. *)
Lemma run_due_visited now h es e tm :
  NoDup (map snd es) ->
  In e (due_prefix now h es) ->
  h !! snd e = Some tm ->
  run_due now h es !! snd e = Some (Timer_after_run tm).
Proof.
  induction es as [|x r IH]; simpl; [tauto|]. intros Hnd Hin Hl.
  apply NoDup_map_snd_cons in Hnd as [Hx Hnd].
  unfold expired in Hin.
  destruct (h !! snd x) as [tx|] eqn:Htx; [|simpl in Hin; tauto].
  destruct (Timer.m_expiration tx <=? now); [|simpl in Hin; tauto].
  destruct Hin as [<-|Hin].
  - rewrite lookup_insert_eq. congruence.
  - assert (snd x <> snd e).
    { intros E. apply Hx. rewrite E. apply in_map. eapply due_prefix_In; eauto. }
    rewrite lookup_insert_ne by assumption. auto.
Qed.

(** ... and for every other address. *)
Lemma run_due_other now h es p :
  ~ In p (map snd (due_prefix now h es)) ->
  run_due now h es !! p = h !! p.
Proof.
  induction es as [|x r IH]; simpl; [reflexivity|]. unfold expired.
  destruct (h !! snd x) as [tx|] eqn:Htx; [|reflexivity].
  destruct (Timer.m_expiration tx <=? now); [|reflexivity].
  simpl. intros Hn. rewrite lookup_insert_ne by tauto. apply IH. tauto.
Qed.

Lemma after_due_not_visited now h es e :
  NoDup (map snd es) ->
  In e (after_due now h es) ->
  ~ In (snd e) (map snd (due_prefix now h es)).
Proof.
  induction es as [|x r IH]; [simpl; tauto|]. intros Hnd.
  apply NoDup_map_snd_cons in Hnd as [Hx Hnd].
  cbn [after_due due_prefix]. destruct (expired now h x); [|simpl; tauto].
  intros Hin. simpl. intros [E|Hd].
  - apply Hx. rewrite E. apply in_map. eapply after_due_In; eauto.
  - now apply (IH Hnd Hin).
Qed.

Lemma kept_after now h es e :
  Forall (fun e => is_Some (h !! snd e)) es ->
  In e (after_due now h es) -> In e (kept now h es).
Proof.
  induction es as [|x r IH]; [simpl; tauto|]. intros Hlive.
  apply Forall_cons in Hlive as [[tx Htx] Hlive].
  cbn [after_due kept]. unfold expired. rewrite Htx.
  destruct (Timer.m_expiration tx <=? now); [|tauto].
  intros Hin. destruct (Timer.m_repeatCount (Timer_after_run tx) =? 0); simpl; auto.
Qed.

Lemma kept_In now h es e : In e (kept now h es) -> In e es.
Proof.
  induction es as [|x r IH]; [simpl; tauto|]. cbn [kept].
  destruct (h !! snd x) as [tx|]; [|tauto].
  destruct (Timer.m_expiration tx <=? now); [|tauto].
  destruct (Timer.m_repeatCount (Timer_after_run tx) =? 0); simpl; tauto.
Qed.

(** A visited entry stays in the set exactly when the run leaves its
    timer a repeat count other than 0. *)
Lemma kept_visited now h es e tm :
  NoDup (map snd es) ->
  In e (due_prefix now h es) ->
  h !! snd e = Some tm ->
  In e (kept now h es) <-> Timer.m_repeatCount (Timer_after_run tm) <> 0.
Proof.
  induction es as [|x r IH]; [simpl; tauto|]. intros Hnd Hin Hl.
  apply NoDup_map_snd_cons in Hnd as [Hx Hnd].
  cbn [due_prefix kept] in *. unfold expired in Hin.
  destruct (h !! snd x) as [tx|] eqn:Htx; [|simpl in Hin; tauto].
  destruct (Timer.m_expiration tx <=? now); [|simpl in Hin; tauto].
  destruct Hin as [<-|Hin].
  - assert (tx = tm) by congruence. subst tx.
    destruct (Z.eqb_spec (Timer.m_repeatCount (Timer_after_run tm)) 0) as [E|E].
    + split; [|tauto]. intros Hk. exfalso. apply Hx. apply in_map.
      eapply kept_In; eauto.
    + split; [tauto|]. intros _. now left.
  - assert (x <> e).
    { intros ->. apply Hx. apply in_map. eapply due_prefix_In; eauto. }
    rewrite <- (IH Hnd Hin Hl).
    destruct (Timer.m_repeatCount (Timer_after_run tx) =? 0); simpl; tauto.
Qed.

(** In a sorted set whose keys are current, every expired entry is in the
    visited prefix. *)
Lemma due_prefix_complete now h es e :
  StronglySorted TimerQueue.entry_lt es ->
  Forall (fun e => exists tm, h !! snd e = Some tm /\ Timer.m_expiration tm = fst e) es ->
  In e es ->
  expired now h e = true ->
  In e (due_prefix now h es).
Proof.
  induction es as [|x r IH]; [simpl; tauto|]. intros Hs Hk Hin He.
  apply StronglySorted_inv in Hs as [Hs Hx].
  apply Forall_cons in Hk as [(tx & Htx & Hkx) Hk].
  cbn [due_prefix]. destruct (expired now h x) eqn:Hex.
  - destruct Hin as [<-|Hin]; [now left|]. right. auto.
  - destruct Hin as [<-|Hin]; [congruence|]. exfalso.
    rewrite List.Forall_forall in Hx, Hk.
    destruct (Hk e Hin) as (te & Hte & Hke).
    specialize (Hx e Hin). unfold expired in He, Hex.
    rewrite Hte in He. rewrite Htx in Hex.
    apply Z.leb_le in He. apply Z.leb_gt in Hex.
    unfold TimerQueue.entry_lt in Hx. lia.
Qed.

Lemma Timer_after_run_canceled tm :
  Timer.m_canceled tm = true -> Timer_after_run tm = tm.
Proof. unfold Timer_after_run. now intros ->. Qed.

Lemma Timer_after_run_count tm :
  Timer.m_canceled tm = false ->
  Timer.m_repeatCount (Timer_after_run tm) = count_after_firing tm.
Proof.
  unfold Timer_after_run, count_after_firing. intros ->.
  destruct (Z.eqb_spec (Timer.m_repeatCount tm) (-1)) as [E|E]; [now simpl|].
  now destruct (wrap64 (Timer.m_repeatCount tm - 1) =? 0).
Qed.

Lemma Timer_after_run_expiration tm :
  Timer.m_canceled tm = false ->
  count_after_firing tm <> 0 ->
  Timer.m_expiration (Timer_after_run tm)
  = Timestamp_add (Timer.m_expiration tm) (Timer.m_interval tm).
Proof.
  unfold Timer_after_run, count_after_firing. intros ->.
  destruct (Timer.m_repeatCount tm =? -1); [reflexivity|].
  destruct (Z.eqb_spec (wrap64 (Timer.m_repeatCount tm - 1)) 0); [tauto|reflexivity].
Qed.

(** C1 (as the code has it).  In the loop thread, on a set with one entry
    per live timer, doTimer returns.  It visits the entries in set order
    up to the first whose timer has not expired, and fires the callbacks
    of the visited timers that are not cancelled, in that order.  A
    cancelled timer is left as it is.  A timer that fires and whose
    repeat count thereby reaches 0 is erased from the set; a repeating
    timer (interval other than 0) that fires with repeats left has its
    expiration advanced by its interval and stays in the set under the
    key it had (it is not re-inserted).  The
    entries behind the visited prefix are untouched.  When the set is
    sorted and every key is the expiration of its timer, the visited
    entries are all the entries whose timer has expired. *)
Theorem TimerQueue_doTimer_walk (w : World) (now : Z) :
  in_loop_thread w ->
  NoDup (map snd (timer_queue w)) ->
  timers_live w ->
  exists w',
    TimerQueue_doTimer now w = Done tt w'
    /\ trace w' = trace w
                  ++ fired_events (timers w) (due_prefix now (timers w) (timer_queue w))
    /\ (forall e tm,
          In e (due_prefix now (timers w) (timer_queue w)) ->
          timers w !! snd e = Some tm ->
          Timer.m_expiration tm <= now
          /\ (Timer.m_canceled tm = true -> timers w' !! snd e = Some tm)
          /\ (Timer.m_canceled tm = false ->
              (count_after_firing tm = 0 -> ~ In e (timer_queue w'))
              /\ (count_after_firing tm <> 0 ->
                  Timer.m_interval tm <> 0 ->
                  In e (timer_queue w')
                  /\ exists tm',
                       timers w' !! snd e = Some tm'
                       /\ Timer.m_expiration tm'
                          = Timestamp_add (Timer.m_expiration tm) (Timer.m_interval tm)
                       /\ Timer.m_repeatCount tm' = count_after_firing tm)))
    /\ (forall e,
          In e (after_due now (timers w) (timer_queue w)) ->
          In e (timer_queue w') /\ timers w' !! snd e = timers w !! snd e)
    /\ (StronglySorted TimerQueue.entry_lt (timer_queue w) ->
        keys_current w ->
        forall e tm,
          In e (timer_queue w) ->
          timers w !! snd e = Some tm ->
          Timer.m_expiration tm <= now ->
          In e (due_prefix now (timers w) (timer_queue w))).
Proof.
  intros Ht Hnd Hlive.
  destruct (TimerQueue_doTimer_spec now w Ht Hnd Hlive) as (w' & E & Hq & Hh & Htr).
  exists w'. split; [exact E|]. split; [exact Htr|]. split; [|split].
  - intros e tm Hin Hl.
    pose proof (run_due_visited now _ _ e tm Hnd Hin Hl) as Hrun.
    pose proof (kept_visited now _ _ e tm Hnd Hin Hl) as Hkept.
    rewrite <- Hh in Hrun. rewrite <- Hq in Hkept.
    split; [|split].
    + apply due_prefix_expired in Hin. unfold expired in Hin. rewrite Hl in Hin.
      now apply Z.leb_le.
    + intros Hc. now rewrite Hrun, Timer_after_run_canceled.
    + intros Hc. rewrite (Timer_after_run_count _ Hc) in Hkept. split.
      * intros H0. rewrite Hkept. tauto.
      * intros Hn0 _. split; [now apply Hkept|].
        exists (Timer_after_run tm). split; [exact Hrun|]. split.
        -- now apply Timer_after_run_expiration.
        -- now apply Timer_after_run_count.
  - intros e Hin. split.
    + rewrite Hq. now apply kept_after.
    + rewrite Hh. apply run_due_other. now apply after_due_not_visited.
  - intros Hs Hk e tm Hin Hl Hexp.
    apply due_prefix_complete; try assumption.
    unfold expired. rewrite Hl. now apply Z.leb_le.
Qed.

(** ** The order of the timer set *)

Lemma entry_ltb_lt a b : TimerQueue.entry_ltb a b = true <-> TimerQueue.entry_lt a b.
Proof.
  unfold TimerQueue.entry_ltb, TimerQueue.entry_lt.
  rewrite orb_true_iff, andb_true_iff, !Z.ltb_lt, Z.eqb_eq. tauto.
Qed.

Lemma entry_lt_trans a b c :
  TimerQueue.entry_lt a b -> TimerQueue.entry_lt b c -> TimerQueue.entry_lt a c.
Proof. unfold TimerQueue.entry_lt. lia. Qed.

Lemma entry_lt_irrefl a : ~ TimerQueue.entry_lt a a.
Proof. unfold TimerQueue.entry_lt. lia. Qed.

Lemma entry_lt_total (a b : TimerQueue.Entry) :
  ~ TimerQueue.entry_lt a b -> ~ TimerQueue.entry_lt b a -> a = b.
Proof.
  destruct a as [a1 a2], b as [b1 b2]. unfold TimerQueue.entry_lt. simpl.
  intros H1 H2. f_equal; lia.
Qed.

Lemma set_insert_In e l x :
  In x (TimerQueue.set_insert e l) <-> x = e \/ In x l.
Proof.
  induction l as [|y r IH]; simpl; [intuition congruence|].
  destruct (TimerQueue.entry_ltb e y) eqn:H1; [simpl; intuition congruence|].
  destruct (TimerQueue.entry_ltb y e) eqn:H2; simpl.
  - rewrite IH. tauto.
  - assert (e = y).
    { apply entry_lt_total; rewrite <- entry_ltb_lt; congruence. }
    subst. intuition congruence.
Qed.

(** std::set keeps its order: insert leaves the sequence sorted by the
    operator< of the pair. *)
Lemma set_insert_sorted e l :
  StronglySorted TimerQueue.entry_lt l ->
  StronglySorted TimerQueue.entry_lt (TimerQueue.set_insert e l).
Proof.
  induction l as [|y r IH]; simpl; intros Hs.
  - repeat constructor.
  - apply StronglySorted_inv in Hs as [Hs Hy].
    destruct (TimerQueue.entry_ltb e y) eqn:H1.
    + apply entry_ltb_lt in H1. constructor; [now constructor|].
      constructor; [exact H1|].
      eapply List.Forall_impl; [|exact Hy]. intros z. now apply entry_lt_trans.
    + destruct (TimerQueue.entry_ltb y e) eqn:H2.
      * apply entry_ltb_lt in H2. constructor; [auto|].
        rewrite List.Forall_forall in *. intros z Hz.
        apply set_insert_In in Hz as [->|Hz]; auto.
      * now constructor.
Qed.

Lemma set_insert_NoDup e l :
  NoDup (map snd l) ->
  ~ In (snd e) (map snd l) ->
  NoDup (map snd (TimerQueue.set_insert e l)).
Proof.
  induction l as [|y r IH]; simpl; intros Hnd Hn.
  - apply NoDup_cons. split; [|constructor]. rewrite list_elem_of_In. simpl. tauto.
  - apply NoDup_cons in Hnd as [Hy Hnd]. rewrite list_elem_of_In in Hy.
    destruct (TimerQueue.entry_ltb e y) eqn:H1.
    + simpl. apply NoDup_cons. split.
      * rewrite list_elem_of_In. simpl. tauto.
      * apply NoDup_cons. rewrite list_elem_of_In. tauto.
    + destruct (TimerQueue.entry_ltb y e) eqn:H2; simpl.
      * apply NoDup_cons. split; [|apply IH; tauto].
        rewrite list_elem_of_In, in_map_iff. intros (z & Ez & Hz).
        apply set_insert_In in Hz as [->|Hz]; [apply Hn; left; congruence|].
        apply Hy. rewrite <- Ez. now apply in_map.
      * apply NoDup_cons. rewrite list_elem_of_In. tauto.
Qed.

(** In a sorted sequence the smaller of two members comes first. *)
Lemma sorted_before (l : list TimerQueue.Entry) a b :
  StronglySorted TimerQueue.entry_lt l ->
  In a l -> In b l -> TimerQueue.entry_lt a b ->
  before a b l.
Proof.
  intros Hs Ha Hb Hab.
  apply in_split in Ha as (l1 & r & ->).
  apply in_app_or in Hb as [Hb|[Hb|Hb]].
  - exfalso.
    assert (TimerQueue.entry_lt b a).
    { eapply (StronglySorted_app_1_elem_of _ l1 (a :: r)); [exact Hs| |].
      - now apply list_elem_of_In.
      - apply list_elem_of_In. now left. }
    apply (entry_lt_irrefl a). eauto using entry_lt_trans.
  - exfalso. rewrite Hb in Hab. now apply entry_lt_irrefl in Hab.
  - apply in_split in Hb as (l2 & l3 & ->). now exists l1, l2, l3.
Qed.

Lemma isInLoopThread_true w :
  in_loop_thread w -> EventLoop_isInLoopThread w = Done true w.
Proof.
  unfold in_loop_thread, EventLoop_isInLoopThread, gets. intros ->.
  now rewrite Z.eqb_refl.
Qed.

Lemma isInLoopThread_false w :
  ~ in_loop_thread w -> EventLoop_isInLoopThread w = Done false w.
Proof.
  unfold in_loop_thread, EventLoop_isInLoopThread, gets. intros H.
  now destruct (Z.eqb_spec (EventLoop.m_threadId (loop w)) (current_thread w)).
Qed.

(** The const-reference overload of addTimer is the other one with the
    repeat count replaced by -1. *)
Lemma TimerQueue_addTimer_drops_repeatCount p cb when_ interval repeatCount :
  TimerQueue_addTimer p cb when_ interval repeatCount
  = TimerQueue_addTimer_move p cb when_ interval (-1).
Proof. reflexivity. Qed.

Lemma TimerQueue_insert_spec p w tm :
  in_loop_thread w ->
  timers w !! p = Some tm ->
  TimerQueue_insert p w
  = Done tt (set_m_timers (TimerQueue.set_insert (Timer.m_expiration tm, p)
                             (timer_queue w)) w).
Proof.
  intros Ht Hl. unfold TimerQueue_insert.
  run_assert Ht.
  unfold bind, timer_at. now rewrite Hl.
Qed.

(** In the loop thread addTimer allocates the timer and inserts it at
    once. *)
Lemma TimerQueue_addTimer_move_spec p cb when_ interval repeatCount w :
  in_loop_thread w ->
  timers w !! p = None ->
  let seq := wrap64 (s_numCreated w + 1) in
  let tm := Timer.mk cb when_ interval repeatCount seq false in
  TimerQueue_addTimer_move p cb when_ interval repeatCount w
  = Done (p, seq)
      (set_m_timers (TimerQueue.set_insert (when_, p) (timer_queue w))
         (set_timers (<[p := tm]> (timers w)) (set_numCreated seq w))).
Proof.
  intros Ht Hfree seq tm. unfold TimerQueue_addTimer_move.
  unfold bind at 1. unfold Timer_new.
  unfold bind at 1. unfold gets at 1. rewrite Hfree.
  unfold bind at 1. unfold gets at 1.
  unfold bind at 1. unfold modify at 1.
  unfold store_timer, modify. simpl. fold seq. fold tm.
  set (w0 := set_timers (<[p := tm]> (timers w)) (set_numCreated seq w)).
  assert (Ht0 : in_loop_thread w0) by exact Ht.
  assert (Hl0 : timers w0 !! p = Some tm) by apply lookup_insert_eq.
  unfold bind at 1. unfold EventLoop_runInLoop.
  unfold bind at 1. rewrite (isInLoopThread_true _ Ht0).
  unfold bind at 1. unfold TimerQueue_addTimerInLoop.
  unfold bind at 1. rewrite (assertInLoopThread_ok _ Ht0).
  rewrite (TimerQueue_insert_spec _ _ _ Ht0 Hl0).
  unfold ret, bind, timer_at. simpl. rewrite lookup_insert_eq. reflexivity.
Qed.

(** Adding a timer at a fresh address keeps the set usable. *)
Lemma queue_ok_add w w1 p tm :
  queue_ok w ->
  timers w !! p = None ->
  timers w1 = <[p := tm]> (timers w) ->
  timer_queue w1 = TimerQueue.set_insert (Timer.m_expiration tm, p) (timer_queue w) ->
  queue_ok w1.
Proof.
  intros (Hnd & Hlive & Hs & Hk) Hfree Hh Hq.
  assert (Hp : ~ In p (map snd (timer_queue w))).
  { intros Hin. apply in_map_iff in Hin as (e & <- & He).
    unfold timers_live in Hlive. rewrite List.Forall_forall in Hlive.
    destruct (Hlive e He) as [x Hx]. congruence. }
  unfold queue_ok, timers_live, keys_current. rewrite Hq, Hh.
  split; [|split; [|split]].
  - now apply set_insert_NoDup.
  - unfold timers_live in Hlive. rewrite List.Forall_forall in *.
    intros e He. apply set_insert_In in He as [->|He]; simpl.
    + rewrite lookup_insert_eq. eauto.
    + destruct (decide (p = snd e)) as [->|Hne].
      * rewrite lookup_insert_eq. eauto.
      * rewrite lookup_insert_ne by exact Hne. auto.
  - now apply set_insert_sorted.
  - unfold keys_current in Hk. rewrite List.Forall_forall in *.
    intros e He. apply set_insert_In in He as [->|He]; simpl.
    + rewrite lookup_insert_eq. eauto.
    + assert (p <> snd e).
      { intros ->. apply Hp. now apply in_map. }
      rewrite lookup_insert_ne by assumption. auto.
Qed.

Lemma due_prefix_sorted now h es :
  StronglySorted TimerQueue.entry_lt es ->
  StronglySorted TimerQueue.entry_lt (due_prefix now h es).
Proof.
  induction es as [|x r IH]; simpl; intros Hs; [constructor|].
  apply StronglySorted_inv in Hs as [Hs Hx].
  destruct (expired now h x); [|constructor].
  constructor; [auto|].
  rewrite List.Forall_forall in *. intros z Hz. apply Hx.
  eapply due_prefix_In; eauto.
Qed.

Lemma fired_events_app h l1 l2 :
  fired_events h (l1 ++ l2) = fired_events h l1 ++ fired_events h l2.
Proof. unfold fired_events. apply flat_map_app. Qed.

Lemma fired_before h l a b x y :
  before a b l ->
  fire_event h a = [x] ->
  fire_event h b = [y] ->
  before x y (fired_events h l).
Proof.
  intros (l1 & l2 & l3 & ->) Ha Hb.
  exists (fired_events h l1), (fired_events h l2), (fired_events h l3).
  rewrite fired_events_app. f_equal.
  change (a :: l2 ++ b :: l3) with ([a] ++ l2 ++ [b] ++ l3).
  rewrite !fired_events_app. unfold fired_events at 1 3. simpl.
  rewrite Ha, Hb, !app_nil_r. reflexivity.
Qed.

(** Two live, expired, not cancelled timers of a usable set fire in the
    order of their entries. *)
Lemma doTimer_fires_in_entry_order w now a b ta tb :
  in_loop_thread w ->
  queue_ok w ->
  In a (timer_queue w) -> In b (timer_queue w) ->
  TimerQueue.entry_lt a b ->
  timers w !! snd a = Some ta -> timers w !! snd b = Some tb ->
  Timer.m_expiration ta <= now -> Timer.m_expiration tb <= now ->
  Timer.m_canceled ta = false -> Timer.m_canceled tb = false ->
  exists w' evs,
    TimerQueue_doTimer now w = Done tt w'
    /\ trace w' = trace w ++ evs
    /\ before (EvTimerCallback (snd a) (Timer.m_callback ta))
              (EvTimerCallback (snd b) (Timer.m_callback tb)) evs.
Proof.
  intros Ht (Hnd & Hlive & Hs & Hk) Ha Hb Hab Hla Hlb Hea Heb Hca Hcb.
  destruct (TimerQueue_doTimer_spec now w Ht Hnd Hlive) as (w' & E & _ & _ & Htr).
  exists w', (fired_events (timers w) (due_prefix now (timers w) (timer_queue w))).
  split; [exact E|]. split; [exact Htr|].
  apply (fired_before _ _ a b).
  - apply sorted_before; [now apply due_prefix_sorted| | |exact Hab].
    + apply due_prefix_complete; try assumption.
      unfold expired. rewrite Hla. now apply Z.leb_le.
    + apply due_prefix_complete; try assumption.
      unfold expired. rewrite Hlb. now apply Z.leb_le.
  - unfold fire_event. now rewrite Hla, Hca.
  - unfold fire_event. now rewrite Hlb, Hcb.
Qed.

(** C2 (as the code has it).  The set is ordered by the pair
    (expiration, address of the timer).  When two timers with the same
    expiration are added, at fresh addresses, to a usable set and then
    expire, doTimer fires both, the one at the lower address first,
    whichever of them was added first and whatever else is in the set. *)
Theorem TimerQueue_equal_expiry_order (w : World) (now when_ : Z) (p1 p2 : Z)
    (cb1 cb2 : CallbackId) (i1 rc1 i2 rc2 : Z) :
  in_loop_thread w ->
  queue_ok w ->
  timers w !! p1 = None ->
  timers w !! p2 = None ->
  p1 <> p2 ->
  when_ <= now ->
  exists id1 w1 id2 w2 w3,
    TimerQueue_addTimer_move p1 cb1 when_ i1 rc1 w = Done id1 w1
    /\ TimerQueue_addTimer_move p2 cb2 when_ i2 rc2 w1 = Done id2 w2
    /\ StronglySorted TimerQueue.entry_lt (timer_queue w2)
    /\ In (when_, p1) (timer_queue w2)
    /\ In (when_, p2) (timer_queue w2)
    /\ TimerQueue_doTimer now w2 = Done tt w3
    /\ exists evs,
         trace w3 = trace w ++ evs
         /\ (p1 < p2 -> before (EvTimerCallback p1 cb1) (EvTimerCallback p2 cb2) evs)
         /\ (p2 < p1 -> before (EvTimerCallback p2 cb2) (EvTimerCallback p1 cb1) evs).
Proof.
  intros Ht Hok Hf1 Hf2 Hne Hexp.
  pose proof (TimerQueue_addTimer_move_spec p1 cb1 when_ i1 rc1 w Ht Hf1) as E1.
  cbv zeta in E1.
  set (tm1 := Timer.mk cb1 when_ i1 rc1 (wrap64 (s_numCreated w + 1)) false) in *.
  set (w1 := set_m_timers _ _) in E1.
  assert (Ht1 : in_loop_thread w1) by exact Ht.
  assert (Hh1 : timers w1 = <[p1 := tm1]> (timers w)) by reflexivity.
  assert (Hok1 : queue_ok w1) by (apply (queue_ok_add w w1 p1 tm1); auto).
  assert (Hf21 : timers w1 !! p2 = None).
  { rewrite Hh1, lookup_insert_ne by exact Hne. exact Hf2. }
  pose proof (TimerQueue_addTimer_move_spec p2 cb2 when_ i2 rc2 w1 Ht1 Hf21) as E2.
  cbv zeta in E2.
  set (tm2 := Timer.mk cb2 when_ i2 rc2 (wrap64 (s_numCreated w1 + 1)) false) in *.
  set (w2 := set_m_timers _ _) in E2.
  assert (Ht2 : in_loop_thread w2) by exact Ht.
  assert (Hh2 : timers w2 = <[p2 := tm2]> (timers w1)) by reflexivity.
  assert (Hq2 : timer_queue w2
                = TimerQueue.set_insert (when_, p2)
                    (TimerQueue.set_insert (when_, p1) (timer_queue w))) by reflexivity.
  assert (Hok2 : queue_ok w2) by (apply (queue_ok_add w1 w2 p2 tm2); auto).
  assert (Hin1 : In (when_, p1) (timer_queue w2)).
  { rewrite Hq2. apply set_insert_In. right. apply set_insert_In. now left. }
  assert (Hin2 : In (when_, p2) (timer_queue w2)).
  { rewrite Hq2. apply set_insert_In. now left. }
  assert (Hl1 : timers w2 !! p1 = Some tm1).
  { rewrite Hh2, Hh1, lookup_insert_ne by congruence. apply lookup_insert_eq. }
  assert (Hl2 : timers w2 !! p2 = Some tm2).
  { rewrite Hh2. apply lookup_insert_eq. }
  assert (Htr2 : trace w2 = trace w) by reflexivity.
  destruct (TimerQueue_doTimer_spec now w2 Ht2 (proj1 Hok2) (proj1 (proj2 Hok2)))
    as (w3 & E3 & _ & _ & Htr3).
  exists (p1, wrap64 (s_numCreated w + 1)), w1,
         (p2, wrap64 (s_numCreated w1 + 1)), w2, w3.
  split; [exact E1|]. split; [exact E2|].
  split; [apply Hok2|]. split; [exact Hin1|]. split; [exact Hin2|].
  split; [exact E3|].
  eexists. split; [rewrite Htr3, Htr2; reflexivity|]. split.
  - intros Hlt.
    destruct (doTimer_fires_in_entry_order w2 now (when_, p1) (when_, p2) tm1 tm2)
      as (w3' & evs & E3' & Htr & Hb); auto.
    { right. simpl. lia. }
    rewrite E3 in E3'. injection E3' as <-.
    rewrite Htr3 in Htr. apply app_inv_head in Htr. now rewrite Htr.
  - intros Hlt.
    destruct (doTimer_fires_in_entry_order w2 now (when_, p2) (when_, p1) tm2 tm1)
      as (w3' & evs & E3' & Htr & Hb); auto.
    { right. simpl. lia. }
    rewrite E3 in E3'. injection E3' as <-.
    rewrite Htr3 in Htr. apply app_inv_head in Htr. now rewrite Htr.
Qed.

(** ** Channel interest and the loop's queue *)

Lemma bind_Done_inv {A B} (m : M A) (k : A -> M B) w b w' :
  bind m k w = Done b w' ->
  exists a w1, m w = Done a w1 /\ k a w1 = Done b w'.
Proof.
  unfold bind. destruct (m w) as [a w1| |]; [eauto|discriminate|discriminate].
Qed.

Lemma same_outside_poller_thread w w' :
  same_outside_poller w w' -> in_loop_thread w -> in_loop_thread w'.
Proof. unfold same_outside_poller, in_loop_thread. intros (-> & -> & _). auto. Qed.

(** Storing a new interest mask and asking the loop to update the poller
    returns; the channel then has the mask, and nothing outside the
    poller and the channels has changed. *)
Lemma Channel_store_update c ch ev w :
  in_loop_thread w ->
  channels w !! c = Some ch ->
  exists ok w' ch',
    (store_channel c (Channel.set_events ch ev) ;; Channel_update c) w = Done ok w'
    /\ same_outside_poller w w'
    /\ channels w' !! c = Some ch'
    /\ Channel.m_events ch' = ev
    /\ Channel.m_fd ch' = Channel.m_fd ch.
Proof.
  intros Ht Hc. unfold bind at 1. unfold store_channel, modify.
  set (w0 := set_channels _ w).
  assert (Ht0 : in_loop_thread w0) by exact Ht.
  assert (Hc0 : channels w0 !! c = Some (Channel.set_events ch ev))
    by apply lookup_insert_eq.
  unfold Channel_update, EventLoop_updateChannel.
  destruct (SelectPoller_updateChannel_cases w0 c _ Ht0 Hc0)
    as (ok & w' & E & Hsame & Hcase).
  destruct Hcase as [[Hh _]|(_ & idx & _ & Hh & _)].
  - exists ok, w', (Channel.set_events ch ev). split; [exact E|].
    split; [exact Hsame|]. rewrite Hh. auto.
  - exists ok, w', (Channel.set_index (Channel.set_events ch ev) idx).
    split; [exact E|]. split; [exact Hsame|].
    rewrite Hh, lookup_insert_eq. auto.
Qed.

Lemma Channel_disableAll_spec c ch w :
  in_loop_thread w ->
  channels w !! c = Some ch ->
  exists ok w' ch',
    Channel_disableAll c w = Done ok w'
    /\ same_outside_poller w w'
    /\ channels w' !! c = Some ch'
    /\ Channel.m_events ch' = Channel.kNoneEvent.
Proof.
  intros Ht Hc. unfold Channel_disableAll.
  run_channel_at Hc.
  destruct (Channel_store_update c ch Channel.kNoneEvent w Ht Hc)
    as (ok & w' & ch' & E & Hs & Hc' & He & _).
  exists ok, w', ch'. auto.
Qed.

Lemma Channel_enableWriting_spec c ch w :
  in_loop_thread w ->
  channels w !! c = Some ch ->
  exists ok w' ch',
    Channel_enableWriting c w = Done ok w'
    /\ same_outside_poller w w'
    /\ channels w' !! c = Some ch'
    /\ Channel.isWriting ch' = true.
Proof.
  intros Ht Hc. unfold Channel_enableWriting.
  run_channel_at Hc.
  destruct (Channel_store_update c ch
              (Z.lor (Channel.m_events ch) Channel.kWriteEvent) w Ht Hc)
    as (ok & w' & ch' & E & Hs & Hc' & He & _).
  exists ok, w', ch'. split; [exact E|]. split; [exact Hs|]. split; [exact Hc'|].
  unfold Channel.isWriting. rewrite He.
  change Channel.kWriteEvent with (2 ^ 2). rewrite truthy_land_pow2 by lia.
  rewrite Z.lor_spec, Z.pow2_bits_true by lia. apply orb_true_r.
Qed.

Lemma EventLoop_queueInLoop_spec cb w :
  EventLoop_queueInLoop cb w
  = Done tt (log_events (wakeup_events w) (push_functor cb w)).
Proof.
  unfold EventLoop_queueInLoop, bind, modify, EventLoop_isInLoopThread, gets,
    wakeup_events, when, emit, modify, ret. simpl.
  fold (push_functor cb w).
  destruct (negb (EventLoop.m_threadId (loop w) =? current_thread w)
            || EventLoop.m_doingOtherTasks (loop w)); [reflexivity|].
  now rewrite log_events_nil.
Qed.

(** ** TcpConnection::handleClose *)

Lemma TcpConnection_handleClose_disconnected this w :
  TcpConnection.m_state this = kDisconnected ->
  TcpConnection_handleClose this w = Done this w.
Proof. intros H. unfold TcpConnection_handleClose. now rewrite H. Qed.

Lemma TcpConnection_handleClose_state this w this' w' :
  TcpConnection_handleClose this w = Done this' w' ->
  TcpConnection.m_state this' = kDisconnected.
Proof.
  unfold TcpConnection_handleClose.
  destruct (TcpConnection.StateE_eqb (TcpConnection.m_state this) kDisconnected) eqn:Hs.
  - unfold ret. intros E. injection E as <- <-.
    now destruct (TcpConnection.m_state this).
  - intros E.
    apply bind_Done_inv in E as (? & ? & _ & E).
    apply bind_Done_inv in E as (? & ? & _ & E).
    apply bind_Done_inv in E as (? & ? & _ & E).
    apply bind_Done_inv in E as (? & ? & _ & E).
    unfold ret in E. injection E as <- <-. reflexivity.
Qed.

(** The first handleClose of a live connection. *)
Lemma TcpConnection_handleClose_live this w ch a b :
  TcpConnection.m_state this <> kDisconnected ->
  in_loop_thread w ->
  channels w !! TcpConnection.m_channel this = Some ch ->
  TcpConnection.m_connectionCallback this = Some a ->
  TcpConnection.m_closeCallback this = Some b ->
  exists w' ch',
    TcpConnection_handleClose this w
    = Done (TcpConnection.setState this kDisconnected) w'
    /\ trace w' = trace w ++ [EvConnectionCallback a false; EvCloseCallback b]
    /\ pending w' = pending w
    /\ channels w' !! TcpConnection.m_channel this = Some ch'
    /\ Channel.isNoneEvent ch' = true.
Proof.
  intros Hs Ht Hc Ha Hb. unfold TcpConnection_handleClose.
  destruct (TcpConnection.StateE_eqb (TcpConnection.m_state this) kDisconnected) eqn:E.
  { exfalso. apply Hs. now destruct (TcpConnection.m_state this). }
  run_assert Ht.
  destruct (Channel_disableAll_spec _ ch w Ht Hc) as (ok & w1 & ch' & E1 & Hsame & Hc1 & He).
  unfold bind at 1. simpl. rewrite E1, Ha, Hb.
  unfold call, bind, emit, modify, ret. simpl.
  eexists _, ch'. split; [reflexivity|]. simpl.
  destruct Hsame as (_ & _ & _ & _ & Hp & _ & _ & Htr).
  split; [rewrite Htr, <- app_assoc; reflexivity|].
  split; [exact Hp|]. split; [exact Hc1|].
  unfold Channel.isNoneEvent. rewrite He. reflexivity.
Qed.

(** C8. Two calls of handleClose in a row are one call: the second finds
    the state Disconnected and returns at once, changing neither the
    connection nor the world.  A connection that is already
    Disconnected is left alone, and the first call on a live connection
    returns with the state Disconnected after calling the connection
    callback and the close callback once each. *)
Theorem TcpConnection_handleClose_idempotent (this : TcpConnection.t) (w : World) :
  (this' <- TcpConnection_handleClose this ;; TcpConnection_handleClose this') w
  = TcpConnection_handleClose this w
  /\ (TcpConnection.m_state this = kDisconnected ->
      TcpConnection_handleClose this w = Done this w)
  /\ (forall ch a b,
        TcpConnection.m_state this <> kDisconnected ->
        in_loop_thread w ->
        channels w !! TcpConnection.m_channel this = Some ch ->
        TcpConnection.m_connectionCallback this = Some a ->
        TcpConnection.m_closeCallback this = Some b ->
        exists this' w',
          TcpConnection_handleClose this w = Done this' w'
          /\ TcpConnection.m_state this' = kDisconnected
          /\ trace w' = trace w ++ [EvConnectionCallback a false; EvCloseCallback b]
          /\ TcpConnection_handleClose this' w' = Done this' w').
Proof.
  split; [|split].
  - unfold bind.
    destruct (TcpConnection_handleClose this w) as [this' w'| |] eqn:E; try reflexivity.
    apply TcpConnection_handleClose_disconnected.
    eapply TcpConnection_handleClose_state; eauto.
  - apply TcpConnection_handleClose_disconnected.
  - intros ch a b Hs Ht Hc Ha Hb.
    destruct (TcpConnection_handleClose_live this w ch a b Hs Ht Hc Ha Hb)
      as (w' & ch' & E & Htr & _).
    exists (TcpConnection.setState this kDisconnected), w'.
    split; [exact E|]. split; [reflexivity|]. split; [exact Htr|].
    now apply TcpConnection_handleClose_disconnected.
Qed.

(** ** TcpConnection::handleRead *)

(** C9. In the loop thread handleRead reads into the input buffer and
    then: with n > 0 it calls the message callback with the input buffer
    and the receive time and returns; with n = 0 it goes on as
    handleClose; with n < 0 it goes on as handleError, which asks for the
    socket error and then goes on as handleClose; on a live connection
    with its connection and close callbacks set both ways end with the
    state Disconnected after the two callbacks. *)
Theorem TcpConnection_handleRead_dispatch (this : TcpConnection.t) (w : World)
    (ch : Channel.t) (receiveTime : Z) (r : ReadResult) :
  in_loop_thread w ->
  channels w !! TcpConnection.m_channel this = Some ch ->
  let fd := Channel.m_fd ch in
  let input := ByteBuffer_readFd (TcpConnection.m_inputBuffer this) r in
  let this1 := TcpConnection.set_inputBuffer this input in
  let n := read_count r in
  (n > 0 ->
   forall cb, TcpConnection.m_messageCallback this = Some cb ->
     TcpConnection_handleRead this receiveTime r w
     = Done this1
         (log_events [EvReadFd fd;
                      EvMessageCallback cb (ByteBuffer.peek input) receiveTime] w))
  /\ (n = 0 ->
      TcpConnection_handleRead this receiveTime r w
      = TcpConnection_handleClose this1 (log_events [EvReadFd fd] w))
  /\ (n < 0 ->
      TcpConnection_handleRead this receiveTime r w
      = TcpConnection_handleError this1 (log_events [EvReadFd fd] w)
      /\ TcpConnection_handleError this1 (log_events [EvReadFd fd] w)
         = TcpConnection_handleClose this1
             (log_events [EvReadFd fd; EvGetSocketError fd] w))
  /\ (n <= 0 ->
      forall a b,
        TcpConnection.m_state this <> kDisconnected ->
        TcpConnection.m_connectionCallback this = Some a ->
        TcpConnection.m_closeCallback this = Some b ->
        exists w',
          TcpConnection_handleRead this receiveTime r w
          = Done (TcpConnection.setState this1 kDisconnected) w'
          /\ trace w'
             = trace w
               ++ [EvReadFd fd]
               ++ (if n <? 0 then [EvGetSocketError fd] else [])
               ++ [EvConnectionCallback a false; EvCloseCallback b]).
Proof.
  intros Ht Hc fd input this1 n.
  assert (E : TcpConnection_handleRead this receiveTime r w
              = (if n >? 0 then
                   call (TcpConnection.m_messageCallback this1)
                     (fun cb => EvMessageCallback cb
                                  (ByteBuffer.peek (TcpConnection.m_inputBuffer this1))
                                  receiveTime) ;;
                   ret this1
                 else if n =? 0 then TcpConnection_handleClose this1
                 else TcpConnection_handleError this1) (log_events [EvReadFd fd] w)).
  { unfold TcpConnection_handleRead.
    run_assert Ht.
    run_channel_at Hc.
    unfold bind at 1. unfold emit at 1, modify at 1. reflexivity. }
  assert (Eerr : TcpConnection_handleError this1 (log_events [EvReadFd fd] w)
                 = TcpConnection_handleClose this1
                     (log_events [EvReadFd fd; EvGetSocketError fd] w)).
  { unfold TcpConnection_handleError.
    unfold bind at 1. unfold channel_at at 1. simpl. rewrite Hc.
    unfold bind, emit, modify. now rewrite log_events_app. }
  split; [|split; [|split]].
  - intros Hn cb Hcb. rewrite E.
    destruct (Z.gtb_spec n 0) as [_|]; [|lia].
    simpl. rewrite Hcb. unfold call, bind, emit, modify, ret.
    now rewrite log_events_app.
  - intros Hn. rewrite E.
    destruct (Z.gtb_spec n 0) as [|_]; [lia|].
    destruct (Z.eqb_spec n 0); [reflexivity|lia].
  - intros Hn. split; [|exact Eerr].
    rewrite E.
    destruct (Z.gtb_spec n 0) as [|_]; [lia|].
    destruct (Z.eqb_spec n 0); [lia|reflexivity].
  - intros Hn a b Hs Ha Hb. rewrite E.
    destruct (Z.gtb_spec n 0) as [|_]; [lia|].
    destruct (Z.eqb_spec n 0) as [E0|E0].
    + destruct (TcpConnection_handleClose_live this1 (log_events [EvReadFd fd] w)
                  ch a b Hs Ht Hc Ha Hb) as (w' & _ & E' & Htr & _).
      exists w'. split; [exact E'|]. rewrite Htr.
      destruct (Z.ltb_spec n 0); [lia|]. simpl. now rewrite <- app_assoc.
    + rewrite Eerr.
      destruct (TcpConnection_handleClose_live this1
                  (log_events [EvReadFd fd; EvGetSocketError fd] w)
                  ch a b Hs Ht Hc Ha Hb) as (w' & _ & E' & Htr & _).
      exists w'. split; [exact E'|]. rewrite Htr.
      destruct (Z.ltb_spec n 0); [|lia]. simpl. now rewrite <- app_assoc.
Qed.

(** ** TcpConnection::send *)

Lemma StateE_eqb_eq a b : TcpConnection.StateE_eqb a b = true <-> a = b.
Proof. destruct a, b; simpl; split; congruence. Qed.

(** C10. When the state is not Connected, each of the three send
    overloads returns at once: the connection, the caller's buffer and
    the whole world (socket, output buffer, queue of the loop, trace of
    callbacks) are as before. *)
Theorem TcpConnection_send_not_connected (this : TcpConnection.t) (w : World)
    (data : list Byte.byte) (buf : ByteBuffer.t) (wr : WriteResult) :
  TcpConnection.m_state this <> kConnected ->
  TcpConnection_send this data wr w = Done this w
  /\ TcpConnection_send_string this data wr w = Done this w
  /\ TcpConnection_send_buffer this buf wr w = Done (this, buf) w.
Proof.
  intros Hs.
  unfold TcpConnection_send, TcpConnection_send_string, TcpConnection_send_buffer.
  destruct (TcpConnection.StateE_eqb (TcpConnection.m_state this) kConnected) eqn:E.
  - apply StateE_eqb_eq in E. contradiction.
  - auto.
Qed.

(** The string overload is the pointer overload; the buffer overload
    sends the readable bytes and empties the caller's buffer. *)
Lemma TcpConnection_send_string_eq this message wr :
  TcpConnection_send_string this message wr = TcpConnection_send this message wr.
Proof. reflexivity. Qed.

Lemma TcpConnection_send_buffer_eq this buf wr w :
  TcpConnection.m_state this = kConnected ->
  TcpConnection_send_buffer this buf wr w
  = (this' <- TcpConnection_send this (ByteBuffer.peek buf) wr ;;
     ret (this', ByteBuffer.retrieveAll buf)) w.
Proof.
  intros Hs. unfold TcpConnection_send_buffer, TcpConnection_send. rewrite Hs. simpl.
  unfold bind, EventLoop_isInLoopThread, gets.
  destruct (EventLoop.m_threadId (loop w) =? current_thread w); [reflexivity|].
  destruct (EventLoop_runInLoop _ _ w); reflexivity.
Qed.

(** ** A send of no bytes *)

Lemma wakeup_events_only fd wr w : Forall (empty_send_event fd wr) (wakeup_events w).
Proof.
  unfold wakeup_events.
  destruct (_ || _); [|constructor].
  constructor; [now right|constructor].
Qed.

(** C3 (as the code has it).  On a Connected connection a send of no
    bytes returns with the connection, its output buffer and the
    channels as they were.  In the loop thread it calls write with count
    0, once, when the channel is not writing and the output buffer is
    empty, and makes no call of write otherwise; when that write returns
    0 and a write-complete callback is set it queues that callback (with
    the wakeup queueInLoop makes while the loop runs its queued tasks);
    nothing else is queued, nothing else is added to the trace, and no
    callback is called.  From another thread it only queues the
    sendInLoop closure and wakes the loop. *)
Theorem TcpConnection_send_empty (this : TcpConnection.t) (w : World)
    (ch : Channel.t) (wr : WriteResult) :
  TcpConnection.m_state this = kConnected ->
  channels w !! TcpConnection.m_channel this = Some ch ->
  -1 <= write_ret wr <= 0 ->
  (in_loop_thread w ->
   exists w' evs,
     TcpConnection_send this [] wr w = Done this w'
     /\ channels w' = channels w
     /\ trace w' = trace w ++ evs
     /\ evs
        = (if direct_write_attempted this ch
           then EvSocketWrite (Channel.m_fd ch) [] (write_ret wr)
                :: (if write_ret wr =? 0
                    then match TcpConnection.m_writeCompleteCallback this with
                         | Some _ => wakeup_events w
                         | None => []
                         end
                    else [])
           else [])
     /\ Forall (empty_send_event (Channel.m_fd ch) wr) evs
     /\ pending w'
        = pending w
          ++ (if direct_write_attempted this ch && (write_ret wr =? 0)
              then match TcpConnection.m_writeCompleteCallback this with
                   | Some cb => [FnWriteComplete cb]
                   | None => []
                   end
              else []))
  /\ (~ in_loop_thread w ->
      TcpConnection_send this [] wr w
      = Done this (log_events [EvWakeup] (push_functor (FnSendInLoop []) w))).
Proof.
  intros Hs Hc Hret. split.
  - intros Ht. unfold TcpConnection_send. rewrite Hs. simpl.
    unfold bind at 1. rewrite (isInLoopThread_true _ Ht).
    unfold TcpConnection_sendInLoop.
    run_assert Ht.
    rewrite Hs. simpl.
    run_channel_at Hc.
    fold (direct_write_attempted this ch).
    destruct (direct_write_attempted this ch); simpl.
    2:{ exists w, []. unfold bind, ret. simpl.
        split; [reflexivity|]. split; [reflexivity|].
        split; [now rewrite app_nil_r|]. split; [reflexivity|].
        split; [constructor|]. now rewrite app_nil_r. }
    unfold bind at 1. unfold sendInLoop_direct_write.
    unfold bind at 1. unfold emit at 1, modify at 1.
    destruct (Z.eq_dec (write_ret wr) 0) as [E0|E0].
    + rewrite E0. simpl.
      destruct (TcpConnection.m_writeCompleteCallback this) as [cb|]; simpl.
      * unfold bind at 1. rewrite EventLoop_queueInLoop_spec. unfold ret. simpl.
        eexists _, _. split; [reflexivity|]. simpl.
        split; [reflexivity|]. split; [rewrite <- app_assoc; reflexivity|].
        split; [reflexivity|]. split; [|reflexivity].
        constructor; [left; now rewrite E0|]. apply wakeup_events_only.
      * unfold bind, ret. simpl.
        eexists _, _. split; [reflexivity|]. simpl.
        split; [reflexivity|]. split; [reflexivity|].
        split; [reflexivity|]. split; [|now rewrite app_nil_r].
        constructor; [left; now rewrite E0|constructor].
    + assert (E1 : write_ret wr = -1) by lia. rewrite E1. simpl.
      unfold ret. simpl. rewrite andb_false_r.
      eexists _, _. split; [reflexivity|]. simpl.
      split; [reflexivity|]. split; [reflexivity|].
      split; [reflexivity|]. split; [|now rewrite app_nil_r].
      constructor; [left; now rewrite E1|constructor].
  - intros Hn. unfold TcpConnection_send. rewrite Hs. simpl.
    unfold bind at 1. rewrite (isInLoopThread_false _ Hn).
    unfold bind at 1. unfold EventLoop_runInLoop.
    unfold bind at 1. rewrite (isInLoopThread_false _ Hn).
    unfold bind at 1. rewrite EventLoop_queueInLoop_spec.
    unfold ret, after_runInLoop. unfold wakeup_events.
    unfold in_loop_thread in Hn.
    destruct (Z.eqb_spec (EventLoop.m_threadId (loop w)) (current_thread w));
      [contradiction|reflexivity].
Qed.

(** ** The high-water mark *)

(** The block that buffers a remainder of [remaining] > 0 bytes. *)
Lemma sendInLoop_buffer_spec this data nwrote remaining w ch cb :
  in_loop_thread w ->
  channels w !! TcpConnection.m_channel this = Some ch ->
  TcpConnection.m_highWaterMarkCallback this = Some cb ->
  let oldLen := ByteBuffer.readableBytes (TcpConnection.m_outputBuffer this) in
  let hw := TcpConnection.m_highWaterMark this in
  0 < remaining ->
  oldLen + remaining < 2 ^ 64 ->
  exists w' ch',
    sendInLoop_buffer this data nwrote remaining w
    = Done (TcpConnection.set_outputBuffer this
              (ByteBuffer.append (TcpConnection.m_outputBuffer this)
                 (firstn (Z.to_nat remaining) (skipn (Z.to_nat nwrote) data)))) w'
    /\ pending w'
       = pending w
         ++ (if (oldLen <? hw) && (hw <=? oldLen + remaining)
             then [FnHighWaterMark cb (oldLen + remaining)] else [])
    /\ channels w' !! TcpConnection.m_channel this = Some ch'
    /\ Channel.isWriting ch' = true.
Proof.
  intros Ht Hc Hcb oldLen hw Hpos Hsmall.
  assert (Hold : 0 <= oldLen) by (unfold oldLen, ByteBuffer.readableBytes; lia).
  unfold sendInLoop_buffer. fold oldLen. fold hw.
  unfold wrap_size_t. rewrite Z.mod_small by lia.
  rewrite Hcb, Z.geb_leb, andb_comm.
  assert (Hq : exists w1,
             when ((oldLen <? hw) && (hw <=? oldLen + remaining))
                  (queue_if_set (Some cb)
                     (fun cb0 => FnHighWaterMark cb0 (oldLen + remaining))) w
             = Done tt w1
             /\ in_loop_thread w1
             /\ channels w1 = channels w
             /\ pending w1
                = pending w
                  ++ (if (oldLen <? hw) && (hw <=? oldLen + remaining)
                      then [FnHighWaterMark cb (oldLen + remaining)] else [])).
  { destruct ((oldLen <? hw) && (hw <=? oldLen + remaining)); simpl.
    - rewrite EventLoop_queueInLoop_spec. eexists. split; [reflexivity|].
      split; [exact Ht|]. split; reflexivity.
    - exists w. unfold ret. split; [reflexivity|]. split; [exact Ht|].
      split; [reflexivity|]. now rewrite app_nil_r. }
  destruct Hq as (w1 & E1 & Ht1 & Hh1 & Hp1).
  unfold bind at 1. rewrite E1.
  assert (Hc1 : channels w1 !! TcpConnection.m_channel this = Some ch)
    by (now rewrite Hh1).
  unfold bind at 1. unfold channel_at at 1. cbn [TcpConnection.m_channel
    TcpConnection.set_outputBuffer]. rewrite Hc1.
  destruct (Channel.isWriting ch) eqn:Hw; simpl.
  - unfold bind, ret. exists w1, ch. auto.
  - destruct (Channel_enableWriting_spec _ ch w1 Ht1 Hc1)
      as (ok & w2 & ch' & E2 & Hsame & Hc2 & Hw2).
    unfold bind. rewrite E2. unfold ret.
    exists w2, ch'. split; [reflexivity|]. split; [|auto].
    destruct Hsame as (_ & _ & _ & _ & Hp & _). unfold pending in *. congruence.
Qed.

Lemma firstn_skipn_rest (data : list Byte.byte) (n : Z) :
  0 <= n <= Z.of_nat (length data) ->
  firstn (Z.to_nat (Z.of_nat (length data) - n)) (skipn (Z.to_nat n) data)
  = skipn (Z.to_nat n) data.
Proof.
  intros Hn. apply firstn_all2. rewrite length_skipn. lia.
Qed.

(** C4. In the loop thread, on a connection that is not Disconnected and
    has a high-water-mark callback, when a nonempty remainder of the
    payload survives the direct-write attempt without a fatal error,
    sendInLoop returns after queueing the high-water-mark callback if and
    only if oldLen < highWaterMark <= oldLen + remaining, with oldLen the
    readable bytes of the output buffer before; the remainder is then at
    the end of the output buffer and the channel is writing.  A
    remainder of exactly highWaterMark bytes on an empty output buffer
    queues the callback once. *)
Theorem TcpConnection_sendInLoop_high_water_mark (this : TcpConnection.t) (w : World)
    (ch : Channel.t) (cb : CallbackId) (data rest : list Byte.byte) (wr : WriteResult) :
  in_loop_thread w ->
  TcpConnection.m_state this <> kDisconnected ->
  channels w !! TcpConnection.m_channel this = Some ch ->
  TcpConnection.m_highWaterMarkCallback this = Some cb ->
  surviving_remainder this ch data wr = Some rest ->
  ByteBuffer.readableBytes (TcpConnection.m_outputBuffer this)
  + Z.of_nat (length data) < 2 ^ 64 ->
  let oldLen := ByteBuffer.readableBytes (TcpConnection.m_outputBuffer this) in
  let remaining := Z.of_nat (length rest) in
  let hw := TcpConnection.m_highWaterMark this in
  exists w' ch',
    TcpConnection_sendInLoop this data wr w
    = Done (TcpConnection.set_outputBuffer this
              (ByteBuffer.append (TcpConnection.m_outputBuffer this) rest)) w'
    /\ 0 < remaining
    /\ pending w'
       = pending w
         ++ (if (oldLen <? hw) && (hw <=? oldLen + remaining)
             then [FnHighWaterMark cb (oldLen + remaining)] else [])
    /\ channels w' !! TcpConnection.m_channel this = Some ch'
    /\ Channel.isWriting ch' = true
    /\ (oldLen = 0 -> remaining = hw -> pending w' = pending w ++ [FnHighWaterMark cb hw]).
Proof.
  intros Ht Hs Hc Hcb Hrest Hsmall oldLen remaining hw.
  assert (Hold : 0 <= oldLen) by (unfold oldLen, ByteBuffer.readableBytes; lia).
  set (len := Z.of_nat (length data)) in *.
  (* the state after the direct-write attempt *)
  assert (Hst : exists nwrote w1,
             TcpConnection_sendInLoop this data wr w
             = sendInLoop_buffer this data nwrote remaining w1
             /\ firstn (Z.to_nat remaining) (skipn (Z.to_nat nwrote) data) = rest
             /\ 0 < remaining <= len
             /\ in_loop_thread w1
             /\ channels w1 = channels w
             /\ pending w1 = pending w).
  { unfold TcpConnection_sendInLoop.
    run_assert Ht.
    destruct (TcpConnection.StateE_eqb (TcpConnection.m_state this) kDisconnected) eqn:E.
    { apply StateE_eqb_eq in E. contradiction. }
    run_channel_at Hc.
    fold (direct_write_attempted this ch). fold len.
    unfold surviving_remainder in Hrest. fold len in Hrest.
    destruct (direct_write_attempted this ch).
    - unfold bind at 1. unfold sendInLoop_direct_write. fold len.
      unfold bind at 1. unfold emit at 1, modify at 1.
      set (w1 := log_events _ w).
      destruct (Z.leb_spec 0 (write_ret wr)) as [Hge|Hlt].
      + destruct (Z.ltb_spec (write_ret wr) len) as [Hlt|]; [|discriminate].
        injection Hrest as <-.
        assert (Hrem : remaining = len - write_ret wr).
        { unfold remaining, len. rewrite length_skipn. lia. }
        destruct (Z.geb_spec (write_ret wr) 0) as [_|]; [|lia].
        unfold wrap_size_t. rewrite Z.mod_small by (unfold len in *; lia).
        destruct (Z.eqb_spec (len - write_ret wr) 0) as [|_]; [lia|].
        unfold when, bind at 1, ret at 1. unfold ret at 1.
        cbv beta iota.
        destruct (Z.gtb_spec (len - write_ret wr) len) as [|_]; [lia|].
        destruct (Z.gtb_spec (len - write_ret wr) 0) as [_|]; [|lia].
        simpl. exists (write_ret wr), w1. rewrite Hrem.
        split; [reflexivity|].
        split; [apply firstn_skipn_rest; unfold len in *; lia|].
        split; [lia|]. split; [exact Ht|]. split; reflexivity.
      + destruct (Z.geb_spec (write_ret wr) 0) as [|_]; [lia|].
        unfold fatal_errno in Hrest.
        destruct ((write_errno wr =? EPIPE) || (write_errno wr =? ECONNRESET));
          [discriminate|].
        destruct (Z.ltb_spec 0 len) as [Hpos|]; [|discriminate].
        injection Hrest as <-.
        rewrite andb_false_r. unfold ret at 1. cbv beta iota.
        destruct (Z.gtb_spec len len) as [|_]; [lia|].
        destruct (Z.gtb_spec len 0) as [_|]; [|lia].
        simpl. exists 0, w1. fold len.
        split; [reflexivity|].
        split; [unfold remaining; rewrite Nat2Z.id; simpl; apply firstn_all|].
        split; [lia|]. split; [exact Ht|]. split; reflexivity.
    - destruct (Z.ltb_spec 0 len) as [Hpos|]; [|discriminate].
      injection Hrest as <-.
      unfold bind at 1, ret at 1. cbv beta iota.
      destruct (Z.gtb_spec len len) as [|_]; [lia|].
      destruct (Z.gtb_spec len 0) as [_|]; [|lia].
      simpl. exists 0, w. fold len.
      split; [reflexivity|].
      split; [unfold remaining; rewrite Nat2Z.id; simpl; apply firstn_all|].
      split; [lia|]. split; [exact Ht|]. split; reflexivity. }
  destruct Hst as (nwrote & w1 & E & Hfs & Hrem & Ht1 & Hh1 & Hp1).
  assert (Hc1 : channels w1 !! TcpConnection.m_channel this = Some ch)
    by (now rewrite Hh1).
  destruct (sendInLoop_buffer_spec this data nwrote remaining w1 ch cb Ht1 Hc1 Hcb)
    as (w' & ch' & E' & Hp & Hc' & Hw'); [lia|fold oldLen; lia|].
  fold oldLen in Hp. fold hw in Hp.
  exists w', ch'. rewrite E, E', Hfs.
  split; [reflexivity|]. split; [lia|]. rewrite Hp, Hp1.
  split; [reflexivity|]. split; [exact Hc'|]. split; [exact Hw'|].
  intros H0 Hhw. rewrite H0, <- Hhw. simpl.
  destruct (Z.ltb_spec 0 remaining) as [_|]; [|lia].
  now rewrite Z.leb_refl.
Qed.

(** ** Worked examples *)

(** C5 on a channel ready with HUP, ERR and OUT: close, error, write. *)
Lemma Channel_handleEvent_dispatch_witness :
  Channel_handleEvent 100 7 world_ready
  = Done tt (log_events [EvChannelCallback 5 CbClose 3%nat;
                         EvChannelCallback 5 CbError 4%nat;
                         EvChannelCallback 5 CbWrite 2%nat] world_ready).
Proof.
  exact (Channel_handleEvent_dispatch world_ready 100 chan_ready 7 eq_refl).
Defined.

Lemma poller_inv_world_registered : poller_inv world_registered.
Proof. unfold poller_inv. simpl. apply map_Forall_singleton. reflexivity. Defined.

(** C7 on the fresh channel for fd 5 next to a registered one. *)
Lemma SelectPoller_registration_invariant_witness :
  exists ok w',
    SelectPoller_updateChannel 100 world_registered = Done ok w'
    /\ poller_inv w'
    /\ ok = true
    /\ SelectPoller.m_channels (poller w') !! 5 = Some 100
    /\ index_of w' 100 = SelectPoller.kAdded.
Proof.
  destruct (SelectPoller_registration_invariant world_registered 100 chan_new
              poller_inv_world_registered eq_refl eq_refl)
    as [(ok & w' & E & Hinv & Hnew & _) _].
  exists ok, w'. split; [exact E|]. split; [exact Hinv|].
  exact (Hnew eq_refl eq_refl).
Defined.

(** C6 as the code has it, on a fresh channel whose fd is taken, on a
    channel with interest, and from another thread. *)
Lemma programming_errors_witness :
  SelectPoller_updateChannel 100 world_fd5_taken = Done false world_fd5_taken
  /\ Channel_remove 300 world_fd5_taken = Done tt world_fd5_taken
  /\ EventLoop_assertInLoopThread world_conn_other_thread
     = Abort world_conn_other_thread.
Proof.
  split; [|split].
  - apply (programming_errors world_fd5_taken 100 chan_new eq_refl).
    + reflexivity.
    + reflexivity.
    + exists 300. reflexivity.
  - apply (programming_errors world_fd5_taken 300 chan_fd5_added eq_refl).
    reflexivity.
  - apply (programming_errors world_conn_other_thread 100 chan_conn eq_refl).
    unfold in_loop_thread. simpl. lia.
Defined.

(** The claim of C6 fails: updateChannel on a New channel whose fd is in
    the map, and Channel::remove on a channel with interest, return; the
    process is not aborted. *)
Lemma updateChannel_and_remove_do_not_abort :
  SelectPoller_updateChannel 100 world_fd5_taken = Done false world_fd5_taken
  /\ (forall w', SelectPoller_updateChannel 100 world_fd5_taken <> Abort w')
  /\ Channel_remove 300 world_fd5_taken = Done tt world_fd5_taken
  /\ (forall w', Channel_remove 300 world_fd5_taken <> Abort w').
Proof.
  assert (E1 : SelectPoller_updateChannel 100 world_fd5_taken = Done false world_fd5_taken)
    by (vm_compute; reflexivity).
  assert (E2 : Channel_remove 300 world_fd5_taken = Done tt world_fd5_taken)
    by (vm_compute; reflexivity).
  split; [exact E1|]. split; [intros w'; rewrite E1; discriminate|].
  split; [exact E2|]. intros w'; rewrite E2; discriminate.
Qed.

Lemma NoDup_world_timers : NoDup (map snd (timer_queue world_timers)).
Proof.
  simpl.
  repeat (apply NoDup_cons_2;
          [rewrite list_elem_of_In; simpl; intuition discriminate|]).
  apply NoDup_nil_2.
Defined.

Lemma timers_live_world_timers : timers_live world_timers.
Proof. unfold timers_live. simpl. repeat constructor; eexists; reflexivity. Defined.

(** C1 as the code has it, at time 20 on four timers: the cancelled one
    is skipped, the repeating one fires and stays under key 10, the
    single-shot one fires and is erased, the one due at 30 is not
    reached. *)
Lemma TimerQueue_doTimer_walk_witness :
  exists w',
    TimerQueue_doTimer 20 world_timers = Done tt w'
    /\ trace w' = [EvTimerCallback 7 70%nat; EvTimerCallback 8 80%nat]
    /\ In (10, 7) (timer_queue w')
    /\ ~ In (10, 8) (timer_queue w')
    /\ In (30, 9) (timer_queue w').
Proof.
  destruct (TimerQueue_doTimer_walk world_timers 20 eq_refl
              NoDup_world_timers timers_live_world_timers)
    as (w' & E & Htr & Hdue & Hrest & _).
  exists w'. split; [exact E|]. split; [exact Htr|]. split; [|split].
  - destruct (Hdue (10, 7) timer_repeating) as (_ & _ & Hfire);
      [vm_compute; auto|reflexivity|].
    destruct (Hfire eq_refl) as [_ Hrep].
    destruct Hrep as [Hin _]; [compute; discriminate|compute; discriminate|].
    exact Hin.
  - destruct (Hdue (10, 8) timer_single) as (_ & _ & Hfire);
      [vm_compute; auto|reflexivity|].
    destruct (Hfire eq_refl) as [Hgone _].
    apply Hgone. reflexivity.
  - apply (Hrest (30, 9)). vm_compute. auto.
Defined.

(** The claim of C1 fails: the repeating timer that fires at time 20 has
    its expiration moved to 110, but its entry is still the one under
    key 10; the set holds no entry under the new expiration. *)
Lemma doTimer_does_not_reinsert :
  exists w',
    TimerQueue_doTimer 20 world_repeating = Done tt w'
    /\ trace w' = [EvTimerCallback 7 70%nat]
    /\ timers w' !! 7 = Some (Timer.set_expiration timer_repeating 110)
    /\ timer_queue w' = [(10, 7)]
    /\ ~ In (110, 7) (timer_queue w').
Proof.
  eexists. split; [vm_compute; reflexivity|].
  split; [reflexivity|]. split; [vm_compute; reflexivity|].
  split; [reflexivity|].
  simpl. intros [H|[]]. discriminate.
Qed.

(** What the old key costs: with a single-shot timer due at 50 behind
    the repeating one, the pass at time 20 fires the repeating timer and
    moves its expiration to 110; the pass at time 60 then stops at its
    entry, still the first of the set, and the timer due at 50 does not
    fire. *)
Lemma doTimer_stale_key_blocks_due_timer :
  exists w1 w2,
    TimerQueue_doTimer 20 world_two_timers = Done tt w1
    /\ trace w1 = [EvTimerCallback 7 70%nat]
    /\ TimerQueue_doTimer 60 w1 = Done tt w2
    /\ trace w2 = trace w1
    /\ timers w2 !! 8 = Some timer_due_50
    /\ timer_queue w2 = [(10, 7); (50, 8)].
Proof.
  eexists. eexists. split; [vm_compute; reflexivity|].
  split; [reflexivity|]. split; [vm_compute; reflexivity|].
  split; [reflexivity|]. split; [vm_compute; reflexivity|reflexivity].
Qed.

Lemma queue_ok_world0 : queue_ok world0.
Proof.
  unfold queue_ok, timers_live, keys_current. simpl.
  split; [apply NoDup_nil_2|]. split; [constructor|].
  split; constructor.
Defined.

(** C2 as the code has it: the timer added first sits at address 200,
    the one added second at address 100; the second fires first. *)
Lemma TimerQueue_equal_expiry_order_witness :
  exists id1 w1 id2 w2 w3,
    TimerQueue_addTimer_move 200 1%nat 10 0 1 world0 = Done id1 w1
    /\ TimerQueue_addTimer_move 100 2%nat 10 0 1 w1 = Done id2 w2
    /\ TimerQueue_doTimer 20 w2 = Done tt w3
    /\ exists evs,
         trace w3 = trace world0 ++ evs
         /\ before (EvTimerCallback 100 2%nat) (EvTimerCallback 200 1%nat) evs.
Proof.
  destruct (TimerQueue_equal_expiry_order world0 20 10 200 100 1%nat 2%nat 0 1 0 1
              eq_refl queue_ok_world0 eq_refl eq_refl)
    as (id1 & w1 & id2 & w2 & w3 & E1 & E2 & _ & _ & _ & E3 & evs & Htr & _ & Hb);
    [lia|lia|].
  exists id1, w1, id2, w2, w3. split; [exact E1|]. split; [exact E2|].
  split; [exact E3|]. exists evs. split; [exact Htr|]. apply Hb. lia.
Defined.

Lemma not_before_pair {A} (a b : A) : a <> b -> ~ before b a [a; b].
Proof.
  intros Hne (l1 & l2 & l3 & H).
  destruct l1 as [|x [|y l1]]; simpl in H.
  - inversion H. congruence.
  - inversion H as [[E1 E2 E3]]. destruct l2; discriminate.
  - inversion H as [[E1 E2 E3]]. destruct l1; discriminate.
Qed.

(** The claim of C2 fails: timer 1 is added first and timer 2 second,
    both for time 10; the allocator puts timer 1 at the higher address,
    and at time 20 the callback of timer 2 runs first. *)
Lemma equal_expiry_fires_by_address :
  exists w3,
    (TimerQueue_addTimer 200 1%nat 10 0 1 ;;
     TimerQueue_addTimer 100 2%nat 10 0 1 ;;
     TimerQueue_doTimer 20) world0 = Done tt w3
    /\ trace w3 = [EvTimerCallback 100 2%nat; EvTimerCallback 200 1%nat]
    /\ ~ before (EvTimerCallback 200 1%nat) (EvTimerCallback 100 2%nat) (trace w3).
Proof.
  eexists. split; [vm_compute; reflexivity|].
  split; [reflexivity|].
  apply not_before_pair. discriminate.
Qed.

(** C3 as the code has it, in the loop thread with write returning 0. *)
Lemma TcpConnection_send_empty_witness :
  exists w' evs,
    TcpConnection_send conn0 [] (mkWrite 0 0) world_conn = Done conn0 w'
    /\ channels w' = channels world_conn
    /\ trace w' = trace world_conn ++ evs
    /\ evs = [EvSocketWrite 5 [] 0]
    /\ Forall (empty_send_event 5 (mkWrite 0 0)) evs
    /\ pending w' = [FnWriteComplete 12%nat].
Proof.
  destruct (TcpConnection_send_empty conn0 world_conn chan_conn (mkWrite 0 0)
              eq_refl eq_refl) as [Hin _]; [simpl; lia|].
  exact (Hin eq_refl).
Defined.

(** The claim of C3 fails: on a Connected connection with a
    write-complete callback, an idle channel and an empty output buffer,
    a send of no bytes in the loop thread calls write and queues the
    write-complete callback. *)
Lemma send_empty_queues_write_complete :
  exists w',
    TcpConnection_send conn0 [] (mkWrite 0 0) world_conn = Done conn0 w'
    /\ pending world_conn = []
    /\ pending w' = [FnWriteComplete 12%nat]
    /\ trace w' = [EvSocketWrite 5 [] 0].
Proof.
  eexists. split; [vm_compute; reflexivity|].
  split; [reflexivity|]. split; reflexivity.
Qed.

(** C4 with a high-water mark of 4: the socket takes nothing (EWOULDBLOCK)
    and the four bytes go to the empty output buffer. *)
Lemma TcpConnection_sendInLoop_high_water_mark_witness :
  exists w' ch',
    TcpConnection_sendInLoop conn0 abcd (mkWrite (-1) EWOULDBLOCK) world_conn
    = Done (TcpConnection.set_outputBuffer conn0 (ByteBuffer.mk abcd)) w'
    /\ pending w' = [FnHighWaterMark 13%nat 4]
    /\ channels w' !! 100 = Some ch'
    /\ Channel.isWriting ch' = true.
Proof.
  destruct (TcpConnection_sendInLoop_high_water_mark conn0 world_conn chan_conn
              13%nat abcd abcd (mkWrite (-1) EWOULDBLOCK) eq_refl)
    as (w' & ch' & E & _ & Hp & Hc & Hw & _);
    [discriminate|reflexivity|reflexivity|reflexivity|reflexivity|].
  exists w', ch'. split; [exact E|]. split; [exact Hp|]. split; [exact Hc|exact Hw].
Defined.

(** C8 on the Connected connection. *)
Lemma TcpConnection_handleClose_idempotent_witness :
  exists this' w',
    TcpConnection_handleClose conn0 world_conn = Done this' w'
    /\ TcpConnection.m_state this' = kDisconnected
    /\ trace w' = [EvConnectionCallback 10%nat false; EvCloseCallback 14%nat]
    /\ TcpConnection_handleClose this' w' = Done this' w'.
Proof.
  destruct (TcpConnection_handleClose_idempotent conn0 world_conn) as (_ & _ & H).
  apply (H chan_conn 10%nat 14%nat); [discriminate|reflexivity..].
Defined.

(** C9 on one byte read. *)
Lemma TcpConnection_handleRead_dispatch_witness :
  TcpConnection_handleRead conn0 7 (ReadBytes [Byte.x61]) world_conn
  = Done (TcpConnection.set_inputBuffer conn0 (ByteBuffer.mk [Byte.x61]))
      (log_events [EvReadFd 5; EvMessageCallback 11%nat [Byte.x61] 7] world_conn).
Proof.
  destruct (TcpConnection_handleRead_dispatch conn0 world_conn chan_conn 7
              (ReadBytes [Byte.x61]) eq_refl eq_refl) as (H & _ & _ & _).
  apply H; [simpl; lia|reflexivity].
Defined.

(** C10 on the connection after shutdown(). *)
Lemma TcpConnection_send_not_connected_witness :
  TcpConnection_send conn_disconnecting abcd (mkWrite 4 0) world_conn
  = Done conn_disconnecting world_conn
  /\ TcpConnection_send_string conn_disconnecting abcd (mkWrite 4 0) world_conn
     = Done conn_disconnecting world_conn
  /\ TcpConnection_send_buffer conn_disconnecting (ByteBuffer.mk abcd) (mkWrite 4 0)
       world_conn
     = Done (conn_disconnecting, ByteBuffer.mk abcd) world_conn.
Proof.
  apply (TcpConnection_send_not_connected conn_disconnecting world_conn abcd
           (ByteBuffer.mk abcd) (mkWrite 4 0)).
  discriminate.
Defined.

(** ** More about channels and the poller *)



Lemma isWriting_clear e :
  truthy (Z.land (Z.land e (Z.lnot Channel.kWriteEvent)) Channel.kWriteEvent) = false.
Proof.
  rewrite <- Z.land_assoc.
  change (Z.land (Z.lnot Channel.kWriteEvent) Channel.kWriteEvent) with 0.
  now rewrite Z.land_0_r.
Qed.

Lemma Channel_disableWriting_spec c ch w :
  in_loop_thread w ->
  channels w !! c = Some ch ->
  exists ok w' ch',
    Channel_disableWriting c w = Done ok w'
    /\ same_outside_poller w w'
    /\ channels w' !! c = Some ch'
    /\ Channel.isWriting ch' = false
    /\ Channel.m_fd ch' = Channel.m_fd ch.
Proof.
  intros Ht Hc. unfold Channel_disableWriting.
  unfold bind at 1. unfold channel_at at 1. rewrite Hc.
  destruct (Channel_store_update c ch
              (Z.land (Channel.m_events ch) (Z.lnot Channel.kWriteEvent)) w Ht Hc)
    as (ok & w' & ch' & E & Hs & Hc' & He & Hfd).
  exists ok, w', ch'. split; [exact E|]. split; [exact Hs|]. split; [exact Hc'|].
  split; [|exact Hfd]. unfold Channel.isWriting. rewrite He. apply isWriting_clear.
Qed.

Lemma socket_stream_app fd l1 l2 :
  socket_stream fd (l1 ++ l2) = socket_stream fd l1 ++ socket_stream fd l2.
Proof.
  induction l1 as [|e l1 IH]; [reflexivity|].
  destruct e; simpl; rewrite ?IH, ?app_assoc; reflexivity.
Qed.

Lemma socket_stream_wakeup fd w : socket_stream fd (wakeup_events w) = [].
Proof. unfold wakeup_events. now destruct (_ || _). Qed.

Lemma wakeup_events_same w w' :
  current_thread w' = current_thread w ->
  loop w' = loop w ->
  wakeup_events w' = wakeup_events w.
Proof. unfold wakeup_events. now intros -> ->. Qed.

(** [if (f) queueInLoop(bind(f, ...))] on any world. *)
Lemma queue_if_set_spec f mk w :
  queue_if_set f mk w
  = Done tt match f with
            | Some cb => log_events (wakeup_events w) (push_functor (mk cb) w)
            | None => w
            end.
Proof. destruct f; simpl; [apply EventLoop_queueInLoop_spec|reflexivity]. Qed.

(** ** What updateChannel does to the event list *)

(** updateChannel, branch by branch: a refusal leaves the world as it is;
    a New or Deleted channel gets an entry at the end of the event list;
    an Added channel without interest loses its first entry; an Added
    channel with interest gets the mask of its first entry overwritten. *)
Lemma SelectPoller_updateChannel_exact w c ch :
  in_loop_thread w ->
  channels w !! c = Some ch ->
  let m := SelectPoller.m_channels (poller w) in
  let evs := SelectPoller.m_events (poller w) in
  let fd := Channel.m_fd ch in
  exists ok w',
    SelectPoller_updateChannel c w = Done ok w'
    /\ same_outside_poller w w'
    /\ ((ok = false /\ w' = w
         /\ ((Channel.m_index ch = SelectPoller.kNew /\ m !! fd <> None)
             \/ (Channel.m_index ch <> SelectPoller.kNew /\ m !! fd <> Some c)
             \/ (Channel.m_index ch <> SelectPoller.kNew
                 /\ Channel.m_index ch <> SelectPoller.kDeleted
                 /\ Channel.m_index ch <> SelectPoller.kAdded)
             \/ (Channel.m_index ch = SelectPoller.kAdded
                 /\ Channel.isNoneEvent ch = true /\ erase_first c evs = None)
             \/ (Channel.m_index ch = SelectPoller.kAdded
                 /\ Channel.isNoneEvent ch = false
                 /\ modify_first c (Channel.m_events ch) evs = None)))
        \/ (ok = true
            /\ ((Channel.m_index ch = SelectPoller.kNew /\ m !! fd = None)
                \/ (Channel.m_index ch = SelectPoller.kDeleted /\ m !! fd = Some c))
            /\ channels w' = <[c := Channel.set_index ch SelectPoller.kAdded]> (channels w)
            /\ SelectPoller.m_channels (poller w') = <[fd := c]> m
            /\ SelectPoller.m_events (poller w')
               = evs ++ [SelectPoller.mk_event (Channel.m_events ch) c])
        \/ (ok = true
            /\ Channel.m_index ch = SelectPoller.kAdded /\ m !! fd = Some c
            /\ Channel.isNoneEvent ch = true
            /\ channels w' = <[c := Channel.set_index ch SelectPoller.kDeleted]> (channels w)
            /\ SelectPoller.m_channels (poller w') = m
            /\ erase_first c evs = Some (SelectPoller.m_events (poller w')))
        \/ (ok = true
            /\ Channel.m_index ch = SelectPoller.kAdded /\ m !! fd = Some c
            /\ Channel.isNoneEvent ch = false
            /\ channels w' = channels w
            /\ SelectPoller.m_channels (poller w') = m
            /\ modify_first c (Channel.m_events ch) evs
               = Some (SelectPoller.m_events (poller w')))).
Proof.
  intros Ht Hc m evs fd. subst m evs fd.
  unfold SelectPoller_updateChannel, SelectPoller_assertInLoopThread.
  run_assert Ht.
  run_channel_at Hc.
  unfold bind at 1. unfold gets at 1.
  destruct (Z.eqb_spec (Channel.m_index ch) SelectPoller.kNew) as [Hn|Hn]; simpl.
  - destruct (SelectPoller.m_channels (poller w) !! Channel.m_fd ch) eqn:Hm.
    + exists false, w. split; [reflexivity|]. split; [repeat split|].
      left. split; [reflexivity|]. split; [reflexivity|]. left. split; [exact Hn|].
      discriminate.
    + unfold bind at 1. unfold modify at 1.
      unfold bind at 1. erewrite Channel_set_index_ok by (simpl; exact Hc).
      erewrite SelectPoller_update_ADD by (simpl; apply lookup_insert_eq).
      eexists _, _. split; [reflexivity|]. split; [repeat split|].
      right. left. split; [reflexivity|]. split; [left; split; [exact Hn|reflexivity]|].
      simpl. repeat split.
  - destruct (Z.eqb_spec (Channel.m_index ch) SelectPoller.kDeleted) as [Hd|Hd]; simpl.
    + destruct (SelectPoller.m_channels (poller w) !! Channel.m_fd ch) as [p|] eqn:Hm.
      2:{ exists false, w. split; [reflexivity|]. split; [repeat split|].
          left. split; [reflexivity|]. split; [reflexivity|].
          right. left. split; [exact Hn|discriminate]. }
      destruct (Z.eqb_spec p c) as [->|Hne]; simpl.
      2:{ exists false, w. split; [reflexivity|]. split; [repeat split|].
          left. split; [reflexivity|]. split; [reflexivity|].
          right. left. split; [exact Hn|congruence]. }
      unfold bind at 1. erewrite Channel_set_index_ok by exact Hc.
      erewrite SelectPoller_update_ADD by (simpl; apply lookup_insert_eq).
      eexists _, _. split; [reflexivity|]. split; [repeat split|].
      right. left. split; [reflexivity|]. split; [right; split; [exact Hd|reflexivity]|].
      simpl. split; [reflexivity|].
      split; [symmetry; now apply insert_id|reflexivity].
    + destruct (SelectPoller.m_channels (poller w) !! Channel.m_fd ch) as [p|] eqn:Hm.
      2:{ exists false, w. split; [reflexivity|]. split; [repeat split|].
          left. split; [reflexivity|]. split; [reflexivity|].
          right. left. split; [exact Hn|discriminate]. }
      destruct (Z.eqb_spec p c) as [->|Hne]; simpl.
      2:{ exists false, w. split; [reflexivity|]. split; [repeat split|].
          left. split; [reflexivity|]. split; [reflexivity|].
          right. left. split; [exact Hn|congruence]. }
      destruct (Z.eqb_spec (Channel.m_index ch) SelectPoller.kAdded) as [Hi|Hi]; simpl.
      2:{ exists false, w. split; [reflexivity|]. split; [repeat split|].
          left. split; [reflexivity|]. split; [reflexivity|].
          right. right. left. tauto. }
      destruct (Channel.isNoneEvent ch) eqn:Hnone.
      * unfold bind at 1. rewrite (SelectPoller_update_DEL _ _ _ Hc).
        destruct (erase_first c (SelectPoller.m_events (poller w))) as [evs|] eqn:Ee.
        -- unfold bind at 1. erewrite Channel_set_index_ok by (simpl; exact Hc).
           eexists _, _. split; [reflexivity|]. split; [repeat split|].
           right. right. left. repeat split; assumption.
        -- exists false, w. split; [reflexivity|]. split; [repeat split|].
           left. split; [reflexivity|]. split; [reflexivity|].
           right. right. right. left. tauto.
      * rewrite (SelectPoller_update_MOD _ _ _ Hc).
        destruct (modify_first _ _ _) eqn:Ee.
        -- eexists _, _. split; [reflexivity|]. split; [repeat split|].
           right. right. right. repeat split; assumption.
        -- exists false, w. split; [reflexivity|]. split; [repeat split|].
           left. split; [reflexivity|]. split; [reflexivity|].
           right. right. right. right. tauto.
Qed.

(** ** The event list follows the channels *)

Lemma entries_of_app c l1 l2 :
  entries_of c (l1 ++ l2) = entries_of c l1 ++ entries_of c l2.
Proof. apply List.filter_app. Qed.

Lemma erase_first_entries c evs evs' :
  erase_first c evs = Some evs' ->
  entries_of c evs' = tl (entries_of c evs)
  /\ forall c', c' <> c -> entries_of c' evs' = entries_of c' evs.
Proof.
  revert evs'. induction evs as [|e r IH]; intros evs' H; [discriminate|].
  simpl in H. destruct (Z.eqb_spec (SelectPoller.data_ptr e) c) as [Ee|Ee].
  - inversion H; subst evs'. split.
    + simpl. rewrite Ee, Z.eqb_refl. reflexivity.
    + intros c' Hc'. simpl. rewrite Ee.
      destruct (Z.eqb_spec c c'); [congruence|reflexivity].
  - destruct (erase_first c r) as [r'|]; [|discriminate].
    inversion H; subst evs'. destruct (IH r' eq_refl) as [IH1 IH2]. split.
    + simpl. destruct (Z.eqb_spec (SelectPoller.data_ptr e) c); [contradiction|].
      exact IH1.
    + intros c' Hc'. simpl. rewrite (IH2 c' Hc'). reflexivity.
Qed.

Lemma modify_first_entries c ev evs evs' :
  modify_first c ev evs = Some evs' ->
  entries_of c evs' = SelectPoller.mk_event ev c :: tl (entries_of c evs)
  /\ forall c', c' <> c -> entries_of c' evs' = entries_of c' evs.
Proof.
  revert evs'. induction evs as [|e r IH]; intros evs' H; [discriminate|].
  simpl in H. destruct (Z.eqb_spec (SelectPoller.data_ptr e) c) as [Ee|Ee].
  - inversion H; subst evs'. split.
    + simpl. rewrite Ee, Z.eqb_refl. reflexivity.
    + intros c' Hc'. simpl. rewrite Ee.
      destruct (Z.eqb_spec c c'); [congruence|reflexivity].
  - destruct (modify_first c ev r) as [r'|]; [|discriminate].
    inversion H; subst evs'. destruct (IH r' eq_refl) as [IH1 IH2]. split.
    + simpl. destruct (Z.eqb_spec (SelectPoller.data_ptr e) c); [contradiction|].
      exact IH1.
    + intros c' Hc'. simpl. rewrite (IH2 c' Hc'). reflexivity.
Qed.

Lemma erase_first_None c evs : erase_first c evs = None -> entries_of c evs = [].
Proof.
  induction evs as [|e r IH]; [reflexivity|]. simpl.
  destruct (SelectPoller.data_ptr e =? c); [discriminate|].
  destruct (erase_first c r); [discriminate|]. auto.
Qed.

Lemma modify_first_None c ev evs : modify_first c ev evs = None -> entries_of c evs = [].
Proof.
  induction evs as [|e r IH]; [reflexivity|]. simpl.
  destruct (SelectPoller.data_ptr e =? c); [discriminate|].
  destruct (modify_first c ev r); [discriminate|]. auto.
Qed.

(** A new interest mask stored in a channel and passed to the poller:
    the poller follows, and it refuses only a channel that is not
    registered and cannot be. *)
Lemma Channel_store_update_watch c ch ev w :
  watch_inv w ->
  in_loop_thread w ->
  channels w !! c = Some ch ->
  exists ok w' ch',
    (store_channel c (Channel.set_events ch ev) ;; Channel_update c) w = Done ok w'
    /\ watch_inv w'
    /\ in_loop_thread w'
    /\ channels w' !! c = Some ch'
    /\ Channel.m_events ch' = ev
    /\ (ok = false ->
        Channel.m_index ch <> SelectPoller.kAdded
        /\ Channel.m_index ch <> SelectPoller.kDeleted
        /\ (Channel.m_index ch = SelectPoller.kNew ->
            SelectPoller.m_channels (poller w) !! Channel.m_fd ch <> None)).
Proof.
  intros Hinv Ht Hc. unfold bind at 1. unfold store_channel, modify.
  set (ch0 := Channel.set_events ch ev).
  set (w0 := set_channels _ w).
  assert (Ht0 : in_loop_thread w0) by exact Ht.
  assert (Hc0 : channels w0 !! c = Some ch0) by apply lookup_insert_eq.
  destruct (Hinv c ch Hc) as (Hreg & Hdel & Hent).
  assert (Hoth : forall c' ch', c' <> c -> channels w0 !! c' = Some ch' -> watched w c' ch').
  { intros c' ch' Hne Hl. apply Hinv. unfold w0 in Hl. simpl in Hl.
    now rewrite lookup_insert_ne in Hl by congruence. }
  unfold Channel_update, EventLoop_updateChannel.
  destruct (SelectPoller_updateChannel_exact w0 c ch0 Ht0 Hc0)
    as (ok & w' & E & Hsame & Hcase).
  assert (Ht' : in_loop_thread w') by (eapply same_outside_poller_thread; eauto).
  change (Channel.m_index ch0) with (Channel.m_index ch) in Hcase.
  change (Channel.m_fd ch0) with (Channel.m_fd ch) in Hcase.
  change (poller w0) with (poller w) in Hcase.
  change (Channel.isNoneEvent ch0) with (ev =? Channel.kNoneEvent) in Hcase.
  change (Channel.m_events ch0) with ev in Hcase.
  cbv zeta in Hcase.
  destruct Hcase as [(-> & -> & Hwhy)|[(-> & Hidx & Hh & Hm & He)
                    |[(-> & Hi & Hm & Hnone & Hh & Hm' & He)
                     |(-> & Hi & Hm & Hnone & Hh & Hm' & He)]]].
  - (* refused *)
    assert (Hno : Channel.m_index ch <> SelectPoller.kAdded
                  /\ Channel.m_index ch <> SelectPoller.kDeleted
                  /\ (Channel.m_index ch = SelectPoller.kNew ->
                      SelectPoller.m_channels (poller w) !! Channel.m_fd ch <> None)).
    { destruct Hwhy as [[Hn Hm]|[[Hn Hm]|[(Hn & Hd & Ha)|[(Ha & _ & Hx)|(Ha & _ & Hx)]]]].
      - rewrite Hn. repeat split; [discriminate|discriminate|auto].
      - repeat split; try (intros Hx; apply Hm, Hreg; tauto). intros; contradiction.
      - repeat split; try assumption. intros; contradiction.
      - exfalso. apply erase_first_None in Hx. rewrite Hx, Ha in Hent. discriminate.
      - exfalso. apply modify_first_None in Hx. rewrite Hx, Ha in Hent. discriminate. }
    exists false, w0, ch0. split; [exact E|]. split; [|split; [exact Ht0|]].
    + intros c' ch' Hl. destruct (Z.eq_dec c' c) as [->|Hne].
      * rewrite Hc0 in Hl. inversion Hl; subst ch'. split; [|split].
        -- intros [Hx|Hx]; exfalso; tauto.
        -- intros Hx. exfalso. tauto.
        -- change (poller w0) with (poller w).
           change (Channel.m_index ch0) with (Channel.m_index ch).
           rewrite Hent.
           destruct (Z.eqb_spec (Channel.m_index ch) SelectPoller.kAdded); [tauto|reflexivity].
      * exact (Hoth c' ch' Hne Hl).
    + split; [exact Hc0|]. split; [reflexivity|]. intros _. exact Hno.
  - (* added at the end *)
    assert (Hna : (Channel.m_index ch =? SelectPoller.kAdded) = false).
    { destruct Hidx as [[-> _]|[-> _]]; reflexivity. }
    rewrite Hna in Hent.
    exists true, w', (Channel.set_index ch0 SelectPoller.kAdded).
    split; [exact E|]. split; [|split; [exact Ht'|]].
    + intros c' ch' Hl. rewrite Hh in Hl. destruct (Z.eq_dec c' c) as [->|Hne].
      * rewrite lookup_insert_eq in Hl. inversion Hl; subst ch'. split; [|split].
        -- intros _. rewrite Hm. apply lookup_insert_eq.
        -- discriminate.
        -- rewrite He, entries_of_app, Hent. simpl. rewrite Z.eqb_refl. reflexivity.
      * rewrite lookup_insert_ne in Hl by congruence.
        destruct (Hoth c' ch' Hne Hl) as (Hreg' & Hdel' & Hent'). split; [|split; [exact Hdel'|]].
        -- intros Hx. specialize (Hreg' Hx). rewrite Hm.
           destruct (Z.eq_dec (Channel.m_fd ch) (Channel.m_fd ch')) as [Hfd|Hfd].
           ++ exfalso. rewrite <- Hfd in Hreg'.
              destruct Hidx as [[_ Hy]|[_ Hy]]; congruence.
           ++ now rewrite lookup_insert_ne by exact Hfd.
        -- rewrite He, entries_of_app, Hent'. simpl.
           destruct (Z.eqb_spec c c'); [congruence|]. now rewrite app_nil_r.
    + split; [rewrite Hh; apply lookup_insert_eq|]. split; [reflexivity|]. discriminate.
  - (* erased *)
    apply erase_first_entries in He as [He1 He2].
    exists true, w', (Channel.set_index ch0 SelectPoller.kDeleted).
    split; [exact E|]. split; [|split; [exact Ht'|]].
    + intros c' ch' Hl. rewrite Hh in Hl. destruct (Z.eq_dec c' c) as [->|Hne].
      * rewrite lookup_insert_eq in Hl. inversion Hl; subst ch'. split; [|split].
        -- intros _. rewrite Hm'. exact Hm.
        -- intros _. exact Hnone.
        -- rewrite He1, Hent, Hi. reflexivity.
      * rewrite lookup_insert_ne in Hl by congruence.
        destruct (Hoth c' ch' Hne Hl) as (Hreg' & Hdel' & Hent'). split; [|split; [exact Hdel'|]].
        -- rewrite Hm'. exact Hreg'.
        -- rewrite (He2 c' Hne). exact Hent'.
    + split; [rewrite Hh; apply lookup_insert_eq|]. split; [reflexivity|]. discriminate.
  - (* overwritten *)
    apply modify_first_entries in He as [He1 He2].
    exists true, w', ch0.
    split; [exact E|]. split; [|split; [exact Ht'|]].
    + intros c' ch' Hl. rewrite Hh in Hl. destruct (Z.eq_dec c' c) as [->|Hne].
      * rewrite Hc0 in Hl. inversion Hl; subst ch'. split; [|split].
        -- intros _. rewrite Hm'. exact Hm.
        -- change (Channel.m_index ch0) with (Channel.m_index ch). rewrite Hi. discriminate.
        -- rewrite He1, Hent. change (Channel.m_index ch0) with (Channel.m_index ch).
           rewrite Hi. reflexivity.
      * destruct (Hoth c' ch' Hne Hl) as (Hreg' & Hdel' & Hent'). split; [|split; [exact Hdel'|]].
        -- rewrite Hm'. exact Hreg'.
        -- rewrite (He2 c' Hne). exact Hent'.
    + split; [rewrite Hh; exact Hc0|]. split; [reflexivity|]. discriminate.
Qed.

(** ** Interest changes and removal *)

(** X9. The five interest changes of Channel keep the poller's map and event
    list in step with the channels, and the poller refuses a change only for a
    channel that is neither Added nor Deleted and, if New, whose fd is taken. *)
Theorem Channel_interest_keeps_poller_in_step (op : Z -> M bool) (c : Z) (ch : Channel.t)
    (w : World) :
  In op [Channel_enableReading; Channel_disableReading; Channel_enableWriting;
         Channel_disableWriting; Channel_disableAll] ->
  watch_inv w ->
  in_loop_thread w ->
  channels w !! c = Some ch ->
  exists ok w',
    op c w = Done ok w'
    /\ watch_inv w'
    /\ in_loop_thread w'
    /\ (ok = false ->
        Channel.m_index ch <> SelectPoller.kAdded
        /\ Channel.m_index ch <> SelectPoller.kDeleted
        /\ (Channel.m_index ch = SelectPoller.kNew ->
            SelectPoller.m_channels (poller w) !! Channel.m_fd ch <> None)).
Proof.
  intros Hop Hinv Ht Hc.
  assert (H : forall ev,
             exists ok w',
               (store_channel c (Channel.set_events ch ev) ;; Channel_update c) w = Done ok w'
               /\ watch_inv w'
               /\ in_loop_thread w'
               /\ (ok = false ->
                   Channel.m_index ch <> SelectPoller.kAdded
                   /\ Channel.m_index ch <> SelectPoller.kDeleted
                   /\ (Channel.m_index ch = SelectPoller.kNew ->
                       SelectPoller.m_channels (poller w) !! Channel.m_fd ch <> None))).
  { intros ev.
    destruct (Channel_store_update_watch c ch ev w Hinv Ht Hc)
      as (ok & w' & ch' & E & Hinv' & Ht' & _ & _ & Hno).
    exists ok, w'. tauto. }
  simpl in Hop.
  destruct Hop as [<-|[<-|[<-|[<-|[<-|[]]]]]].
  - unfold Channel_enableReading. run_channel_at Hc. apply H.
  - unfold Channel_disableReading. run_channel_at Hc. apply H.
  - unfold Channel_enableWriting. run_channel_at Hc. apply H.
  - unfold Channel_disableWriting. run_channel_at Hc. apply H.
  - unfold Channel_disableAll. run_channel_at Hc. apply H.
Qed.

(** removeChannel never touches the event list: it erases the map entry
    of a channel without interest that its fd maps to, and sets its index
    New. *)
Lemma SelectPoller_removeChannel_exact w c ch :
  in_loop_thread w ->
  channels w !! c = Some ch ->
  exists w',
    SelectPoller_removeChannel c w = Done tt w'
    /\ same_outside_poller w w'
    /\ SelectPoller.m_events (poller w') = SelectPoller.m_events (poller w)
    /\ ((w' = w
         /\ ~ (SelectPoller.m_channels (poller w) !! Channel.m_fd ch = Some c
               /\ Channel.isNoneEvent ch = true))
        \/ (SelectPoller.m_channels (poller w) !! Channel.m_fd ch = Some c
            /\ Channel.isNoneEvent ch = true
            /\ channels w' = <[c := Channel.set_index ch SelectPoller.kNew]> (channels w)
            /\ SelectPoller.m_channels (poller w')
               = delete (Channel.m_fd ch) (SelectPoller.m_channels (poller w)))).
Proof.
  intros Ht Hc.
  unfold SelectPoller_removeChannel, SelectPoller_assertInLoopThread.
  run_assert Ht. run_channel_at Hc.
  unfold bind at 1. unfold gets at 1.
  destruct (SelectPoller.m_channels (poller w) !! Channel.m_fd ch) as [p|] eqn:Hm.
  2:{ exists w. split; [reflexivity|]. split; [repeat split|]. split; [reflexivity|].
      left. split; [reflexivity|]. intros [Hx _]. discriminate. }
  destruct (Z.eqb_spec p c) as [->|Hne]; simpl.
  2:{ exists w. split; [reflexivity|]. split; [repeat split|]. split; [reflexivity|].
      left. split; [reflexivity|]. intros [Hx _]. congruence. }
  destruct (Channel.isNoneEvent ch) eqn:Hnone; simpl.
  2:{ exists w. split; [reflexivity|]. split; [repeat split|]. split; [reflexivity|].
      left. split; [reflexivity|]. intros [_ Hx]. discriminate. }
  unfold bind at 1. unfold modify at 1.
  erewrite Channel_set_index_ok by (simpl; exact Hc).
  eexists. split; [reflexivity|]. split; [repeat split|]. split; [reflexivity|].
  right. repeat split.
Qed.

(** X10. Channel::remove of a channel whose index is Deleted takes it out of
    the poller's map and makes it New again, the poller staying in step; a
    channel that still has interest is left registered; the event list is
    never touched. *)
Theorem Channel_remove_unregisters (c : Z) (ch : Channel.t) (w : World) :
  watch_inv w ->
  in_loop_thread w ->
  channels w !! c = Some ch ->
  exists w',
    Channel_remove c w = Done tt w'
    /\ in_loop_thread w'
    /\ SelectPoller.m_events (poller w') = SelectPoller.m_events (poller w)
    /\ (Channel.m_index ch = SelectPoller.kDeleted ->
        watch_inv w'
        /\ SelectPoller.m_channels (poller w')
           = delete (Channel.m_fd ch) (SelectPoller.m_channels (poller w))
        /\ channels w' = <[c := Channel.set_index ch SelectPoller.kNew]> (channels w))
    /\ (Channel.isNoneEvent ch = false -> w' = w).
Proof.
  intros Hinv Ht Hc. unfold Channel_remove. run_channel_at Hc.
  destruct (Channel.isNoneEvent ch) eqn:Hnone; simpl.
  2:{ exists w. unfold ret. split; [reflexivity|]. split; [exact Ht|].
      split; [reflexivity|]. split; [|reflexivity].
      intros Hd. destruct (Hinv c ch Hc) as (_ & Hx & _). specialize (Hx Hd). congruence. }
  unfold EventLoop_removeChannel.
  destruct (SelectPoller_removeChannel_exact w c ch Ht Hc)
    as (w' & E & Hsame & Hev & Hcase).
  exists w'. split; [exact E|].
  split; [eapply same_outside_poller_thread; eauto|].
  split; [exact Hev|]. split; [|discriminate].
  intros Hd. destruct (Hinv c ch Hc) as (Hreg & _ & Hent).
  assert (Hm : SelectPoller.m_channels (poller w) !! Channel.m_fd ch = Some c)
    by (apply Hreg; now right).
  destruct Hcase as [[_ Hn]|(_ & _ & Hh & Hm')]; [exfalso; apply Hn; tauto|].
  split; [|split; [exact Hm'|exact Hh]].
  intros c' ch' Hl. rewrite Hh in Hl. destruct (Z.eq_dec c' c) as [->|Hne].
  - rewrite lookup_insert_eq in Hl. inversion Hl; subst ch'. simpl. split; [|split].
    + intros [Hx|Hx]; discriminate.
    + discriminate.
    + rewrite Hev, Hent, Hd. reflexivity.
  - rewrite lookup_insert_ne in Hl by congruence.
    destruct (Hinv c' ch' Hl) as (Hreg' & Hdel' & Hent'). split; [|split].
    + intros Hx. specialize (Hreg' Hx). rewrite Hm'.
      destruct (Z.eq_dec (Channel.m_fd ch) (Channel.m_fd ch')) as [Hfd|Hfd].
      * exfalso. rewrite <- Hfd in Hreg'. congruence.
      * now rewrite lookup_delete_ne by exact Hfd.
    + exact Hdel'.
    + rewrite Hev. exact Hent'.
Qed.

Lemma same_outside_poller_trans w1 w2 w3 :
  same_outside_poller w1 w2 -> same_outside_poller w2 w3 -> same_outside_poller w1 w3.
Proof.
  unfold same_outside_poller.
  intros (a1 & a2 & a3 & a4 & a5 & a6 & a7 & a8) (b1 & b2 & b3 & b4 & b5 & b6 & b7 & b8).
  repeat split; congruence.
Qed.

Lemma same_outside_poller_store c ch w :
  same_outside_poller w (set_channels (<[c := ch]> (channels w)) w).
Proof. repeat split. Qed.

(** The first interest of a New channel whose fd is free registers it. *)
Lemma Channel_store_update_new c ch ev w :
  in_loop_thread w ->
  channels w !! c = Some ch ->
  Channel.m_index ch = SelectPoller.kNew ->
  SelectPoller.m_channels (poller w) !! Channel.m_fd ch = None ->
  exists w',
    (store_channel c (Channel.set_events ch ev) ;; Channel_update c) w = Done true w'
    /\ same_outside_poller w w'
    /\ channels w'
       = <[c := Channel.set_index (Channel.set_events ch ev) SelectPoller.kAdded]>
           (channels w)
    /\ SelectPoller.m_channels (poller w')
       = <[Channel.m_fd ch := c]> (SelectPoller.m_channels (poller w))
    /\ SelectPoller.m_events (poller w')
       = SelectPoller.m_events (poller w) ++ [SelectPoller.mk_event ev c].
Proof.
  intros Ht Hc Hi Hm. unfold bind at 1. unfold store_channel, modify.
  set (ch0 := Channel.set_events ch ev).
  set (w0 := set_channels _ w).
  assert (Ht0 : in_loop_thread w0) by exact Ht.
  assert (Hc0 : channels w0 !! c = Some ch0) by apply lookup_insert_eq.
  unfold Channel_update, EventLoop_updateChannel.
  destruct (SelectPoller_updateChannel_exact w0 c ch0 Ht0 Hc0)
    as (ok & w' & E & Hsame & Hcase).
  change (Channel.m_index ch0) with (Channel.m_index ch) in Hcase.
  change (Channel.m_fd ch0) with (Channel.m_fd ch) in Hcase.
  change (poller w0) with (poller w) in Hcase.
  cbv zeta in Hcase. rewrite Hi, Hm in Hcase.
  destruct Hcase as [(_ & _ & Hwhy)|[(-> & _ & Hh & Hm' & He)
                    |[(_ & Hx & _)|(_ & Hx & _)]]]; try discriminate.
  - exfalso.
    destruct Hwhy as [[_ Hx]|[[Hx _]|[(Hx & _)|[(Hx & _)|(Hx & _)]]]];
      try discriminate; try (now apply Hx).
  - exists w'. split; [exact E|].
    split; [eapply same_outside_poller_trans; [apply same_outside_poller_store|exact Hsame]|].
    split; [rewrite Hh; unfold w0; simpl; apply insert_insert_eq|].
    split; [exact Hm'|exact He].
Qed.

(** Dropping all interest of an Added channel that has an entry in the
    event list erases the entry and leaves the channel Deleted. *)
Lemma Channel_store_update_none c ch evs' w :
  in_loop_thread w ->
  channels w !! c = Some ch ->
  Channel.m_index ch = SelectPoller.kAdded ->
  SelectPoller.m_channels (poller w) !! Channel.m_fd ch = Some c ->
  erase_first c (SelectPoller.m_events (poller w)) = Some evs' ->
  exists w',
    (store_channel c (Channel.set_events ch Channel.kNoneEvent) ;; Channel_update c) w
    = Done true w'
    /\ same_outside_poller w w'
    /\ channels w'
       = <[c := Channel.set_index (Channel.set_events ch Channel.kNoneEvent)
                  SelectPoller.kDeleted]> (channels w)
    /\ SelectPoller.m_channels (poller w') = SelectPoller.m_channels (poller w)
    /\ SelectPoller.m_events (poller w') = evs'.
Proof.
  intros Ht Hc Hi Hm He0. unfold bind at 1. unfold store_channel, modify.
  set (ch0 := Channel.set_events ch Channel.kNoneEvent).
  set (w0 := set_channels _ w).
  assert (Ht0 : in_loop_thread w0) by exact Ht.
  assert (Hc0 : channels w0 !! c = Some ch0) by apply lookup_insert_eq.
  unfold Channel_update, EventLoop_updateChannel.
  destruct (SelectPoller_updateChannel_exact w0 c ch0 Ht0 Hc0)
    as (ok & w' & E & Hsame & Hcase).
  change (Channel.m_index ch0) with (Channel.m_index ch) in Hcase.
  change (Channel.m_fd ch0) with (Channel.m_fd ch) in Hcase.
  change (poller w0) with (poller w) in Hcase.
  change (Channel.isNoneEvent ch0) with true in Hcase.
  cbv zeta in Hcase. rewrite Hi, Hm, He0 in Hcase.
  destruct Hcase as [(_ & _ & Hwhy)|[(_ & Hx & _)
                    |[(-> & _ & _ & _ & Hh & Hm' & He)|(_ & _ & _ & Hx & _)]]];
    try discriminate.
  - exfalso.
    destruct Hwhy as [[Hx _]|[[_ Hx]|[(_ & _ & Hx)|[(_ & _ & Hx)|(_ & Hx & _)]]]];
      try discriminate; try (now apply Hx).
  - exfalso. destruct Hx as [[Hx _]|[Hx _]]; discriminate.
  - exists w'. split; [exact E|].
    split; [eapply same_outside_poller_trans; [apply same_outside_poller_store|exact Hsame]|].
    split; [rewrite Hh; unfold w0; simpl; apply insert_insert_eq|].
    split; [exact Hm'|]. now inversion He.
Qed.

Lemma erase_first_last c evs e :
  entries_of c evs = [] ->
  SelectPoller.data_ptr e = c ->
  erase_first c (evs ++ [e]) = Some evs.
Proof.
  intros Hnone He. induction evs as [|x r IH]; simpl.
  - now rewrite He, Z.eqb_refl.
  - simpl in Hnone. destruct (SelectPoller.data_ptr x =? c); [discriminate|].
    now rewrite (IH Hnone).
Qed.

(** X11. Round trip: a fresh channel (index New, no interest) whose fd is free
    and that has no entry in the event list is registered by enableReading,
    and hasChannel then says so; disableAll followed by remove puts the
    channels, the poller's map and its event list back as they were, and
    hasChannel says no. *)
Theorem Channel_register_unregister_round_trip (c : Z) (ch : Channel.t) (w : World) :
  in_loop_thread w ->
  channels w !! c = Some ch ->
  Channel.m_index ch = SelectPoller.kNew ->
  Channel.m_events ch = Channel.kNoneEvent ->
  SelectPoller.m_channels (poller w) !! Channel.m_fd ch = None ->
  entries_of c (SelectPoller.m_events (poller w)) = [] ->
  exists w1 w',
    Channel_enableReading c w = Done true w1
    /\ SelectPoller.m_channels (poller w1) !! Channel.m_fd ch = Some c
    /\ index_of w1 c = SelectPoller.kAdded
    /\ SelectPoller_hasChannel c w1 = Done true w1
    /\ (Channel_disableAll c ;; Channel_remove c) w1 = Done tt w'
    /\ SelectPoller_hasChannel c w' = Done false w'
    /\ channels w' = channels w
    /\ SelectPoller.m_channels (poller w') = SelectPoller.m_channels (poller w)
    /\ SelectPoller.m_events (poller w') = SelectPoller.m_events (poller w)
    /\ same_outside_poller w w'.
Proof.
  intros Ht Hc Hi He Hm Hent.
  (* enableReading *)
  destruct (Channel_store_update_new c ch
              (Z.lor (Channel.m_events ch) Channel.kReadEvent) w Ht Hc Hi Hm)
    as (w1 & E1 & Hs1 & Hh1 & Hm1 & He1).
  set (ch1 := Channel.set_index
                (Channel.set_events ch (Z.lor (Channel.m_events ch) Channel.kReadEvent))
                SelectPoller.kAdded) in *.
  assert (Ht1 : in_loop_thread w1) by (eapply same_outside_poller_thread; eauto).
  assert (Hc1 : channels w1 !! c = Some ch1) by (rewrite Hh1; apply lookup_insert_eq).
  (* disableAll *)
  assert (Hm1' : SelectPoller.m_channels (poller w1) !! Channel.m_fd ch1 = Some c)
    by (rewrite Hm1; apply lookup_insert_eq).
  assert (Hev1 : erase_first c (SelectPoller.m_events (poller w1))
                 = Some (SelectPoller.m_events (poller w))).
  { rewrite He1. now apply erase_first_last. }
  destruct (Channel_store_update_none c ch1 _ w1 Ht1 Hc1 eq_refl Hm1' Hev1)
    as (w2 & E2 & Hs2 & Hh2 & Hm2 & He2).
  set (ch2 := Channel.set_index (Channel.set_events ch1 Channel.kNoneEvent)
                SelectPoller.kDeleted) in *.
  assert (Ht2 : in_loop_thread w2) by (eapply same_outside_poller_thread; eauto).
  assert (Hc2 : channels w2 !! c = Some ch2) by (rewrite Hh2; apply lookup_insert_eq).
  (* remove *)
  destruct (SelectPoller_removeChannel_exact w2 c ch2 Ht2 Hc2)
    as (w3 & E3 & Hs3 & He3 & Hcase).
  assert (Hm2' : SelectPoller.m_channels (poller w2) !! Channel.m_fd ch2 = Some c)
    by (rewrite Hm2; exact Hm1').
  destruct Hcase as [[_ Hn]|(_ & _ & Hh3 & Hm3)]; [exfalso; apply Hn; now split|].
  exists w1, w3.
  split; [unfold Channel_enableReading; run_channel_at Hc; exact E1|].
  split; [exact Hm1'|].
  split; [unfold index_of; now rewrite Hc1|].
  assert (Hh' : channels w3 = channels w).
  { rewrite Hh3, Hh2, Hh1, !insert_insert_eq.
    apply insert_id. rewrite Hc. f_equal.
    destruct ch. simpl in *. subst. reflexivity. }
  assert (Hm' : SelectPoller.m_channels (poller w3) = SelectPoller.m_channels (poller w)).
  { rewrite Hm3, Hm2, Hm1. now apply delete_insert_id. }
  assert (Ht3 : in_loop_thread w3) by (eapply same_outside_poller_thread; eauto).
  split.
  { unfold SelectPoller_hasChannel, SelectPoller_assertInLoopThread.
    run_assert Ht1. run_channel_at Hc1. unfold bind, gets, ret.
    rewrite Hm1'. now rewrite Z.eqb_refl. }
  split.
  { unfold bind at 1. unfold Channel_disableAll. run_channel_at Hc1. rewrite E2.
    unfold Channel_remove. run_channel_at Hc2. simpl. exact E3. }
  split.
  { unfold SelectPoller_hasChannel, SelectPoller_assertInLoopThread.
    run_assert Ht3. unfold bind at 1. unfold channel_at at 1. rewrite Hh', Hc.
    unfold bind, gets, ret. now rewrite Hm', Hm. }
  split; [exact Hh'|].
  split; [exact Hm'|].
  split; [now rewrite He3, He2|].
  eapply same_outside_poller_trans; [exact Hs1|].
  eapply same_outside_poller_trans; [exact Hs2|exact Hs3].
Qed.

(** ** SelectPoller::poll *)

Lemma ChannelMap_entries_elem (m : gmap Z Z) fd c :
  (fd, c) ∈ ChannelMap_entries m <-> m !! fd = Some c.
Proof.
  unfold ChannelMap_entries.
  rewrite (merge_sort_Permutation fd_le (map_to_list m)).
  apply elem_of_map_to_list.
Qed.

Lemma ChannelMap_entries_NoDup (m : gmap Z Z) : NoDup (ChannelMap_entries m).
Proof.
  unfold ChannelMap_entries.
  rewrite (merge_sort_Permutation fd_le (map_to_list m)).
  apply NoDup_map_to_list.
Qed.

Lemma fd_le_total : Total fd_le.
Proof. intros a b. unfold fd_le. lia. Qed.

Lemma fd_le_trans : Transitive fd_le.
Proof. intros a b c. unfold fd_le. lia. Qed.

(** The loop over the map goes by increasing fd. *)
Lemma ChannelMap_entries_sorted (m : gmap Z Z) :
  StronglySorted (fun a b => fst a < fst b) (ChannelMap_entries m).
Proof.
  pose proof (ChannelMap_entries_NoDup m) as Hnd.
  assert (Hkey : forall fd c c', (fd, c) ∈ ChannelMap_entries m ->
                                 (fd, c') ∈ ChannelMap_entries m -> c = c').
  { intros fd c c' H1 H2. apply ChannelMap_entries_elem in H1, H2. congruence. }
  assert (Hs : StronglySorted fd_le (ChannelMap_entries m)).
  { unfold ChannelMap_entries.
    apply (@StronglySorted_merge_sort _ fd_le fd_le_dec fd_le_trans fd_le_total). }
  induction Hs as [|a l Hs IH Hall]; [constructor|].
  apply NoDup_cons in Hnd as [Hna Hnd].
  constructor.
  - apply IH; [exact Hnd|].
    intros fd c c' H1 H2. apply (Hkey fd); now right.
  - rewrite List.Forall_forall in Hall |- *. intros b Hb.
    specialize (Hall b Hb). unfold fd_le in Hall.
    destruct (Z.eq_dec (fst a) (fst b)) as [Heq|Hne]; [|lia].
    exfalso. apply Hna. apply list_elem_of_In in Hb.
    destruct a as [fa ca], b as [fb cb]. simpl in Heq. subst fb.
    assert (ca = cb) by (apply (Hkey fa); [now left|now right]).
    now subst.
Qed.

(** The first loop of poll returns, leaves the world alone, puts in each
    set the fds whose channel has the interest, and finds the largest fd. *)
Lemma poll_fd_sets_spec es : forall maxfd rs ws w,
  (forall fd c, (fd, c) ∈ es -> fd_in_range fd = true /\ is_Some (channels w !! c)) ->
  exists maxfd' rs' ws',
    poll_fd_sets es maxfd rs ws w = Done (maxfd', rs', ws') w
    /\ (forall fd, fd ∈ rs' <->
          fd ∈ rs \/ exists c ch, (fd, c) ∈ es /\ channels w !! c = Some ch
                                  /\ truthy (Z.land (Channel.m_events ch) XPOLLIN) = true)
    /\ (forall fd, fd ∈ ws' <->
          fd ∈ ws \/ exists c ch, (fd, c) ∈ es /\ channels w !! c = Some ch
                                  /\ truthy (Z.land (Channel.m_events ch) XPOLLOUT) = true)
    /\ maxfd <= maxfd'
    /\ (forall fd c, (fd, c) ∈ es -> fd <= maxfd')
    /\ (maxfd' = maxfd \/ exists c, (maxfd', c) ∈ es).
Proof.
  induction es as [|[fd0 c0] r IH]; intros maxfd rs ws w Hok.
  - exists maxfd, rs, ws. split; [reflexivity|].
    split; [intros fd; split; [tauto|intros [H|(c & ch & H & _)]; [exact H|inversion H]]|].
    split; [intros fd; split; [tauto|intros [H|(c & ch & H & _)]; [exact H|inversion H]]|].
    split; [lia|]. split; [intros fd c H; inversion H|now left].
  - destruct (Hok fd0 c0 (list_elem_of_here _ _)) as [Hr [ch0 Hc0]].
    simpl. unfold bind at 1. unfold channel_at at 1. rewrite Hc0.
    set (maxfd1 := if fd0 >? maxfd then fd0 else maxfd).
    set (rs1 := if truthy (Z.land (Channel.m_events ch0) XPOLLIN)
                then {[fd0]} ∪ rs else rs).
    set (ws1 := if truthy (Z.land (Channel.m_events ch0) XPOLLOUT)
                then {[fd0]} ∪ ws else ws).
    assert (E1 : (if truthy (Z.land (Channel.m_events ch0) XPOLLIN)
                  then FD_SET fd0 rs else ret rs) w = Done rs1 w).
    { unfold rs1, FD_SET. rewrite Hr.
      now destruct (truthy (Z.land (Channel.m_events ch0) XPOLLIN)). }
    unfold bind at 1. rewrite E1.
    assert (E2 : (if truthy (Z.land (Channel.m_events ch0) XPOLLOUT)
                  then FD_SET fd0 ws else ret ws) w = Done ws1 w).
    { unfold ws1, FD_SET. rewrite Hr.
      now destruct (truthy (Z.land (Channel.m_events ch0) XPOLLOUT)). }
    unfold bind at 1. rewrite E2.
    destruct (IH maxfd1 rs1 ws1 w) as (maxfd' & rs' & ws' & E & Hrs & Hws & Hle & Hall & Hmax).
    { intros fd c H. apply Hok. now right. }
    exists maxfd', rs', ws'. split; [exact E|].
    assert (Hm1 : maxfd <= maxfd1 /\ fd0 <= maxfd1 /\ (maxfd1 = maxfd \/ maxfd1 = fd0)).
    { unfold maxfd1. destruct (Z.gtb_spec fd0 maxfd); lia. }
    split; [|split; [|split; [lia|split]]].
    + intros fd. rewrite Hrs. unfold rs1. split.
      * intros [H|(c & ch & H & Hc & Hi)].
        -- destruct (truthy (Z.land (Channel.m_events ch0) XPOLLIN)) eqn:Et.
           ++ apply elem_of_union in H as [H|H]; [|now left].
              apply elem_of_singleton in H. subst fd.
              right. exists c0, ch0. split; [left|]. tauto.
           ++ now left.
        -- right. exists c, ch. split; [now right|tauto].
      * intros [H|(c & ch & H & Hc & Hi)].
        -- left. destruct (truthy (Z.land (Channel.m_events ch0) XPOLLIN));
             [apply elem_of_union; now right|exact H].
        -- apply elem_of_cons in H as [H|H].
           ++ inversion H; subst fd c. rewrite Hc0 in Hc. inversion Hc; subst ch.
              left. rewrite Hi. apply elem_of_union. left. now apply elem_of_singleton.
           ++ right. exists c, ch. tauto.
    + intros fd. rewrite Hws. unfold ws1. split.
      * intros [H|(c & ch & H & Hc & Hi)].
        -- destruct (truthy (Z.land (Channel.m_events ch0) XPOLLOUT)) eqn:Et.
           ++ apply elem_of_union in H as [H|H]; [|now left].
              apply elem_of_singleton in H. subst fd.
              right. exists c0, ch0. split; [left|]. tauto.
           ++ now left.
        -- right. exists c, ch. split; [now right|tauto].
      * intros [H|(c & ch & H & Hc & Hi)].
        -- left. destruct (truthy (Z.land (Channel.m_events ch0) XPOLLOUT));
             [apply elem_of_union; now right|exact H].
        -- apply elem_of_cons in H as [H|H].
           ++ inversion H; subst fd c. rewrite Hc0 in Hc. inversion Hc; subst ch.
              left. rewrite Hi. apply elem_of_union. left. now apply elem_of_singleton.
           ++ right. exists c, ch. tauto.
    + intros fd c H. apply elem_of_cons in H as [H|H].
      * inversion H; subst. lia.
      * now apply (Hall fd c).
    + destruct Hmax as [Hmax|[c Hmax]].
      * destruct Hm1 as (_ & _ & [Hx|Hx]).
        -- left. lia.
        -- right. exists c0. rewrite Hmax, Hx. left.
      * right. exists c. now right.
Qed.

Lemma set_channels_same w : set_channels (channels w) w = w.
Proof. now destruct w. Qed.

(** The two tests of one round of the loop of fillActiveChannels. *)
Lemma fillActiveChannels_step {A} fd c ch rs ws (k : bool -> bool -> M A) w :
  fd_in_range fd = true ->
  channels w !! c = Some ch ->
  (rd <- FD_ISSET fd rs ;;
   when rd (Channel_add_revents c XPOLLIN) ;;
   wr <- FD_ISSET fd ws ;;
   when wr (Channel_add_revents c XPOLLOUT) ;;
   k rd wr) w
  = k (bool_decide (fd ∈ rs)) (bool_decide (fd ∈ ws))
      (if fd_ready rs ws (fd, c)
       then set_channels
              (<[c := Channel.add_revents ch (ready_bits rs ws fd)]> (channels w)) w
       else w).
Proof.
  intros Hr Hc. unfold fd_ready, ready_bits, FD_ISSET. rewrite Hr. simpl.
  unfold bind at 1. unfold ret at 1.
  destruct (bool_decide (fd ∈ rs)), (bool_decide (fd ∈ ws));
    cbv [when bind ret Channel_add_revents channel_at store_channel modify];
    rewrite ?Hc; cbn [channels set_channels]; rewrite ?lookup_insert_eq;
    cbn [channels set_channels].
  - rewrite insert_insert_eq. unfold Channel.add_revents at 1 2. simpl.
    unfold Channel.add_revents. now rewrite Z.lor_assoc.
  - now rewrite Z.lor_0_r.
  - reflexivity.
  - reflexivity.
Qed.

Lemma In_firstn_filter {A} (f : A -> bool) n l x :
  In x (firstn n (List.filter f l)) -> In x l /\ f x = true.
Proof.
  intros H. apply filter_In. rewrite <- (firstn_skipn n (List.filter f l)).
  apply in_or_app. now left.
Qed.

(** The loop of fillActiveChannels: it reports, in the order of the map,
    the channels of the first ready fds until numEvents of them are
    reported, and ors the ready bits into their revents; nothing else
    changes. *)
Lemma fillActiveChannels_from_spec rs ws numEvents es : forall count active w,
  count < numEvents ->
  (forall fd c, In (fd, c) es -> fd_in_range fd = true /\ is_Some (channels w !! c)) ->
  NoDup (map snd es) ->
  let taken := firstn (Z.to_nat (numEvents - count)) (List.filter (fd_ready rs ws) es) in
  exists h,
    fillActiveChannels_from es numEvents rs ws count active w
    = Done (active ++ map snd taken) (set_channels h w)
    /\ (forall c, ~ In c (map snd taken) -> h !! c = channels w !! c)
    /\ (forall fd c ch, In (fd, c) taken -> channels w !! c = Some ch ->
          h !! c = Some (Channel.add_revents ch (ready_bits rs ws fd))).
Proof.
  induction es as [|[fd0 c0] r IH]; intros count active w Hlt Hok Hnd taken.
  - exists (channels w). subst taken. simpl. rewrite firstn_nil. simpl.
    rewrite app_nil_r, set_channels_same. unfold ret.
    split; [reflexivity|]. split; [reflexivity|]. intros fd c ch [].
  - destruct (Hok fd0 c0 (or_introl eq_refl)) as [Hr [ch0 Hc0]].
    simpl in Hnd. apply NoDup_cons in Hnd as [Hnin Hnd].
    rewrite list_elem_of_In in Hnin.
    assert (Hok' : forall h, (forall c, c <> c0 -> h !! c = channels w !! c) ->
                   forall fd c, In (fd, c) r ->
                     fd_in_range fd = true /\ is_Some (channels (set_channels h w) !! c)).
    { intros h Hh fd c Hin. destruct (Hok fd c (or_intror Hin)) as [H1 H2].
      split; [exact H1|]. simpl. rewrite Hh; [exact H2|].
      intros ->. apply Hnin. apply in_map_iff. now exists (fd, c0). }
    cbn [fillActiveChannels_from].
    rewrite (fillActiveChannels_step fd0 c0 ch0 rs ws _ w Hr Hc0).
    change (bool_decide (fd0 ∈ rs) || bool_decide (fd0 ∈ ws))
      with (fd_ready rs ws (fd0, c0)).
    subst taken. cbn [List.filter].
    destruct (fd_ready rs ws (fd0, c0)) eqn:Erdy.
    + (* a ready fd *)
      replace (Z.to_nat (numEvents - count))
        with (S (Z.to_nat (numEvents - (count + 1)))) by lia.
      cbn [firstn map snd].
      set (h1 := <[c0 := Channel.add_revents ch0 (ready_bits rs ws fd0)]> (channels w)).
      destruct (Z.geb_spec (count + 1) numEvents) as [Hge|Hlt'].
      * replace (Z.to_nat (numEvents - (count + 1))) with 0%nat by lia.
        cbn [firstn map]. unfold ret. exists h1.
        split; [reflexivity|]. split.
        -- intros c Hn. unfold h1. rewrite lookup_insert_ne; [reflexivity|].
           intros ->. apply Hn. now left.
        -- intros fd c ch [Hin|[]] Hc. inversion Hin; subst fd c.
           rewrite Hc0 in Hc. inversion Hc; subst ch. unfold h1. apply lookup_insert_eq.
      * destruct (IH (count + 1) (active ++ [c0]) (set_channels h1 w) Hlt')
          as (h & E & Hout & Hin); [|exact Hnd|].
        { apply Hok'. intros c Hne. unfold h1. now rewrite lookup_insert_ne by congruence. }
        cbv zeta in E, Hout, Hin.
        exists h. split; [rewrite E, <- app_assoc; reflexivity|]. split.
        -- intros c Hn. rewrite Hout.
           ++ simpl. unfold h1. rewrite lookup_insert_ne; [reflexivity|].
              intros ->. apply Hn. now left.
           ++ intros Hx. apply Hn. now right.
        -- intros fd c ch [Hx|Hx] Hc.
           ++ inversion Hx; subst fd c. rewrite Hc0 in Hc. inversion Hc; subst ch.
              rewrite Hout.
              ** simpl. unfold h1. apply lookup_insert_eq.
              ** intros Hy. apply in_map_iff in Hy as ([fd' c'] & Hs & Hy).
                 simpl in Hs. subst c'. apply In_firstn_filter in Hy as [Hy _].
                 apply Hnin. apply in_map_iff. now exists (fd', c0).
           ++ apply (Hin fd c ch Hx). simpl. unfold h1.
              rewrite lookup_insert_ne; [exact Hc|].
              intros <-. apply In_firstn_filter in Hx as [Hx _].
              apply Hnin. apply in_map_iff. now exists (fd, c0).
    + (* not ready *)
      destruct (IH count active w Hlt) as (h & E & Hout & Hin); [|exact Hnd|].
      { intros fd c Hx. apply Hok. now right. }
      cbv zeta in E, Hout, Hin.
      exists h. split; [exact E|]. split; [exact Hout|exact Hin].
Qed.

Lemma set_m_events_same w : set_m_events (SelectPoller.m_events (poller w)) w = w.
Proof. destruct w as [t [a b [m e] q f] h ti n tr]. reflexivity. Qed.

Lemma NoDup_map_snd_inj (l : list (Z * Z)) :
  NoDup l ->
  (forall a b c, In (a, c) l -> In (b, c) l -> a = b) ->
  NoDup (map snd l).
Proof.
  induction l as [|[a c] r IH]; intros Hnd Hinj; [apply NoDup_nil_2|].
  apply NoDup_cons in Hnd as [Hn Hnd]. simpl. apply NoDup_cons_2.
  - rewrite list_elem_of_In. intros Hx. apply in_map_iff in Hx as ([b c'] & Hs & Hx).
    simpl in Hs. subst c'. apply Hn. rewrite list_elem_of_In.
    rewrite (Hinj a b c); [exact Hx|now left|now right].
  - apply IH; [exact Hnd|]. intros a' b' c' H1 H2. apply (Hinj a' b' c'); now right.
Qed.

(** Under the registration invariant the entries of the map lead to live
    channels, each to its own. *)
Lemma poller_inv_entries w :
  poller_inv w ->
  let es := ChannelMap_entries (SelectPoller.m_channels (poller w)) in
  (forall fd c, In (fd, c) es ->
     exists ch, channels w !! c = Some ch /\ Channel.m_fd ch = fd)
  /\ NoDup (map snd es).
Proof.
  intros Hinv es.
  assert (H : forall fd c, In (fd, c) es ->
                exists ch, channels w !! c = Some ch /\ Channel.m_fd ch = fd).
  { intros fd c Hin. apply list_elem_of_In, ChannelMap_entries_elem in Hin.
    specialize (Hinv fd c Hin). simpl in Hinv.
    apply registered_ok_spec in Hinv as (ch & Hc & Hfd & _). eauto. }
  split; [exact H|].
  apply NoDup_map_snd_inj; [apply ChannelMap_entries_NoDup|].
  intros a b c Ha Hb.
  destruct (H a c Ha) as (ch & Hc & <-). destruct (H b c Hb) as (ch' & Hc' & <-).
  congruence.
Qed.

(** poll as a whole. *)
Lemma SelectPoller_poll_spec timeoutMs active sel now w :
  poller_inv w ->
  fds_in_range w ->
  let m := SelectPoller.m_channels (poller w) in
  let evs := SelectPoller.m_events (poller w) in
  let n := sr_numEvents sel in
  let taken :=
    if n >? 0
    then firstn (Z.to_nat n)
           (List.filter (fd_ready (sr_readfds sel) (sr_writefds sel))
              (ChannelMap_entries m))
    else [] in
  exists call h,
    SelectPoller_poll timeoutMs active sel now w
    = Done (now, active ++ map snd taken, call)
        (set_m_events
           (if (n >? 0) && (wrap_size_t n =? Z.of_nat (length evs))
            then evs ++ repeat (SelectPoller.mk_event 0 0) (length evs) else evs)
           (set_channels h w))
    /\ (forall fd, fd ∈ sc_readfds call <->
          exists c ch, m !! fd = Some c /\ channels w !! c = Some ch
                       /\ truthy (Z.land (Channel.m_events ch) XPOLLIN) = true)
    /\ (forall fd, fd ∈ sc_writefds call <->
          exists c ch, m !! fd = Some c /\ channels w !! c = Some ch
                       /\ truthy (Z.land (Channel.m_events ch) XPOLLOUT) = true)
    /\ (forall fd c, m !! fd = Some c -> fd < sc_nfds call)
    /\ (sc_nfds call = 1 \/ is_Some (m !! (sc_nfds call - 1)))
    /\ sc_tv_sec call = Z.quot timeoutMs 1000
    /\ sc_tv_usec call = Z.rem timeoutMs 1000 * 1000
    /\ (forall c, ~ In c (map snd taken) -> h !! c = channels w !! c)
    /\ (forall fd c ch, In (fd, c) taken -> channels w !! c = Some ch ->
          h !! c = Some (Channel.add_revents ch
                           (ready_bits (sr_readfds sel) (sr_writefds sel) fd))).
Proof.
  intros Hinv Hrange m evs n taken.
  destruct (poller_inv_entries w Hinv) as [Hlive Hnd].
  fold m in Hlive, Hnd.
  assert (Hok : forall fd c, In (fd, c) (ChannelMap_entries m) ->
                  fd_in_range fd = true /\ is_Some (channels w !! c)).
  { intros fd c Hin. split.
    - apply list_elem_of_In, ChannelMap_entries_elem in Hin. exact (Hrange fd c Hin).
    - destruct (Hlive fd c Hin) as (ch & Hc & _). now exists ch. }
  unfold SelectPoller_poll. unfold bind at 1. unfold gets at 1. fold m.
  destruct (poll_fd_sets_spec (ChannelMap_entries m) 0 ∅ ∅ w)
    as (maxfd & rs & ws & E & Hrs & Hws & Hle & Hall & Hmax).
  { intros fd c Hin. apply Hok. now apply list_elem_of_In. }
  unfold bind at 1. rewrite E. cbv zeta. fold n.
  assert (Hcall :
    (forall fd, fd ∈ rs <->
       exists c ch, m !! fd = Some c /\ channels w !! c = Some ch
                    /\ truthy (Z.land (Channel.m_events ch) XPOLLIN) = true)
    /\ (forall fd, fd ∈ ws <->
          exists c ch, m !! fd = Some c /\ channels w !! c = Some ch
                       /\ truthy (Z.land (Channel.m_events ch) XPOLLOUT) = true)
    /\ (forall fd c, m !! fd = Some c -> fd < maxfd + 1)
    /\ (maxfd + 1 = 1 \/ is_Some (m !! (maxfd + 1 - 1)))
    /\ Z.quot timeoutMs 1000 = Z.quot timeoutMs 1000
    /\ (timeoutMs - Z.quot timeoutMs 1000 * 1000) * 1000 = Z.rem timeoutMs 1000 * 1000).
  { split; [|split; [|split; [|split; [|split]]]].
    - intros fd. rewrite Hrs. split.
      + intros [H|(c & ch & H & Hc)]; [now apply not_elem_of_empty in H|].
        exists c, ch. now rewrite <- ChannelMap_entries_elem.
      + intros (c & ch & H & Hc). right. exists c, ch.
        now rewrite ChannelMap_entries_elem.
    - intros fd. rewrite Hws. split.
      + intros [H|(c & ch & H & Hc)]; [now apply not_elem_of_empty in H|].
        exists c, ch. now rewrite <- ChannelMap_entries_elem.
      + intros (c & ch & H & Hc). right. exists c, ch.
        now rewrite ChannelMap_entries_elem.
    - intros fd c H. apply ChannelMap_entries_elem in H. specialize (Hall fd c H). lia.
    - destruct Hmax as [->|[c H]]; [now left|].
      right. apply ChannelMap_entries_elem in H.
      replace (maxfd + 1 - 1) with maxfd by lia. now exists c.
    - reflexivity.
    - f_equal. pose proof (Z.quot_rem' timeoutMs 1000). lia. }
  destruct Hcall as (Hc1 & Hc2 & Hc3 & Hc4 & Hc5 & Hc6).
  subst taken.
  destruct (Z.gtb_spec n 0) as [Hpos|Hneg]; cbn [andb].
  - unfold bind at 1. unfold SelectPoller_fillActiveChannels.
    unfold bind at 1. unfold gets at 1. fold m.
    destruct (fillActiveChannels_from_spec (sr_readfds sel) (sr_writefds sel) n
                (ChannelMap_entries m) 0 active w Hpos Hok Hnd)
      as (h & E' & Hout & Hin).
    cbv zeta in E', Hout, Hin. rewrite Z.sub_0_r in E', Hout, Hin.
    rewrite E'.
    unfold bind at 1. unfold gets at 1.
    change (SelectPoller.m_events (poller (set_channels h w))) with evs.
    unfold bind at 1.
    exists (mkSelectCall (maxfd + 1) rs ws (Z.quot timeoutMs 1000)
              ((timeoutMs - Z.quot timeoutMs 1000 * 1000) * 1000)), h.
    split; [|split; [exact Hc1|split; [exact Hc2|
                          split; [exact Hc3|split; [exact Hc4|
                          split; [exact Hc5|split; [exact Hc6|
                          split; [exact Hout|exact Hin]]]]]]]].
    destruct (wrap_size_t n =? Z.of_nat (length evs)); simpl.
    + reflexivity.
    + unfold ret. f_equal.
      change evs with (SelectPoller.m_events (poller (set_channels h w))).
      now rewrite set_m_events_same.
  - unfold ret.
    exists (mkSelectCall (maxfd + 1) rs ws (Z.quot timeoutMs 1000)
              ((timeoutMs - Z.quot timeoutMs 1000 * 1000) * 1000)), (channels w).
    split; [|split; [exact Hc1|split; [exact Hc2|
             split; [exact Hc3|split; [exact Hc4|
             split; [exact Hc5|split; [exact Hc6|
             split; [reflexivity|intros fd c ch []]]]]]]]].
    simpl. rewrite app_nil_r, set_channels_same. unfold evs.
    now rewrite set_m_events_same.
Qed.

(** X12. poll asks select about exactly the fds of the map whose channel has
    read interest (XPOLLIN) and those whose channel has write interest
    (XPOLLOUT), with nfds above every fd of the map, and gives it the timeout
    split into seconds and microseconds, both rounded towards zero; when
    select reports nothing (a timeout or an error) poll changes nothing and
    reports no channel. *)
Theorem SelectPoller_poll_select_call (timeoutMs : Z) (active : list Z)
    (sel : SelectResult) (now : Z) (w : World) :
  poller_inv w ->
  fds_in_range w ->
  let m := SelectPoller.m_channels (poller w) in
  exists active' call w',
    SelectPoller_poll timeoutMs active sel now w = Done (now, active', call) w'
    /\ (forall fd, fd ∈ sc_readfds call <->
          exists c ch, m !! fd = Some c /\ channels w !! c = Some ch
                       /\ truthy (Z.land (Channel.m_events ch) XPOLLIN) = true)
    /\ (forall fd, fd ∈ sc_writefds call <->
          exists c ch, m !! fd = Some c /\ channels w !! c = Some ch
                       /\ truthy (Z.land (Channel.m_events ch) XPOLLOUT) = true)
    /\ (forall fd c, m !! fd = Some c -> fd < sc_nfds call)
    /\ (sc_nfds call = 1 \/ is_Some (m !! (sc_nfds call - 1)))
    /\ sc_tv_sec call * 1000000 + sc_tv_usec call = timeoutMs * 1000
    /\ (0 <= timeoutMs -> 0 <= sc_tv_sec call /\ 0 <= sc_tv_usec call < 1000000)
    /\ (timeoutMs < 0 -> sc_tv_sec call <= 0 /\ -1000000 < sc_tv_usec call <= 0)
    /\ (sr_numEvents sel <= 0 -> active' = active /\ w' = w).
Proof.
  intros Hinv Hrange m.
  destruct (SelectPoller_poll_spec timeoutMs active sel now w Hinv Hrange)
    as (call & h & E & Hr & Hw & Hn1 & Hn2 & Hsec & Husec & Hout & _).
  eexists _, call, _. split; [exact E|].
  split; [exact Hr|]. split; [exact Hw|]. split; [exact Hn1|]. split; [exact Hn2|].
  rewrite Hsec, Husec.
  pose proof (Z.quot_rem' timeoutMs 1000) as Hqr.
  split; [lia|]. split; [|split].
  - intros Hpos. pose proof (Z.rem_bound_pos timeoutMs 1000 Hpos ltac:(lia)).
    pose proof (Z.quot_pos timeoutMs 1000 Hpos ltac:(lia)). lia.
  - intros Hneg.
    assert (Hq : Z.quot timeoutMs 1000 = - Z.quot (- timeoutMs) 1000).
    { rewrite Z.quot_opp_l by lia. lia. }
    assert (Hr' : Z.rem timeoutMs 1000 = - Z.rem (- timeoutMs) 1000).
    { rewrite Z.rem_opp_l by lia. lia. }
    pose proof (Z.rem_bound_pos (- timeoutMs) 1000 ltac:(lia) ltac:(lia)).
    pose proof (Z.quot_pos (- timeoutMs) 1000 ltac:(lia) ltac:(lia)). lia.
  - intros Hle. cbv zeta in Hout.
    destruct (Z.gtb_spec (sr_numEvents sel) 0) as [Hgt|_]; [lia|].
    simpl in Hout |- *. split; [now rewrite app_nil_r|].
    assert (Hh : h = channels w).
    { apply map_eq. intros c. apply Hout. tauto. }
    rewrite Hh, set_channels_same. apply set_m_events_same.
Qed.

(** X13. After a select that found something, poll reports the channels of the
    ready fds in the order of the fds, at most numEvents of them and all of
    them when numEvents is at least their number; it ors XPOLLIN and XPOLLOUT
    into the revents of a reported channel as its fd is in the read and in the
    write set, and leaves the bits that were there; no other channel changes,
    the map stays, and the event list doubles by zeroed entries when numEvents
    equals its length. *)
Theorem SelectPoller_poll_reports_ready (timeoutMs : Z) (active : list Z)
    (sel : SelectResult) (now : Z) (w : World) :
  poller_inv w ->
  fds_in_range w ->
  0 < sr_numEvents sel ->
  let m := SelectPoller.m_channels (poller w) in
  let evs := SelectPoller.m_events (poller w) in
  let es := ChannelMap_entries m in
  let ready := List.filter (fd_ready (sr_readfds sel) (sr_writefds sel)) es in
  let taken := firstn (Z.to_nat (sr_numEvents sel)) ready in
  exists call w',
    SelectPoller_poll timeoutMs active sel now w
    = Done (now, active ++ map snd taken, call) w'
    /\ (forall fd c, In (fd, c) es <-> m !! fd = Some c)
    /\ StronglySorted (fun a b => fst a < fst b) es
    /\ (Z.of_nat (length ready) <= sr_numEvents sel -> taken = ready)
    /\ (forall c ch, channels w !! c = Some ch ->
          (In c (map snd taken) ->
           channels w' !! c
           = Some (Channel.add_revents ch
                     (ready_bits (sr_readfds sel) (sr_writefds sel) (Channel.m_fd ch))))
          /\ (~ In c (map snd taken) -> channels w' !! c = Some ch))
    /\ SelectPoller.m_channels (poller w') = m
    /\ SelectPoller.m_events (poller w')
       = (if wrap_size_t (sr_numEvents sel) =? Z.of_nat (length evs)
          then evs ++ repeat (SelectPoller.mk_event 0 0) (length evs) else evs)
    /\ same_outside_poller w w'.
Proof.
  intros Hinv Hrange Hpos m evs es ready taken.
  destruct (SelectPoller_poll_spec timeoutMs active sel now w Hinv Hrange)
    as (call & h & E & _ & _ & _ & _ & _ & _ & Hout & Hin).
  cbv zeta in E, Hout, Hin.
  destruct (Z.gtb_spec (sr_numEvents sel) 0) as [_|Hle]; [|lia].
  cbn [andb] in E. fold m evs es ready taken in E, Hout, Hin.
  destruct (poller_inv_entries w Hinv) as [Hlive _]. fold m es in Hlive.
  eexists call, _. split; [exact E|].
  split; [intros fd c; rewrite <- list_elem_of_In; apply ChannelMap_entries_elem|].
  split; [apply ChannelMap_entries_sorted|].
  split; [intros Hall; unfold taken; apply firstn_all2; lia|].
  split; [|split; [reflexivity|split; [reflexivity|repeat split]]].
  intros c ch Hc. split.
  - intros Hx. apply in_map_iff in Hx as ([fd c'] & Hs & Hx). simpl in Hs. subst c'.
    assert (Hfd : Channel.m_fd ch = fd).
    { destruct (In_firstn_filter _ _ _ _ Hx) as [Hes _].
      destruct (Hlive fd c Hes) as (ch' & Hc' & Hfd). congruence. }
    rewrite Hfd. simpl. exact (Hin fd c ch Hx Hc).
  - intros Hn. simpl. rewrite (Hout c Hn). exact Hc.
Qed.

(** ** TcpConnection::handleWrite *)

Lemma readableBytes_retrieve b n :
  0 <= n <= ByteBuffer.readableBytes b ->
  ByteBuffer.readableBytes (ByteBuffer_retrieve b n) = ByteBuffer.readableBytes b - n.
Proof.
  unfold ByteBuffer.readableBytes, ByteBuffer_retrieve. simpl. intros H.
  rewrite length_skipn. lia.
Qed.

(** handleWrite when the write takes some of the pending output. *)
Lemma handleWrite_positive (this : TcpConnection.t) (w : World)
    (ch : Channel.t) (wr : WriteResult) :
  in_loop_thread w ->
  channels w !! TcpConnection.m_channel this = Some ch ->
  Channel.isWriting ch = true ->
  0 < write_ret wr <= ByteBuffer.readableBytes (TcpConnection.m_outputBuffer this) ->
  let out := TcpConnection.m_outputBuffer this in
  let fd := Channel.m_fd ch in
  let drained := write_ret wr =? ByteBuffer.readableBytes out in
  exists w' ch' calls,
    TcpConnection_handleWrite this wr w
    = Done (TcpConnection.set_outputBuffer this (ByteBuffer_retrieve out (write_ret wr)),
            calls) w'
    /\ channels w' !! TcpConnection.m_channel this = Some ch'
    /\ Channel.isWriting ch' = negb drained
    /\ pending w'
       = pending w
         ++ (if drained
             then match TcpConnection.m_writeCompleteCallback this with
                  | Some cb => [FnWriteComplete cb]
                  | None => []
                  end
             else [])
    /\ calls
       = (if drained
             && TcpConnection.StateE_eqb (TcpConnection.m_state this) kDisconnecting
          then [SockShutdownWrite fd] else [])
    /\ socket_stream fd (trace w')
       = socket_stream fd (trace w)
         ++ firstn (Z.to_nat (write_ret wr)) (ByteBuffer.readable out)
    /\ in_loop_thread w'.
Proof.
  intros Ht Hc Hw Hret out fd drained. subst out fd drained.
  unfold TcpConnection_handleWrite.
  run_assert Ht. run_channel_at Hc. rewrite Hw.
  unfold bind at 1. unfold emit at 1, modify at 1.
  set (w1 := log_events _ w).
  assert (Ht1 : in_loop_thread w1) by exact Ht.
  assert (Hc1 : channels w1 !! TcpConnection.m_channel this = Some ch) by exact Hc.
  assert (Hs1 : socket_stream (Channel.m_fd ch) (trace w1)
                = socket_stream (Channel.m_fd ch) (trace w)
                  ++ firstn (Z.to_nat (write_ret wr))
                       (ByteBuffer.readable (TcpConnection.m_outputBuffer this))).
  { unfold w1, log_events. simpl. rewrite socket_stream_app. simpl.
    rewrite Z.eqb_refl, app_nil_r. reflexivity. }
  destruct (Z.gtb_spec (write_ret wr) 0) as [_|]; [|lia].
  cbn [TcpConnection.m_outputBuffer TcpConnection.set_outputBuffer
       TcpConnection.m_channel TcpConnection.m_writeCompleteCallback
       TcpConnection.m_state].
  rewrite readableBytes_retrieve by lia.
  set (len := ByteBuffer.readableBytes (TcpConnection.m_outputBuffer this)) in *.
  destruct (Z.eqb_spec (write_ret wr) len) as [Ed|Ed].
  - destruct (Z.eqb_spec (len - write_ret wr) 0) as [_|]; [|lia].
    cbv beta iota.
    destruct (Channel_disableWriting_spec _ ch w1 Ht1 Hc1)
      as (ok & w2 & ch' & E2 & Hsame & Hc2 & Hw2 & Hfd2).
    unfold bind at 1. rewrite E2.
    unfold bind at 1. rewrite queue_if_set_spec.
    set (w3 := match TcpConnection.m_writeCompleteCallback this with
               | Some cb => _ | None => w2 end).
    assert (Ht2 : in_loop_thread w2) by (eapply same_outside_poller_thread; eauto).
    assert (Ht3 : in_loop_thread w3).
    { unfold w3. destruct (TcpConnection.m_writeCompleteCallback this); exact Ht2. }
    assert (Hc3 : channels w3 !! TcpConnection.m_channel this = Some ch').
    { unfold w3. destruct (TcpConnection.m_writeCompleteCallback this); exact Hc2. }
    destruct Hsame as (_ & _ & _ & _ & Hp & _ & _ & Htr).
    assert (Hp3 : pending w3
                  = pending w
                    ++ match TcpConnection.m_writeCompleteCallback this with
                       | Some cb => [FnWriteComplete cb] | None => [] end).
    { unfold w3, pending in *.
      destruct (TcpConnection.m_writeCompleteCallback this); simpl.
      - rewrite Hp. reflexivity.
      - rewrite Hp, app_nil_r. reflexivity. }
    assert (Hs3 : socket_stream (Channel.m_fd ch) (trace w3)
                  = socket_stream (Channel.m_fd ch) (trace w1)).
    { unfold w3. destruct (TcpConnection.m_writeCompleteCallback this); simpl.
      - rewrite socket_stream_app, socket_stream_wakeup, app_nil_r. now rewrite Htr.
      - now rewrite Htr. }
    destruct (TcpConnection.StateE_eqb (TcpConnection.m_state this) kDisconnecting).
    + unfold bind at 1. unfold TcpConnection_shutdownInLoop.
      unfold bind at 1. rewrite (assertInLoopThread_ok _ Ht3).
      unfold bind at 1. unfold channel_at at 1.
      cbn [TcpConnection.m_channel TcpConnection.set_outputBuffer]. rewrite Hc3, Hw2.
      simpl. unfold ret. exists w3, ch', [SockShutdownWrite (Channel.m_fd ch)].
      split; [rewrite <- Hfd2; reflexivity|].
      split; [exact Hc3|]. split; [exact Hw2|]. split; [exact Hp3|].
      split; [reflexivity|]. split; [now rewrite Hs3|exact Ht3].
    + unfold ret. exists w3, ch', []. split; [reflexivity|].
      split; [exact Hc3|]. split; [exact Hw2|]. split; [exact Hp3|].
      split; [reflexivity|]. split; [now rewrite Hs3|exact Ht3].
  - destruct (Z.eqb_spec (len - write_ret wr) 0) as [|_]; [lia|].
    cbv beta iota. unfold ret. exists w1, ch, []. split; [reflexivity|].
    split; [exact Hc1|]. split; [exact Hw|]. split; [now rewrite app_nil_r|].
    split; [reflexivity|]. split; [exact Hs1|exact Ht1].
Qed.

(** X2. handleWrite when the write takes nothing (a result of 0 or less),
    whatever errno says, EWOULDBLOCK included: the connection is closed as by
    handleClose (state Disconnected, all interest dropped, connection
    callback, then close callback); the pending output stays in the buffer,
    and nothing is queued. *)
Theorem TcpConnection_handleWrite_failure (this : TcpConnection.t) (w : World)
    (ch : Channel.t) (wr : WriteResult) (a b : CallbackId) :
  in_loop_thread w ->
  channels w !! TcpConnection.m_channel this = Some ch ->
  Channel.isWriting ch = true ->
  write_ret wr <= 0 ->
  TcpConnection.m_state this <> kDisconnected ->
  TcpConnection.m_connectionCallback this = Some a ->
  TcpConnection.m_closeCallback this = Some b ->
  exists w' ch',
    TcpConnection_handleWrite this wr w
    = Done (TcpConnection.setState this kDisconnected, []) w'
    /\ trace w'
       = trace w
         ++ [EvSocketWrite (Channel.m_fd ch)
               (ByteBuffer.readable (TcpConnection.m_outputBuffer this)) (write_ret wr);
             EvConnectionCallback a false;
             EvCloseCallback b]
    /\ pending w' = pending w
    /\ channels w' !! TcpConnection.m_channel this = Some ch'
    /\ Channel.isNoneEvent ch' = true.
Proof.
  intros Ht Hc Hw Hret Hs Ha Hb.
  unfold TcpConnection_handleWrite.
  run_assert Ht. run_channel_at Hc. rewrite Hw.
  unfold bind at 1. unfold emit at 1, modify at 1.
  set (w1 := log_events _ w).
  destruct (Z.gtb_spec (write_ret wr) 0) as [Hgt|_]; [exfalso; clear - Hret Hgt; lia|].
  destruct (TcpConnection_handleClose_live this w1 ch a b Hs Ht Hc Ha Hb)
    as (w' & ch' & E & Htr & Hp & Hc' & Hn).
  unfold bind at 1. rewrite E. unfold ret.
  exists w', ch'. split; [reflexivity|].
  split; [rewrite Htr; unfold w1, log_events; simpl; rewrite <- app_assoc; reflexivity|].
  split; [exact Hp|]. split; [exact Hc'|exact Hn].
Qed.

(** The first handleClose of a live connection stays in the loop thread. *)
Lemma handleClose_live_thread this w ch a b :
  TcpConnection.m_state this <> kDisconnected ->
  in_loop_thread w ->
  channels w !! TcpConnection.m_channel this = Some ch ->
  TcpConnection.m_connectionCallback this = Some a ->
  TcpConnection.m_closeCallback this = Some b ->
  exists w',
    TcpConnection_handleClose this w
    = Done (TcpConnection.setState this kDisconnected) w'
    /\ trace w' = trace w ++ [EvConnectionCallback a false; EvCloseCallback b]
    /\ in_loop_thread w'.
Proof.
  intros Hs Ht Hc Ha Hb. unfold TcpConnection_handleClose.
  destruct (TcpConnection.StateE_eqb (TcpConnection.m_state this) kDisconnected) eqn:E.
  { exfalso. apply Hs. now destruct (TcpConnection.m_state this). }
  run_assert Ht.
  destruct (Channel_disableAll_spec _ ch w Ht Hc) as (ok & w1 & ch' & E1 & Hsame & Hc1 & He).
  unfold bind at 1. simpl. rewrite E1, Ha, Hb.
  unfold call, bind, emit, modify, ret. simpl.
  eexists. split; [reflexivity|]. simpl.
  split.
  - destruct Hsame as (_ & _ & _ & _ & _ & _ & _ & Htr).
    rewrite Htr, <- app_assoc. reflexivity.
  - exact (same_outside_poller_thread _ _ Hsame Ht).
Qed.

(** X1. A write that takes some of the pending output: the bytes taken leave
    the buffer; while bytes remain the channel keeps its write interest and
    nothing is queued; when the buffer is drained the write interest is
    dropped, the write-complete callback is queued if set, and a connection in
    state Disconnecting shuts its socket down for writing. *)
Theorem TcpConnection_handleWrite_progress (this : TcpConnection.t) (w : World)
    (ch : Channel.t) (wr : WriteResult) :
  in_loop_thread w ->
  channels w !! TcpConnection.m_channel this = Some ch ->
  Channel.isWriting ch = true ->
  0 < write_ret wr <= ByteBuffer.readableBytes (TcpConnection.m_outputBuffer this) ->
  let out := TcpConnection.m_outputBuffer this in
  let drained := write_ret wr =? ByteBuffer.readableBytes out in
  exists w' ch' calls,
    TcpConnection_handleWrite this wr w
    = Done (TcpConnection.set_outputBuffer this
              (ByteBuffer.mk (skipn (Z.to_nat (write_ret wr)) (ByteBuffer.readable out))),
            calls) w'
    /\ channels w' !! TcpConnection.m_channel this = Some ch'
    /\ Channel.isWriting ch' = negb drained
    /\ pending w'
       = pending w
         ++ (if drained
             then match TcpConnection.m_writeCompleteCallback this with
                  | Some cb => [FnWriteComplete cb]
                  | None => []
                  end
             else [])
    /\ calls
       = (if drained
             && TcpConnection.StateE_eqb (TcpConnection.m_state this) kDisconnecting
          then [SockShutdownWrite (Channel.m_fd ch)] else []).
Proof.
  intros Ht Hc Hw Hret out drained.
  destruct (handleWrite_positive this w ch wr Ht Hc Hw Hret)
    as (w' & ch' & calls & E & Hc' & Hw' & Hp & Hcalls & _ & _).
  exists w', ch', calls. split; [exact E|].
  split; [exact Hc'|]. split; [exact Hw'|]. split; [exact Hp|exact Hcalls].
Qed.

(** X3. handleWrite moves bytes from the front of the output buffer to the
    socket and loses none; pending output stays armed. *)
Theorem TcpConnection_handleWrite_conserves_bytes (this : TcpConnection.t) (w : World)
    (ch : Channel.t) (wr : WriteResult) (a b : CallbackId) :
  in_loop_thread w ->
  channels w !! TcpConnection.m_channel this = Some ch ->
  TcpConnection.m_connectionCallback this = Some a ->
  TcpConnection.m_closeCallback this = Some b ->
  write_ret wr <= ByteBuffer.readableBytes (TcpConnection.m_outputBuffer this) ->
  output_armed this w ->
  exists this' calls w',
    TcpConnection_handleWrite this wr w = Done (this', calls) w'
    /\ in_loop_thread w'
    /\ TcpConnection.m_channel this' = TcpConnection.m_channel this
    /\ socket_stream (Channel.m_fd ch) (trace w')
       ++ ByteBuffer.readable (TcpConnection.m_outputBuffer this')
       = socket_stream (Channel.m_fd ch) (trace w)
         ++ ByteBuffer.readable (TcpConnection.m_outputBuffer this)
    /\ output_armed this' w'.
Proof.
  intros Ht Hc Ha Hb Hret Harmed.
  destruct (Channel.isWriting ch) eqn:Hw.
  - destruct (Z.ltb_spec 0 (write_ret wr)) as [Hpos|Hneg].
    + destruct (handleWrite_positive this w ch wr Ht Hc Hw (conj Hpos Hret))
        as (w' & ch' & calls & E & Hc' & Hw' & _ & _ & Hs & Ht').
      eexists _, calls, w'. split; [exact E|]. split; [exact Ht'|].
      split; [reflexivity|]. split.
      * rewrite Hs. simpl. rewrite <- app_assoc, firstn_skipn. reflexivity.
      * intros _ Hlen. exists ch'. split; [exact Hc'|]. rewrite Hw'.
        simpl in Hlen. rewrite readableBytes_retrieve in Hlen by lia.
        destruct (Z.eqb_spec (write_ret wr)
                    (ByteBuffer.readableBytes (TcpConnection.m_outputBuffer this)));
          [lia|reflexivity].
    + unfold TcpConnection_handleWrite.
      run_assert Ht. run_channel_at Hc. rewrite Hw.
      unfold bind at 1. unfold emit at 1, modify at 1.
      set (w1 := log_events _ w).
      assert (Hs1 : socket_stream (Channel.m_fd ch) (trace w1)
                    = socket_stream (Channel.m_fd ch) (trace w)).
      { unfold w1, log_events. simpl. rewrite socket_stream_app. simpl.
        rewrite Z.eqb_refl. replace (Z.to_nat (write_ret wr)) with 0%nat by lia.
        simpl. now rewrite app_nil_r. }
      destruct (Z.gtb_spec (write_ret wr) 0) as [Hgt|_]; [exfalso; clear - Hneg Hgt; lia|].
      unfold bind at 1.
      destruct (TcpConnection.StateE_eqb (TcpConnection.m_state this) kDisconnected) eqn:Es.
      * apply StateE_eqb_eq in Es.
        rewrite (TcpConnection_handleClose_disconnected this w1 Es).
        unfold ret. exists this, [], w1. split; [reflexivity|].
        split; [exact Ht|]. split; [reflexivity|]. split; [now rewrite Hs1|].
        intros Hn. contradiction.
      * assert (Hlive : TcpConnection.m_state this <> kDisconnected).
        { intros Hn. rewrite Hn in Es. discriminate. }
        destruct (handleClose_live_thread this w1 ch a b Hlive Ht Hc Ha Hb)
          as (w' & E & Htr & Ht').
        rewrite E. unfold ret.
        exists (TcpConnection.setState this kDisconnected), [], w'.
        split; [reflexivity|]. split; [exact Ht'|]. split; [reflexivity|].
        split.
        -- rewrite Htr, socket_stream_app, Hs1. simpl. now rewrite app_nil_r.
        -- intros Hn. now simpl in Hn.
  - unfold TcpConnection_handleWrite.
    run_assert Ht. run_channel_at Hc. rewrite Hw. unfold ret.
    exists this, [], w. split; [reflexivity|]. split; [exact Ht|].
    split; [reflexivity|]. split; [reflexivity|exact Harmed].
Qed.

(** ** Bytes between the output buffer and the socket *)

(** Queueing a callback is invisible to the channels and to the sockets. *)
Lemma when_queue_quiet b f mk w fd :
  exists w1,
    when b (queue_if_set f mk) w = Done tt w1
    /\ (in_loop_thread w -> in_loop_thread w1)
    /\ channels w1 = channels w
    /\ socket_stream fd (trace w1) = socket_stream fd (trace w).
Proof.
  destruct b; simpl.
  - rewrite queue_if_set_spec. eexists. split; [reflexivity|].
    destruct f; simpl.
    + split; [tauto|]. split; [reflexivity|].
      now rewrite socket_stream_app, socket_stream_wakeup, app_nil_r.
    + split; [tauto|]. split; reflexivity.
  - exists w. unfold ret. split; [reflexivity|]. split; [tauto|]. split; reflexivity.
Qed.

(** The buffering block of sendInLoop: the bytes go to the end of the
    output buffer, none to the socket, and the channel is writing. *)
Lemma sendInLoop_buffer_stream this data nwrote remaining w ch fd :
  in_loop_thread w ->
  channels w !! TcpConnection.m_channel this = Some ch ->
  exists w' ch',
    sendInLoop_buffer this data nwrote remaining w
    = Done (TcpConnection.set_outputBuffer this
              (ByteBuffer.append (TcpConnection.m_outputBuffer this)
                 (firstn (Z.to_nat remaining) (skipn (Z.to_nat nwrote) data)))) w'
    /\ in_loop_thread w'
    /\ socket_stream fd (trace w') = socket_stream fd (trace w)
    /\ channels w' !! TcpConnection.m_channel this = Some ch'
    /\ Channel.isWriting ch' = true.
Proof.
  intros Ht Hc. unfold sendInLoop_buffer.
  destruct (when_queue_quiet
              ((wrap_size_t (ByteBuffer.readableBytes (TcpConnection.m_outputBuffer this)
                             + remaining) >=? TcpConnection.m_highWaterMark this)
               && (ByteBuffer.readableBytes (TcpConnection.m_outputBuffer this)
                   <? TcpConnection.m_highWaterMark this))
              (TcpConnection.m_highWaterMarkCallback this)
              (fun cb => FnHighWaterMark cb
                 (wrap_size_t (ByteBuffer.readableBytes (TcpConnection.m_outputBuffer this)
                               + remaining))) w fd)
    as (w1 & E1 & Ht1 & Hh1 & Hs1).
  unfold bind at 1. rewrite E1.
  assert (Hc1 : channels w1 !! TcpConnection.m_channel this = Some ch)
    by (now rewrite Hh1).
  unfold bind at 1. unfold channel_at at 1.
  cbn [TcpConnection.m_channel TcpConnection.set_outputBuffer]. rewrite Hc1.
  destruct (Channel.isWriting ch) eqn:Ew; simpl.
  - unfold bind, ret. exists w1, ch. split; [reflexivity|]. split; [auto|].
    split; [exact Hs1|]. split; [exact Hc1|exact Ew].
  - destruct (Channel_enableWriting_spec _ ch w1 (Ht1 Ht) Hc1)
      as (ok & w2 & ch' & E2 & Hsame & Hc2 & Hw2).
    unfold bind at 1. unfold bind at 1. rewrite E2. unfold ret.
    exists w2, ch'. split; [reflexivity|].
    split; [eapply same_outside_poller_thread; eauto|].
    destruct Hsame as (_ & _ & _ & _ & _ & _ & _ & Htr).
    split; [now rewrite Htr|]. split; [exact Hc2|exact Hw2].
Qed.

(** sendInLoop when it tries the socket first: the bytes the write took
    are on the socket, the others at the end of the output buffer, unless
    the write failed with EPIPE or ECONNRESET. *)
Lemma sendInLoop_direct_conserves (this : TcpConnection.t)
    (data : list Byte.byte) (wr : WriteResult) (w : World) (ch : Channel.t) :
  direct_write_attempted this ch = true ->
  in_loop_thread w ->
  channels w !! TcpConnection.m_channel this = Some ch ->
  TcpConnection.m_state this <> kDisconnected ->
  write_ret wr <= Z.of_nat (length data) ->
  ByteBuffer.readableBytes (TcpConnection.m_outputBuffer this)
  + Z.of_nat (length data) < 2 ^ 64 ->
  output_armed this w ->
  exists this' w',
    TcpConnection_sendInLoop this data wr w = Done this' w'
    /\ in_loop_thread w'
    /\ socket_stream (Channel.m_fd ch) (trace w')
       ++ ByteBuffer.readable (TcpConnection.m_outputBuffer this')
       = socket_stream (Channel.m_fd ch) (trace w)
         ++ ByteBuffer.readable (TcpConnection.m_outputBuffer this)
         ++ (if (write_ret wr <? 0) && fatal_errno (write_errno wr)
             then [] else data)
    /\ output_armed this' w'.
Proof.
  intros Hd Ht Hc Hs Hret Hsmall Harmed.
  set (fd := Channel.m_fd ch).
  set (out := TcpConnection.m_outputBuffer this) in *.
  assert (Hold : 0 <= ByteBuffer.readableBytes out)
    by (unfold ByteBuffer.readableBytes; lia).
  unfold TcpConnection_sendInLoop. run_assert Ht.
  destruct (TcpConnection.StateE_eqb (TcpConnection.m_state this) kDisconnected) eqn:E.
  { apply StateE_eqb_eq in E. contradiction. }
  run_channel_at Hc. fold out. unfold direct_write_attempted in Hd. fold out in Hd.
  destruct (negb (Channel.isWriting ch) && (ByteBuffer.readableBytes out =? 0)) eqn:Ed.
  - (* the direct write *)
    apply andb_true_iff in Ed as [Ew E0]. apply Z.eqb_eq in E0.
    assert (Hout : ByteBuffer.readable out = []).
    { unfold ByteBuffer.readableBytes in E0.
      destruct (ByteBuffer.readable out); [reflexivity|simpl in E0; lia]. }
    unfold bind at 1. unfold sendInLoop_direct_write.
    unfold bind at 1. unfold emit at 1, modify at 1.
    set (w1 := log_events _ w).
    assert (Ht1 : in_loop_thread w1) by exact Ht.
    assert (Hc1 : channels w1 !! TcpConnection.m_channel this = Some ch) by exact Hc.
    assert (Hs1 : socket_stream fd (trace w1)
                  = socket_stream fd (trace w)
                    ++ firstn (Z.to_nat (write_ret wr)) data).
    { unfold w1, log_events. simpl. rewrite socket_stream_app. simpl.
      unfold fd. rewrite Z.eqb_refl, app_nil_r. reflexivity. }
    destruct (Z.geb_spec (write_ret wr) 0) as [Hge|Hlt].
    + (* the write took write_ret bytes *)
      destruct (Z.ltb_spec (write_ret wr) 0) as [Hn|_]; [lia|]. simpl.
      unfold wrap_size_t. rewrite Z.mod_small by lia.
      destruct (when_queue_quiet (Z.of_nat (length data) - write_ret wr =? 0)
                  (TcpConnection.m_writeCompleteCallback this) FnWriteComplete w1 fd)
        as (w2 & E2 & Ht2 & Hh2 & Hs2).
      unfold bind at 1. rewrite E2. unfold ret at 1.
      assert (Hc2 : channels w2 !! TcpConnection.m_channel this = Some ch)
        by (now rewrite Hh2).
      destruct (Z.gtb_spec (Z.of_nat (length data) - write_ret wr) (Z.of_nat (length data)))
        as [Hgt|_]; [lia|].
      destruct (Z.gtb_spec (Z.of_nat (length data) - write_ret wr) 0) as [Hrem|Hrem]; simpl.
      * destruct (sendInLoop_buffer_stream this data (write_ret wr)
                    (Z.of_nat (length data) - write_ret wr) w2 ch fd (Ht2 Ht1) Hc2)
          as (w' & ch' & E' & Ht' & Hs' & Hc' & Hw').
        rewrite E'. eexists _, w'. split; [reflexivity|]. split; [exact Ht'|].
        split.
        -- simpl. fold out. rewrite Hs', Hs2, Hs1, Hout. simpl.
           rewrite firstn_skipn_rest by lia.
           rewrite <- app_assoc, firstn_skipn. reflexivity.
        -- intros _ _. exists ch'. split; [exact Hc'|exact Hw'].
      * unfold ret. exists this, w2. split; [reflexivity|]. split; [auto|].
        split.
        -- fold out. rewrite Hs2, Hs1, Hout. simpl. rewrite app_nil_r.
           rewrite firstn_all2 by lia. reflexivity.
        -- intros _ Hpos. fold out in Hpos. lia.
    + (* the write failed *)
      destruct (Z.ltb_spec (write_ret wr) 0) as [_|Hn]; [|lia]. simpl.
      unfold ret at 1.
      destruct (Z.gtb_spec (Z.of_nat (length data)) (Z.of_nat (length data)))
        as [Hgt|_]; [lia|].
      assert (Hs0 : socket_stream fd (trace w1) = socket_stream fd (trace w)).
      { rewrite Hs1. replace (Z.to_nat (write_ret wr)) with 0%nat by lia.
        simpl. now rewrite app_nil_r. }
      unfold fatal_errno.
      destruct (negb (write_errno wr =? EWOULDBLOCK)
                && ((write_errno wr =? EPIPE) || (write_errno wr =? ECONNRESET))) eqn:Ef.
      * apply andb_true_iff in Ef as [_ Ef]. rewrite Ef. simpl.
        unfold ret. exists this, w1. split; [reflexivity|]. split; [exact Ht1|].
        split.
        -- fold out. rewrite Hs0, Hout. reflexivity.
        -- intros _ Hpos. fold out in Hpos. lia.
      * assert (Ef' : (write_errno wr =? EPIPE) || (write_errno wr =? ECONNRESET) = false).
        { destruct (Z.eqb_spec (write_errno wr) EWOULDBLOCK) as [Ee|_].
          - rewrite Ee. reflexivity.
          - exact Ef. }
        rewrite Ef'. simpl.
        destruct (Z.gtb_spec (Z.of_nat (length data)) 0) as [Hrem|Hrem].
        -- destruct (sendInLoop_buffer_stream this data 0 (Z.of_nat (length data))
                       w1 ch fd Ht1 Hc1)
             as (w' & ch' & E' & Ht' & Hs' & Hc' & Hw').
           rewrite E'. eexists _, w'. split; [reflexivity|]. split; [exact Ht'|].
           split.
           ++ simpl. fold out. rewrite Hs', Hs0, Hout. simpl.
              rewrite Nat2Z.id, firstn_all. reflexivity.
           ++ intros _ _. exists ch'. split; [exact Hc'|exact Hw'].
        -- unfold ret. exists this, w1. split; [reflexivity|]. split; [exact Ht1|].
           split.
           ++ fold out. rewrite Hs0, Hout.
              destruct data; [reflexivity|simpl in Hrem; lia].
           ++ intros _ Hpos. fold out in Hpos. lia.
  - rewrite Hd in Ed. discriminate.
Qed.

(** sendInLoop when output is pending or the channel is writing: the
    payload goes to the end of the output buffer, nothing to the socket. *)
Lemma sendInLoop_queued_conserves (this : TcpConnection.t)
    (data : list Byte.byte) (wr : WriteResult) (w : World) (ch : Channel.t) :
  direct_write_attempted this ch = false ->
  in_loop_thread w ->
  channels w !! TcpConnection.m_channel this = Some ch ->
  TcpConnection.m_state this <> kDisconnected ->
  write_ret wr <= Z.of_nat (length data) ->
  ByteBuffer.readableBytes (TcpConnection.m_outputBuffer this)
  + Z.of_nat (length data) < 2 ^ 64 ->
  output_armed this w ->
  exists this' w',
    TcpConnection_sendInLoop this data wr w = Done this' w'
    /\ in_loop_thread w'
    /\ socket_stream (Channel.m_fd ch) (trace w')
       ++ ByteBuffer.readable (TcpConnection.m_outputBuffer this')
       = socket_stream (Channel.m_fd ch) (trace w)
         ++ ByteBuffer.readable (TcpConnection.m_outputBuffer this)
         ++ data
    /\ output_armed this' w'.
Proof.
  intros Hd Ht Hc Hs Hret Hsmall Harmed.
  set (fd := Channel.m_fd ch).
  set (out := TcpConnection.m_outputBuffer this) in *.
  assert (Hold : 0 <= ByteBuffer.readableBytes out)
    by (unfold ByteBuffer.readableBytes; lia).
  unfold TcpConnection_sendInLoop. run_assert Ht.
  destruct (TcpConnection.StateE_eqb (TcpConnection.m_state this) kDisconnected) eqn:E.
  { apply StateE_eqb_eq in E. contradiction. }
  run_channel_at Hc. fold out. unfold direct_write_attempted in Hd. fold out in Hd.
  destruct (negb (Channel.isWriting ch) && (ByteBuffer.readableBytes out =? 0)) eqn:Ed.
  - rewrite Hd in Ed. discriminate.
  - (* no direct write *)
    simpl. unfold bind at 1. unfold ret at 1.
    destruct (Z.gtb_spec (Z.of_nat (length data)) (Z.of_nat (length data)))
      as [Hgt|_]; [lia|].
    simpl.
    destruct (Z.gtb_spec (Z.of_nat (length data)) 0) as [Hrem|Hrem].
    + destruct (sendInLoop_buffer_stream this data 0 (Z.of_nat (length data))
                  w ch fd Ht Hc)
        as (w' & ch' & E' & Ht' & Hs' & Hc' & Hw').
      rewrite E'. eexists _, w'. split; [reflexivity|]. split; [exact Ht'|].
      split.
      * simpl. fold out. rewrite Hs'. simpl.
        rewrite Nat2Z.id, firstn_all. reflexivity.
      * intros _ _. exists ch'. split; [exact Hc'|exact Hw'].
    + unfold ret. exists this, w. split; [reflexivity|]. split; [exact Ht|].
      split.
      * destruct data; [now rewrite app_nil_r|simpl in Hrem; lia].
      * exact Harmed.
Qed.

(** X4. In the loop thread, on a connection in any state, sendInLoop
    returns.  On a Disconnected connection it drops the payload and
    changes nothing: no write is made.  On any other connection every
    byte of the payload is taken by the socket or kept at the end of the
    output buffer, in order, after what was already there, unless the
    direct write fails with EPIPE or ECONNRESET, which drops the payload.
    Pending output stays armed. *)
Theorem TcpConnection_sendInLoop_conserves_bytes (this : TcpConnection.t)
    (data : list Byte.byte) (wr : WriteResult) (w : World) (ch : Channel.t) :
  in_loop_thread w ->
  channels w !! TcpConnection.m_channel this = Some ch ->
  write_ret wr <= Z.of_nat (length data) ->
  ByteBuffer.readableBytes (TcpConnection.m_outputBuffer this)
  + Z.of_nat (length data) < 2 ^ 64 ->
  output_armed this w ->
  exists this' w',
    TcpConnection_sendInLoop this data wr w = Done this' w'
    /\ in_loop_thread w'
    /\ socket_stream (Channel.m_fd ch) (trace w')
       ++ ByteBuffer.readable (TcpConnection.m_outputBuffer this')
       = socket_stream (Channel.m_fd ch) (trace w)
         ++ ByteBuffer.readable (TcpConnection.m_outputBuffer this)
         ++ (if TcpConnection.StateE_eqb (TcpConnection.m_state this) kDisconnected
                || (direct_write_attempted this ch && (write_ret wr <? 0)
                    && fatal_errno (write_errno wr))
             then [] else data)
    /\ output_armed this' w'
    /\ (TcpConnection.m_state this = kDisconnected -> this' = this /\ w' = w).
Proof.
  intros Ht Hc Hret Hsmall Harmed.
  destruct (TcpConnection.StateE_eqb (TcpConnection.m_state this) kDisconnected) eqn:Es;
    cbn [orb].
  - (* the request is discarded *)
    exists this, w. split.
    { unfold TcpConnection_sendInLoop. run_assert Ht. now rewrite Es. }
    split; [exact Ht|]. split; [now rewrite !app_nil_r|].
    split; [exact Harmed|]. intros _. split; reflexivity.
  - assert (Hs : TcpConnection.m_state this <> kDisconnected).
    { intros Hn. rewrite Hn in Es. discriminate. }
    assert (H : exists this' w',
               TcpConnection_sendInLoop this data wr w = Done this' w'
               /\ in_loop_thread w'
               /\ socket_stream (Channel.m_fd ch) (trace w')
                  ++ ByteBuffer.readable (TcpConnection.m_outputBuffer this')
                  = socket_stream (Channel.m_fd ch) (trace w)
                    ++ ByteBuffer.readable (TcpConnection.m_outputBuffer this)
                    ++ (if direct_write_attempted this ch && (write_ret wr <? 0)
                           && fatal_errno (write_errno wr)
                        then [] else data)
               /\ output_armed this' w').
    { destruct (direct_write_attempted this ch) eqn:Hd; cbn [andb].
      - exact (sendInLoop_direct_conserves this data wr w ch
                 Hd Ht Hc Hs Hret Hsmall Harmed).
      - exact (sendInLoop_queued_conserves this data wr w ch
                 Hd Ht Hc Hs Hret Hsmall Harmed). }
    destruct H as (this' & w' & E & Ht' & Hstream & Harmed').
    exists this', w'. split; [exact E|]. split; [exact Ht'|].
    split; [exact Hstream|]. split; [exact Harmed'|].
    intros Hn. contradiction.
Qed.

(** ** TcpConnection: establishing, destroying and forcing the close *)

(** A New channel whose fd is taken is refused: the mask is stored, the
    poller does nothing. *)
Lemma Channel_store_update_taken c ch ev w :
  in_loop_thread w ->
  channels w !! c = Some ch ->
  Channel.m_index ch = SelectPoller.kNew ->
  SelectPoller.m_channels (poller w) !! Channel.m_fd ch <> None ->
  (store_channel c (Channel.set_events ch ev) ;; Channel_update c) w
  = Done false (set_channels (<[c := Channel.set_events ch ev]> (channels w)) w).
Proof.
  intros Ht Hc Hi Hm. unfold bind at 1. unfold store_channel, modify.
  set (ch0 := Channel.set_events ch ev).
  set (w0 := set_channels _ w).
  assert (Ht0 : in_loop_thread w0) by exact Ht.
  assert (Hc0 : channels w0 !! c = Some ch0) by apply lookup_insert_eq.
  unfold Channel_update, EventLoop_updateChannel.
  destruct (SelectPoller_updateChannel_exact w0 c ch0 Ht0 Hc0)
    as (ok & w' & E & Hsame & Hcase).
  change (Channel.m_index ch0) with (Channel.m_index ch) in Hcase.
  change (Channel.m_fd ch0) with (Channel.m_fd ch) in Hcase.
  change (poller w0) with (poller w) in Hcase.
  cbv zeta in Hcase. rewrite Hi in Hcase.
  destruct Hcase as [(-> & -> & _)|[(_ & Hx & _)|[(_ & Hx & _)|(_ & Hx & _)]]];
    try discriminate.
  - exact E.
  - exfalso. destruct Hx as [[_ Hx]|[Hx _]]; [contradiction|discriminate].
Qed.

(** X5. connectEstablished on a connection in state Connecting whose channel
    is New and whose fd is free: the channel is registered with read interest
    on top of what it had, the state is Connected and the connection callback
    is called once, with a connected connection. *)
Theorem TcpConnection_connectEstablished_registers (this : TcpConnection.t) (w : World)
    (ch : Channel.t) (a : CallbackId) :
  in_loop_thread w ->
  channels w !! TcpConnection.m_channel this = Some ch ->
  TcpConnection.m_state this = kConnecting ->
  Channel.m_index ch = SelectPoller.kNew ->
  SelectPoller.m_channels (poller w) !! Channel.m_fd ch = None ->
  TcpConnection.m_connectionCallback this = Some a ->
  let c := TcpConnection.m_channel this in
  let ev := Z.lor (Channel.m_events ch) Channel.kReadEvent in
  exists w',
    TcpConnection_connectEstablished this w
    = Done (TcpConnection.setState this kConnected) w'
    /\ trace w' = trace w ++ [EvConnectionCallback a true]
    /\ pending w' = pending w
    /\ channels w'
       = <[c := Channel.set_index (Channel.set_events ch ev) SelectPoller.kAdded]>
           (channels w)
    /\ SelectPoller.m_channels (poller w')
       = <[Channel.m_fd ch := c]> (SelectPoller.m_channels (poller w))
    /\ SelectPoller.m_events (poller w')
       = SelectPoller.m_events (poller w) ++ [SelectPoller.mk_event ev c].
Proof.
  intros Ht Hc Hs Hi Hm Ha c ev.
  unfold TcpConnection_connectEstablished. run_assert Ht. rewrite Hs. simpl.
  unfold bind at 1. unfold Channel_enableReading. run_channel_at Hc.
  destruct (Channel_store_update_new _ ch ev w Ht Hc Hi Hm)
    as (w1 & E1 & Hsame & Hh & Hm' & He).
  fold ev. rewrite E1. simpl. rewrite Ha. simpl.
  unfold bind, emit, modify, ret. simpl.
  eexists. split; [reflexivity|]. simpl.
  destruct Hsame as (_ & _ & _ & _ & Hp & _ & _ & Htr).
  split; [now rewrite Htr|]. split; [exact Hp|].
  split; [exact Hh|]. split; [exact Hm'|exact He].
Qed.

(** X6. connectEstablished when the fd of the New channel is already in the
    map: the registration is refused and the connection is closed at once; the
    connection callback sees only the closed connection, the close callback
    follows, and the poller is as before. *)
Theorem TcpConnection_connectEstablished_fd_taken (this : TcpConnection.t) (w : World)
    (ch : Channel.t) (a b : CallbackId) :
  in_loop_thread w ->
  channels w !! TcpConnection.m_channel this = Some ch ->
  TcpConnection.m_state this = kConnecting ->
  Channel.m_index ch = SelectPoller.kNew ->
  SelectPoller.m_channels (poller w) !! Channel.m_fd ch <> None ->
  TcpConnection.m_connectionCallback this = Some a ->
  TcpConnection.m_closeCallback this = Some b ->
  TcpConnection_connectEstablished this w
  = Done (TcpConnection.setState this kDisconnected)
      (log_events [EvConnectionCallback a false; EvCloseCallback b]
         (set_channels
            (<[TcpConnection.m_channel this := Channel.set_events ch Channel.kNoneEvent]>
               (channels w)) w)).
Proof.
  intros Ht Hc Hs Hi Hm Ha Hb.
  unfold TcpConnection_connectEstablished. run_assert Ht. rewrite Hs. simpl.
  unfold bind at 1. unfold Channel_enableReading. run_channel_at Hc.
  rewrite (Channel_store_update_taken _ ch _ w Ht Hc Hi Hm). simpl.
  set (w1 := set_channels _ w).
  unfold TcpConnection_handleClose. simpl.
  assert (Ht1 : in_loop_thread w1) by exact Ht.
  run_assert Ht1.
  unfold bind at 1. unfold Channel_disableAll.
  unfold bind at 1. unfold channel_at at 1. simpl. rewrite lookup_insert_eq.
  erewrite (Channel_store_update_taken _ _ _ w1 Ht1);
    [|apply lookup_insert_eq|exact Hi|exact Hm].
  rewrite Ha, Hb. unfold call, bind, emit, modify, ret. simpl.
  f_equal. unfold log_events, set_channels. simpl.
  rewrite insert_insert_eq, <- app_assoc. reflexivity.
Qed.


(** X8. forceClose from any thread only marks the connection Disconnecting and
    queues forceCloseInLoop; the queued closure, run in the loop thread,
    closes the connection (connection callback, then close callback), and a
    second run of it, queued by a second forceClose, finds the connection
    Disconnected and does nothing. *)
Theorem TcpConnection_forceClose_closes_once (this : TcpConnection.t) (w : World)
    (a b : CallbackId) :
  TcpConnection.m_state this = kConnected \/ TcpConnection.m_state this = kDisconnecting ->
  TcpConnection.m_connectionCallback this = Some a ->
  TcpConnection.m_closeCallback this = Some b ->
  let closing := TcpConnection.setState this kDisconnecting in
  let closed := TcpConnection.setState this kDisconnected in
  TcpConnection_forceClose this w
  = Done closing (log_events (wakeup_events w) (push_functor FnForceCloseInLoop w))
  /\ forall w2 ch,
       in_loop_thread w2 ->
       channels w2 !! TcpConnection.m_channel this = Some ch ->
       exists w3 ch',
         TcpConnection_forceCloseInLoop closing w2 = Done closed w3
         /\ trace w3 = trace w2 ++ [EvConnectionCallback a false; EvCloseCallback b]
         /\ channels w3 !! TcpConnection.m_channel this = Some ch'
         /\ Channel.isNoneEvent ch' = true
         /\ TcpConnection_forceCloseInLoop closed w3 = Done closed w3.
Proof.
  intros Hs Ha Hb closing closed. split.
  - unfold TcpConnection_forceClose.
    assert (E : TcpConnection.StateE_eqb (TcpConnection.m_state this) kConnected
                || TcpConnection.StateE_eqb (TcpConnection.m_state this) kDisconnecting
                = true) by (destruct Hs as [-> | ->]; reflexivity).
    rewrite E. unfold bind at 1. rewrite EventLoop_queueInLoop_spec. reflexivity.
  - intros w2 ch Ht Hc.
    destruct (handleClose_live_thread closing w2 ch a b) as (w3 & E & Htr & Ht3);
      [discriminate|exact Ht|exact Hc|exact Ha|exact Hb|].
    destruct (TcpConnection_handleClose_live closing w2 ch a b)
      as (w3' & ch' & E' & _ & _ & Hc' & Hn);
      [discriminate|exact Ht|exact Hc|exact Ha|exact Hb|].
    rewrite E in E'. inversion E'; subst w3'.
    exists w3, ch'. split.
    { unfold TcpConnection_forceCloseInLoop. run_assert Ht. exact E. }
    split; [exact Htr|]. split; [exact Hc'|]. split; [exact Hn|].
    unfold TcpConnection_forceCloseInLoop. run_assert Ht3. reflexivity.
Qed.

(** ** The timer set across passes, removal and cancellation *)

(** doTimer, as a function of the world. *)
Lemma TimerQueue_doTimer_exact now w :
  in_loop_thread w ->
  NoDup (map snd (timer_queue w)) ->
  timers_live w ->
  TimerQueue_doTimer now w
  = Done tt (set_m_timers (kept now (timers w) (timer_queue w))
               (log_events
                  (fired_events (timers w) (due_prefix now (timers w) (timer_queue w)))
                  (set_timers (run_due now (timers w) (timer_queue w)) w))).
Proof.
  intros Ht Hnd Hlive. unfold TimerQueue_doTimer.
  run_assert Ht.
  unfold bind at 1. unfold gets at 1.
  unfold bind at 1. rewrite (doTimer_from_spec now _ w Hnd Hlive).
  reflexivity.
Qed.

Lemma kept_NoDup now h es :
  NoDup (map snd es) -> NoDup (map snd (kept now h es)).
Proof.
  induction es as [|e r IH]; intros Hnd; [exact Hnd|].
  simpl. destruct (h !! snd e) as [tm|]; [|exact Hnd].
  destruct (Timer.m_expiration tm <=? now); [|exact Hnd].
  apply NoDup_map_snd_cons in Hnd as [Hn Hnd].
  destruct (Timer.m_repeatCount (Timer_after_run tm) =? 0); [now apply IH|].
  simpl. apply NoDup_cons_2; [|now apply IH].
  rewrite list_elem_of_In. intros Hin. apply Hn.
  apply in_map_iff in Hin as (x & Hx & Hin). apply in_map_iff. exists x.
  split; [exact Hx|]. eapply kept_In; eauto.
Qed.

Lemma kept_sorted now h es :
  StronglySorted TimerQueue.entry_lt es ->
  StronglySorted TimerQueue.entry_lt (kept now h es).
Proof.
  induction es as [|e r IH]; intros Hs; [exact Hs|].
  simpl. destruct (h !! snd e) as [tm|]; [|exact Hs].
  destruct (Timer.m_expiration tm <=? now); [|exact Hs].
  apply StronglySorted_inv in Hs as [Hs Hall].
  destruct (Timer.m_repeatCount (Timer_after_run tm) =? 0); [now apply IH|].
  constructor; [now apply IH|].
  rewrite List.Forall_forall in Hall |- *. intros x Hx. apply Hall.
  eapply kept_In; eauto.
Qed.

(** A pass neither frees a timer nor makes one. *)
Lemma run_due_dom now h es p :
  is_Some (run_due now h es !! p) <-> is_Some (h !! p).
Proof.
  induction es as [|e r IH]; simpl; [tauto|].
  destruct (h !! snd e) as [tm|] eqn:El; [|tauto].
  destruct (Timer.m_expiration tm <=? now); [|tauto].
  destruct (Z.eq_dec (snd e) p) as [<-|Hne].
  - rewrite lookup_insert_eq, El. split; eauto.
  - rewrite lookup_insert_ne by exact Hne. exact IH.
Qed.

(** X14. After a pass of doTimer the set is fit for the next one: still one
    entry per timer, every entry leads to a live timer, the order is kept; the
    pass adds no entry and frees no timer. *)
Theorem TimerQueue_doTimer_can_run_again (w : World) (now : Z) :
  in_loop_thread w ->
  NoDup (map snd (timer_queue w)) ->
  timers_live w ->
  exists w',
    TimerQueue_doTimer now w = Done tt w'
    /\ in_loop_thread w'
    /\ NoDup (map snd (timer_queue w'))
    /\ timers_live w'
    /\ (forall e, In e (timer_queue w') -> In e (timer_queue w))
    /\ (StronglySorted TimerQueue.entry_lt (timer_queue w) ->
        StronglySorted TimerQueue.entry_lt (timer_queue w'))
    /\ (forall p, is_Some (timers w' !! p) <-> is_Some (timers w !! p)).
Proof.
  intros Ht Hnd Hlive. eexists. split; [now apply TimerQueue_doTimer_exact|].
  split; [exact Ht|]. simpl.
  split; [now apply kept_NoDup|].
  split; [|split; [|split]].
  - unfold timers_live in *. simpl. rewrite List.Forall_forall in *.
    intros e He. apply (proj2 (run_due_dom _ _ _ _)). apply Hlive.
    exact (kept_In _ _ _ _ He).
  - intros e. apply kept_In.
  - apply kept_sorted.
  - intros p. apply run_due_dom.
Qed.





(** A callback in the events of a walk comes from an entry of the walk
    whose timer is not cancelled. *)
Lemma fired_events_timer h es p cb :
  In (EvTimerCallback p cb) (fired_events h es) ->
  In p (map snd es) /\ exists tm, h !! p = Some tm /\ Timer.m_canceled tm = false.
Proof.
  unfold fired_events. intros H. apply in_flat_map in H as (e & He & H).
  unfold fire_event in H. destruct (h !! snd e) as [tm|] eqn:El; [|destruct H].
  destruct (Timer.m_canceled tm) eqn:Ec; [destruct H|].
  destruct H as [H|[]]. inversion H; subst. split.
  - apply in_map_iff. now exists e.
  - now exists tm.
Qed.


Lemma due_after_split now h es : es = due_prefix now h es ++ after_due now h es.
Proof.
  induction es as [|e r IH]; [reflexivity|]. simpl.
  destruct (expired now h e); [simpl; now f_equal|reflexivity].
Qed.

(** X16. cancelTimerInLoop on a timer of the set only sets the flag of the
    timer; with the flag on, a pass of doTimer calls no callback of this timer
    and leaves the timer as it is, and its entry stays unless its repeat count
    is 0; switching the flag on and off again gives back the world as it was. *)
Theorem TimerQueue_cancelTimerInLoop_silences (w : World) (k p now : Z) (tm : Timer.t) :
  in_loop_thread w ->
  NoDup (map snd (timer_queue w)) ->
  timers_live w ->
  In (k, p) (timer_queue w) ->
  timers w !! p = Some tm ->
  exists w1 w2 evs,
    TimerQueue_cancelTimerInLoop p true w = Done tt w1
    /\ timer_queue w1 = timer_queue w
    /\ timers w1 = <[p := Timer.cancel tm true]> (timers w)
    /\ TimerQueue_doTimer now w1 = Done tt w2
    /\ trace w2 = trace w ++ evs
    /\ (forall cb, ~ In (EvTimerCallback p cb) evs)
    /\ timers w2 !! p = Some (Timer.cancel tm true)
    /\ (Timer.m_repeatCount tm <> 0 -> In (k, p) (timer_queue w2))
    /\ (Timer.m_canceled tm = false ->
        TimerQueue_cancelTimerInLoop p false w1 = Done tt w).
Proof.
  intros Ht Hnd Hlive Hin Hl.
  assert (Hex : existsb (fun e => snd e =? p) (timer_queue w) = true).
  { apply existsb_exists. exists (k, p). split; [exact Hin|apply Z.eqb_refl]. }
  set (tmc := Timer.cancel tm true).
  set (w1 := set_timers (<[p := tmc]> (timers w)) w).
  assert (E1 : TimerQueue_cancelTimerInLoop p true w = Done tt w1).
  { unfold TimerQueue_cancelTimerInLoop. run_assert Ht.
    unfold bind at 1. unfold gets at 1. rewrite Hex.
    unfold bind, timer_at. rewrite Hl. reflexivity. }
  assert (Ht1 : in_loop_thread w1) by exact Ht.
  assert (Hnd1 : NoDup (map snd (timer_queue w1))) by exact Hnd.
  assert (Hl1 : timers w1 !! p = Some tmc) by apply lookup_insert_eq.
  assert (Hlive1 : timers_live w1).
  { unfold timers_live in *. rewrite List.Forall_forall in *.
    intros e He. simpl. destruct (Z.eq_dec p (snd e)) as [<-|Hne].
    - rewrite lookup_insert_eq. eauto.
    - rewrite lookup_insert_ne by exact Hne. now apply Hlive. }
  eexists w1, _, _. split; [exact E1|]. split; [reflexivity|]. split; [reflexivity|].
  split; [now apply TimerQueue_doTimer_exact|]. split; [reflexivity|].
  split; [|split; [|split]].
  - intros cb Hx. apply fired_events_timer in Hx as (_ & tm' & Hl' & Hc).
    rewrite Hl1 in Hl'. inversion Hl'; subst tm'. discriminate.
  - change (run_due now (timers w1) (timer_queue w1) !! p = Some tmc).
    destruct (in_dec Z.eq_dec p (map snd (due_prefix now (timers w1) (timer_queue w1))))
      as [Hv|Hv].
    + apply in_map_iff in Hv as ([k' p'] & Hp' & Hv). simpl in Hp'. subst p'.
      pose proof (run_due_visited now _ _ (k', p) tmc Hnd1 Hv Hl1) as Hr.
      change (snd (k', p)) with p in Hr. rewrite Hr.
      now rewrite Timer_after_run_canceled.
    + now rewrite run_due_other.
  - intros Hrc.
    change (In (k, p) (kept now (timers w1) (timer_queue w1))).
    assert (Hin1 : In (k, p) (timer_queue w1)) by exact Hin.
    rewrite (due_after_split now (timers w1) (timer_queue w1)) in Hin1.
    apply in_app_or in Hin1 as [Hv|Hv].
    + apply (kept_visited now _ _ (k, p) tmc Hnd1 Hv Hl1).
      now rewrite Timer_after_run_canceled.
    + apply kept_after; [exact Hlive1|exact Hv].
  - intros Hc. unfold TimerQueue_cancelTimerInLoop. run_assert Ht1.
    unfold bind at 1. unfold gets at 1.
    change (timer_queue w1) with (timer_queue w). rewrite Hex.
    unfold bind, timer_at. rewrite Hl1. unfold store_timer, modify. f_equal.
    unfold w1. simpl. rewrite insert_insert_eq.
    replace (Timer.cancel tmc false) with tm
      by (destruct tm; simpl in *; subst; reflexivity).
    rewrite insert_id by exact Hl. unfold set_timers. simpl. now destruct w.
Qed.

(** X17. A timer added in the loop thread with an expiration that has passed
    fires at the next pass of doTimer: its callback is among the callbacks of
    the pass; with repeat count 1 its entry is erased by the pass, and the
    timer itself stays allocated. *)
Theorem TimerQueue_addTimer_due_fires_next_pass (w : World) (p : Z) (cb : CallbackId)
    (when_ interval repeatCount now : Z) :
  queue_ok w ->
  in_loop_thread w ->
  timers w !! p = None ->
  when_ <= now ->
  exists seq w1 w2 evs,
    TimerQueue_addTimer_move p cb when_ interval repeatCount w = Done (p, seq) w1
    /\ queue_ok w1
    /\ TimerQueue_doTimer now w1 = Done tt w2
    /\ trace w2 = trace w ++ evs
    /\ In (EvTimerCallback p cb) evs
    /\ (repeatCount = 1 -> ~ In p (map snd (timer_queue w2)))
    /\ is_Some (timers w2 !! p).
Proof.
  intros Hok Ht Hfree Hdue.
  pose proof (TimerQueue_addTimer_move_spec p cb when_ interval repeatCount w Ht Hfree)
    as E1. cbv zeta in E1.
  set (seq := wrap64 (s_numCreated w + 1)) in *.
  set (tm := Timer.mk cb when_ interval repeatCount seq false) in *.
  set (w1 := set_m_timers _ _) in E1.
  assert (Hok1 : queue_ok w1) by (apply (queue_ok_add w w1 p tm Hok Hfree); reflexivity).
  assert (Ht1 : in_loop_thread w1) by exact Ht.
  destruct Hok1 as (Hnd1 & Hlive1 & Hs1 & Hk1).
  assert (Hl1 : timers w1 !! p = Some tm) by apply lookup_insert_eq.
  assert (Hin1 : In (when_, p) (timer_queue w1)).
  { change (In (when_, p) (TimerQueue.set_insert (when_, p) (timer_queue w))).
    apply set_insert_In. now left. }
  assert (Hexp : expired now (timers w1) (when_, p) = true).
  { unfold expired. change (snd (when_, p)) with p. rewrite Hl1. simpl.
    now apply Z.leb_le. }
  assert (Hv : In (when_, p) (due_prefix now (timers w1) (timer_queue w1))).
  { apply due_prefix_complete; assumption. }
  eexists seq, w1, _, _. split; [exact E1|].
  split; [repeat split; assumption|].
  split; [now apply TimerQueue_doTimer_exact|]. split; [reflexivity|].
  split; [|split].
  - unfold fired_events. apply in_flat_map. exists (when_, p). split; [exact Hv|].
    unfold fire_event. change (snd (when_, p)) with p. rewrite Hl1. simpl. now left.
  - intros ->.
    change (~ In p (map snd (kept now (timers w1) (timer_queue w1)))).
    intros Hx. apply in_map_iff in Hx as ([k' p'] & Hp' & Hx). simpl in Hp'. subst p'.
    assert (Hk : k' = when_).
    { pose proof (kept_In _ _ _ _ Hx) as Hin'.
      unfold keys_current in Hk1. rewrite List.Forall_forall in Hk1.
      destruct (Hk1 _ Hin') as (tm' & Hl' & He').
      change (snd (k', p)) with p in Hl'. change (fst (k', p)) with k' in He'.
      rewrite Hl1 in Hl'. inversion Hl'; subst tm'. now simpl in He'. }
    subst k'.
    apply (kept_visited now _ _ (when_, p) tm Hnd1 Hv Hl1) in Hx.
    apply Hx. reflexivity.
  - change (is_Some (run_due now (timers w1) (timer_queue w1) !! p)).
    apply run_due_dom. rewrite Hl1. eauto.
Qed.

(** X18. addTimer from another thread allocates the timer and queues
    addTimerInLoop, with a wakeup of the loop; the timer set is not touched
    before the loop thread runs the queued call, which inserts the timer under
    its expiration. *)
Theorem TimerQueue_addTimer_from_other_thread (w : World) (p : Z) (cb : CallbackId)
    (when_ interval repeatCount : Z) :
  ~ in_loop_thread w ->
  timers w !! p = None ->
  let seq := wrap64 (s_numCreated w + 1) in
  let tm := Timer.mk cb when_ interval repeatCount seq false in
  exists w1,
    TimerQueue_addTimer_move p cb when_ interval repeatCount w = Done (p, seq) w1
    /\ timer_queue w1 = timer_queue w
    /\ timers w1 = <[p := tm]> (timers w)
    /\ pending w1 = pending w ++ [FnAddTimerInLoop p]
    /\ trace w1 = trace w ++ [EvWakeup]
    /\ forall w2,
         in_loop_thread w2 ->
         timers w2 !! p = Some tm ->
         TimerQueue_addTimerInLoop p w2
         = Done tt (set_m_timers (TimerQueue.set_insert (when_, p) (timer_queue w2)) w2).
Proof.
  intros Hnt Hfree seq tm. unfold TimerQueue_addTimer_move.
  unfold bind at 1. unfold Timer_new.
  unfold bind at 1. unfold gets at 1. rewrite Hfree.
  unfold bind at 1. unfold gets at 1.
  unfold bind at 1. unfold modify at 1.
  unfold store_timer, modify. simpl. fold seq. fold tm.
  set (w0 := set_timers (<[p := tm]> (timers w)) (set_numCreated seq w)).
  assert (Hnt0 : ~ in_loop_thread w0) by exact Hnt.
  unfold bind at 1. unfold EventLoop_runInLoop.
  unfold bind at 1. rewrite (isInLoopThread_false _ Hnt0).
  unfold bind at 1. rewrite EventLoop_queueInLoop_spec.
  unfold ret at 1. unfold bind, timer_at. simpl. rewrite lookup_insert_eq.
  unfold ret. eexists. split; [reflexivity|]. simpl.
  split; [reflexivity|]. split; [reflexivity|]. split; [reflexivity|].
  split.
  - unfold wakeup_events. simpl.
    destruct (Z.eqb_spec (EventLoop.m_threadId (loop w)) (current_thread w)) as [He|He].
    + exfalso. apply Hnt. exact He.
    + reflexivity.
  - intros w2 Ht2 Hl2. unfold TimerQueue_addTimerInLoop. run_assert Ht2.
    now rewrite (TimerQueue_insert_spec _ _ tm Ht2 Hl2).
Qed.

(** ** Packages: the header and the loop of onRead *)

Lemma Z_of_byte_of_Z z : Z_of_byte (byte_of_Z z) = z mod 256.
Proof.
  unfold Z_of_byte, byte_of_Z.
  assert (Hb : 0 <= z mod 256 < 256) by (apply Z.mod_pos_bound; lia).
  destruct (Byte.of_N (Z.to_N (z mod 256))) as [b|] eqn:E.
  - apply Byte.to_of_N in E. rewrite E. lia.
  - apply Byte.of_N_None_iff in E. lia.
Qed.

Lemma le_bytes_length k n : length (le_bytes k n) = k.
Proof. revert n. induction k as [|k IH]; intros n; simpl; [reflexivity|now rewrite IH]. Qed.

Lemma le_value_bytes k n : le_value (le_bytes k n) = n mod 256 ^ Z.of_nat k.
Proof.
  revert n. induction k as [|k IH]; intros n.
  - simpl. now rewrite Z.mod_1_r.
  - cbn [le_bytes le_value]. rewrite Z_of_byte_of_Z, IH.
    rewrite Nat2Z.inj_succ, Z.pow_succ_r by lia.
    rewrite Z.rem_mul_r by lia. reflexivity.
Qed.

(** Reading back the header written for a size gives the size. *)
Lemma header_packagesize_bytes n more :
  - 2 ^ 63 <= n < 2 ^ 63 ->
  header_packagesize (header_bytes n ++ more) = n.
Proof.
  intros Hn. unfold header_packagesize, header_bytes.
  rewrite firstn_app, le_bytes_length, Nat.sub_diag, firstn_O, app_nil_r.
  rewrite firstn_all2 by (now rewrite le_bytes_length).
  rewrite le_value_bytes. unfold wrap64.
  change (256 ^ Z.of_nat 8) with (2 ^ 64).
  rewrite Z.add_mod_idemp_l by lia. rewrite Z.mod_small by lia. lia.
Qed.

Lemma skipn_header n l : skipn (Z.to_nat 8) (header_bytes n ++ l) = l.
Proof.
  change (Z.to_nat 8) with 8%nat. unfold header_bytes.
  rewrite skipn_app, le_bytes_length, Nat.sub_diag.
  rewrite skipn_all2 by (rewrite le_bytes_length; lia). reflexivity.
Qed.

Lemma firstn_body (body more : list Byte.byte) :
  firstn (Z.to_nat (Z.of_nat (length body))) (body ++ more) = body.
Proof. now rewrite Nat2Z.id, firstn_app, Nat.sub_diag, firstn_O, app_nil_r, firstn_all. Qed.

Lemma skipn_body (body more : list Byte.byte) :
  skipn (Z.to_nat (Z.of_nat (length body))) (body ++ more) = more.
Proof. now rewrite Nat2Z.id, skipn_app, Nat.sub_diag, skipn_all. Qed.

Lemma package_length body :
  Z.of_nat (length (package body)) = sizeof_file_msg_header + Z.of_nat (length body).
Proof.
  unfold package, header_bytes. rewrite length_app, le_bytes_length.
  unfold sizeof_file_msg_header. lia.
Qed.

Lemma bind_assoc {A B C} (m : M A) (f : A -> M B) (g : B -> M C) w :
  bind (bind m f) g w = bind m (fun a => bind (f a) g) w.
Proof. unfold bind. now destruct (m w). Qed.

Lemma bind_ext {A B} (m : M A) (f g : A -> M B) w :
  (forall a w', m w = Done a w' -> f a w' = g a w') ->
  bind m f w = bind m g w.
Proof. intros H. unfold bind. destruct (m w); auto. Qed.

Lemma bind_ret_l {A B} (a : A) (f : A -> M B) w : bind (ret a) f w = f a w.
Proof. reflexivity. Qed.

(** forceClose returns and leaves the buffers of the connection alone. *)
Lemma TcpConnection_forceClose_buffers this w :
  exists this' w',
    TcpConnection_forceClose this w = Done this' w'
    /\ TcpConnection.m_inputBuffer this' = TcpConnection.m_inputBuffer this.
Proof.
  unfold TcpConnection_forceClose.
  destruct (_ || _).
  - unfold bind at 1. rewrite EventLoop_queueInLoop_spec. unfold ret.
    eexists _, _. split; reflexivity.
  - unfold ret. eexists _, _. split; reflexivity.
Qed.

Section FileSession_facts.
Variable process : TcpConnection.t -> list Byte.byte -> M (bool * TcpConnection.t).
Hypothesis process_keeps_input :
  forall c body w ok c' w',
    process c body w = Done (ok, c') w' ->
    TcpConnection.m_inputBuffer c' = TcpConnection.m_inputBuffer c.

(** The rounds of onRead that take the packages of [bodies] out of the
    buffer. *)
Lemma FileSession_onRead_packages bodies : forall tail conn fuel w,
  Forall valid_body bodies ->
  ByteBuffer.readable (TcpConnection.m_inputBuffer conn)
  = concat (map package bodies) ++ tail ->
  (c <- deliver process bodies tail conn ;; FileSession_onRead process fuel c) w
  = FileSession_onRead process (length bodies + fuel) conn w.
Proof.
  induction bodies as [|body rest IH]; intros tail conn fuel w Hvalid Hbuf.
  - reflexivity.
  - apply Forall_cons in Hvalid as [Hbody Hvalid].
    unfold valid_body, MAX_PACKAGE_SIZE in Hbody.
    set (more := concat (map package rest) ++ tail).
    assert (Hbuf' : ByteBuffer.readable (TcpConnection.m_inputBuffer conn)
                    = header_bytes (Z.of_nat (length body)) ++ body ++ more).
    { rewrite Hbuf. simpl. unfold package, more. now rewrite <- !app_assoc. }
    assert (Hlen : ByteBuffer.readableBytes (TcpConnection.m_inputBuffer conn)
                   = 8 + Z.of_nat (length body) + Z.of_nat (length more)).
    { unfold ByteBuffer.readableBytes. rewrite Hbuf', !length_app.
      unfold header_bytes. rewrite le_bytes_length. lia. }
    assert (Hps : header_packagesize (ByteBuffer.peek (TcpConnection.m_inputBuffer conn))
                  = Z.of_nat (length body)).
    { unfold ByteBuffer.peek. rewrite Hbuf'. apply header_packagesize_bytes. lia. }
    change (length (body :: rest) + fuel)%nat with (S (length rest + fuel)).
    cbn [FileSession_onRead deliver]. rewrite Hps, Hlen.
    unfold sizeof_file_msg_header, wrap_size_t, MAX_PACKAGE_SIZE.
    change (8 mod 2 ^ 64) with 8.
    rewrite (Z.mod_small (Z.of_nat (length body))) by lia.
    rewrite (Z.mod_small (Z.of_nat (length body) + 8)) by lia.
    destruct (Z.ltb_spec (8 + Z.of_nat (length body) + Z.of_nat (length more)) 8);
      [lia|].
    destruct (Z.leb_spec (Z.of_nat (length body)) 0); [lia|].
    destruct (Z.gtb_spec (Z.of_nat (length body)) (50 * 1024 * 1024)); [lia|].
    destruct (Z.ltb_spec (8 + Z.of_nat (length body) + Z.of_nat (length more))
                (Z.of_nat (length body) + 8)); [lia|].
    cbn [orb].
    assert (Hin : firstn (Z.to_nat (Z.of_nat (length body)))
                    (ByteBuffer.peek
                       (ByteBuffer_retrieve (TcpConnection.m_inputBuffer conn) 8))
                  = body).
    { unfold ByteBuffer.peek, ByteBuffer_retrieve.
      cbn [ByteBuffer.readable]. rewrite Hbuf', skipn_header. apply firstn_body. }
    assert (Hrest : ByteBuffer_retrieve
                      (ByteBuffer_retrieve (TcpConnection.m_inputBuffer conn) 8)
                      (Z.of_nat (length body))
                    = ByteBuffer.mk more).
    { unfold ByteBuffer_retrieve. cbn [ByteBuffer.readable].
      rewrite Hbuf', skipn_header, skipn_body. reflexivity. }
    rewrite Hin, Hrest. fold more.
    set (conn1 := TcpConnection.set_inputBuffer conn (ByteBuffer.mk more)).
    rewrite bind_assoc. apply bind_ext. intros [ok c'] w' Ep.
    pose proof (process_keeps_input _ _ _ _ _ _ Ep) as Hkeep.
    rewrite bind_assoc.
    destruct (TcpConnection_forceClose_buffers c' w') as (c2 & w2 & Ef & Hb2).
    destruct ok; cbn [negb].
    + rewrite !bind_ret_l. apply IH; [exact Hvalid|].
      rewrite Hkeep. reflexivity.
    + unfold bind at 1. unfold bind at 2. rewrite Ef. apply IH; [exact Hvalid|].
      rewrite Hb2, Hkeep. reflexivity.
Qed.
End FileSession_facts.

Section FileSession_deliver.
Variable process : TcpConnection.t -> list Byte.byte -> M (bool * TcpConnection.t).
Hypothesis process_keeps_input :
  forall c body w ok c' w',
    process c body w = Done (ok, c') w' ->
    TcpConnection.m_inputBuffer c' = TcpConnection.m_inputBuffer c.

(** After the bodies are delivered the buffer holds the tail. *)
Lemma deliver_input bodies tail : forall conn w c w',
  ByteBuffer.readable (TcpConnection.m_inputBuffer conn)
  = concat (map package bodies) ++ tail ->
  deliver process bodies tail conn w = Done c w' ->
  ByteBuffer.readable (TcpConnection.m_inputBuffer c) = tail.
Proof.
  induction bodies as [|body rest IH]; intros conn w c w' Hbuf Hd.
  - simpl in Hd. unfold ret in Hd. inversion Hd; subst. exact Hbuf.
  - cbn [deliver] in Hd.
    apply bind_Done_inv in Hd as ([ok c1] & w1 & Ep & Hd).
    pose proof (process_keeps_input _ _ _ _ _ _ Ep) as Hkeep.
    apply bind_Done_inv in Hd as (c2 & w2 & Ef & Hd).
    apply (IH c2 w2 c w'); [|exact Hd].
    destruct ok; cbn [negb] in Ef.
    + unfold ret in Ef. inversion Ef; subst. now rewrite Hkeep.
    + destruct (TcpConnection_forceClose_buffers c1 w1) as (c2' & w2' & Ef' & Hb).
      rewrite Ef' in Ef. inversion Ef; subst. now rewrite Hb, Hkeep.
Qed.
End FileSession_deliver.

(** X19. onRead takes the whole packages at the front of the input buffer out
    of it, in order, and gives the body of each to process, calling forceClose
    after a body that process fails on and going on with the next package; it
    stops, leaving the rest in the buffer, at a rest that is not yet a whole
    package, and stops with forceClose at a header whose size is not positive
    or above MAX_PACKAGE_SIZE. One round more than there are packages is
    enough. *)
Theorem FileSession_onRead_delivers
    (process : TcpConnection.t -> list Byte.byte -> M (bool * TcpConnection.t))
    (bodies : list (list Byte.byte)) (tail : list Byte.byte) (conn : TcpConnection.t)
    (fuel : nat) (w : World) :
  (forall c body w0 ok c' w',
     process c body w0 = Done (ok, c') w' ->
     TcpConnection.m_inputBuffer c' = TcpConnection.m_inputBuffer c) ->
  Forall valid_body bodies ->
  ByteBuffer.readable (TcpConnection.m_inputBuffer conn)
  = concat (map package bodies) ++ tail ->
  (length bodies < fuel)%nat ->
  (incomplete tail ->
   FileSession_onRead process fuel conn w
   = (c <- deliver process bodies tail conn ;; ret (Some c)) w)
  /\ (bad_header tail ->
      FileSession_onRead process fuel conn w
      = (c <- deliver process bodies tail conn ;;
         c' <- TcpConnection_forceClose c ;;
         ret (Some c')) w).
Proof.
  intros Hkeep Hvalid Hbuf Hfuel.
  replace fuel with (length bodies + S (fuel - S (length bodies)))%nat by lia.
  rewrite <- (FileSession_onRead_packages process Hkeep bodies tail conn _ w Hvalid Hbuf).
  split; intros Htail; apply bind_ext; intros c w' Hd;
    pose proof (deliver_input process Hkeep bodies tail conn w c w' Hbuf Hd) as Hc;
    cbn [FileSession_onRead];
    unfold ByteBuffer.readableBytes, ByteBuffer.peek; rewrite Hc;
    unfold sizeof_file_msg_header, wrap_size_t in *;
    change (8 mod 2 ^ 64) with 8.
  - destruct (Z.ltb_spec (Z.of_nat (length tail)) 8) as [Hs|Hs]; [reflexivity|].
    unfold incomplete, sizeof_file_msg_header in Htail.
    destruct Htail as [Hlt|[Hps Hlt]]; [lia|].
    unfold MAX_PACKAGE_SIZE in *.
    destruct (Z.leb_spec (header_packagesize tail) 0); [lia|].
    destruct (Z.gtb_spec (header_packagesize tail) (50 * 1024 * 1024)); [lia|].
    cbn [orb].
    rewrite (Z.mod_small (header_packagesize tail)) by lia.
    rewrite (Z.mod_small (header_packagesize tail + 8)) by lia.
    destruct (Z.ltb_spec (Z.of_nat (length tail)) (header_packagesize tail + 8));
      [reflexivity|lia].
  - unfold bad_header, sizeof_file_msg_header in Htail.
    destruct Htail as [Hlen Hbad].
    destruct (Z.ltb_spec (Z.of_nat (length tail)) 8) as [Hs|Hs]; [lia|].
    unfold MAX_PACKAGE_SIZE in *.
    destruct Hbad as [Hbad|Hbad].
    + destruct (Z.leb_spec (header_packagesize tail) 0); [reflexivity|lia].
    + destruct (Z.gtb_spec (header_packagesize tail) (50 * 1024 * 1024)); [|lia].
      now rewrite orb_true_r.
Qed.

(** ** TcpSession::sendPackage *)

(** X20. sendPackage sends nothing for an empty body or an expired connection.
    For a body of 1 to 2^31 - 9 bytes on a Connected connection, in the loop
    thread, it hands the 8 bytes of the header followed by the body to the
    connection: all of them reach the socket or the end of the output buffer,
    in order, unless the direct write fails with EPIPE or ECONNRESET. *)
Theorem TcpSession_sendPackage_frames (conn : TcpConnection.t) (body : list Byte.byte)
    (wr : WriteResult) (w : World) (ch : Channel.t) :
  in_loop_thread w ->
  channels w !! TcpConnection.m_channel conn = Some ch ->
  TcpConnection.m_state conn = kConnected ->
  0 < Z.of_nat (length body) ->
  Z.of_nat (length body) + 8 < 2 ^ 31 ->
  write_ret wr <= Z.of_nat (length body) + 8 ->
  ByteBuffer.readableBytes (TcpConnection.m_outputBuffer conn) < 2 ^ 63 ->
  output_armed conn w ->
  (exists conn' w',
     TcpSession_sendPackage (Some conn) body wr w = Done (Some conn') w'
     /\ in_loop_thread w'
     /\ socket_stream (Channel.m_fd ch) (trace w')
        ++ ByteBuffer.readable (TcpConnection.m_outputBuffer conn')
        = socket_stream (Channel.m_fd ch) (trace w)
          ++ ByteBuffer.readable (TcpConnection.m_outputBuffer conn)
          ++ (if direct_write_attempted conn ch && (write_ret wr <? 0)
                 && fatal_errno (write_errno wr)
              then [] else package body)
     /\ output_armed conn' w')
  /\ TcpSession_sendPackage None body wr w = Done None w
  /\ (forall c, TcpSession_sendPackage c [] wr w = Done c w).
Proof.
  intros Ht Hc Hs Hpos Hint Hret Hout Harmed.
  assert (Hlen : Z.of_nat (length (header_bytes (Z.of_nat (length body)) ++ body))
                 = Z.of_nat (length body) + 8).
  { pose proof (package_length body) as Hp.
    unfold package, sizeof_file_msg_header in Hp. lia. }
  split; [|split].
  - unfold TcpSession_sendPackage.
    destruct (Z.leb_spec (Z.of_nat (length body)) 0) as [Hle|_]; [lia|].
    rewrite Hlen. unfold wrap32.
    rewrite Z.mod_small by lia.
    replace (Z.of_nat (length body) + 8 + 2 ^ 31 - 2 ^ 31)
      with (Z.of_nat (length body) + 8) by lia.
    destruct (Z.ltb_spec (Z.of_nat (length body) + 8) 0) as [Hneg|_]; [lia|].
    rewrite <- Hlen, Nat2Z.id, firstn_all. fold (package body).
    unfold bind at 1. unfold TcpConnection_send. rewrite Hs. simpl.
    unfold bind at 1. rewrite (isInLoopThread_true _ Ht).
    assert (Hsmall : ByteBuffer.readableBytes (TcpConnection.m_outputBuffer conn)
                     + Z.of_nat (length (package body)) < 2 ^ 64)
      by (unfold package; lia).
    assert (Hret' : write_ret wr <= Z.of_nat (length (package body)))
      by (unfold package; lia).
    assert (Hlive : TcpConnection.m_state conn <> kDisconnected)
      by (rewrite Hs; discriminate).
    destruct (direct_write_attempted conn ch) eqn:Hd; cbn [andb];
      [destruct (sendInLoop_direct_conserves conn (package body) wr w ch
                   Hd Ht Hc Hlive Hret' Hsmall Harmed)
         as (conn' & w' & E & Ht' & Hstream & Harmed')
      |destruct (sendInLoop_queued_conserves conn (package body) wr w ch
                   Hd Ht Hc Hlive Hret' Hsmall Harmed)
         as (conn' & w' & E & Ht' & Hstream & Harmed')];
      rewrite E; unfold ret; exists conn', w'; repeat split; assumption.
  - unfold TcpSession_sendPackage.
    destruct (Z.leb_spec (Z.of_nat (length body)) 0) as [Hle|_]; [lia|].
    reflexivity.
  - intros c. reflexivity.
Qed.

(** ** More worked examples *)

(** The last four pending bytes go out on a connection that is shutting
    down: write-complete is queued and the socket is shut down. *)
Lemma TcpConnection_handleWrite_progress_witness :
  exists w' ch' calls,
    TcpConnection_handleWrite conn_pending_closing (mkWrite 4 0) world_conn_writing
    = Done (TcpConnection.set_outputBuffer conn_pending_closing (ByteBuffer.mk []),
            calls) w'
    /\ channels w' !! 100 = Some ch'
    /\ Channel.isWriting ch' = false
    /\ pending w' = [FnWriteComplete 12%nat]
    /\ calls = [SockShutdownWrite 5].
Proof.
  destruct (TcpConnection_handleWrite_progress conn_pending_closing world_conn_writing
              chan_conn_writing (mkWrite 4 0))
    as (w' & ch' & calls & E & Hc & Hw & Hp & Hcalls);
    [reflexivity|reflexivity|reflexivity|vm_compute; split; [reflexivity|discriminate]|].
  exists w', ch', calls. split; [exact E|]. split; [exact Hc|].
  split; [exact Hw|]. split; [exact Hp|exact Hcalls].
Defined.

(** A write that would block closes the connection. *)
Lemma TcpConnection_handleWrite_failure_witness :
  exists w' ch',
    TcpConnection_handleWrite conn_pending (mkWrite (-1) EWOULDBLOCK) world_conn_writing
    = Done (TcpConnection.setState conn_pending kDisconnected, []) w'
    /\ trace w' = [EvSocketWrite 5 abcd (-1);
                   EvConnectionCallback 10%nat false;
                   EvCloseCallback 14%nat]
    /\ pending w' = []
    /\ channels w' !! 100 = Some ch'
    /\ Channel.isNoneEvent ch' = true.
Proof.
  apply (TcpConnection_handleWrite_failure conn_pending world_conn_writing
           chan_conn_writing (mkWrite (-1) EWOULDBLOCK) 10%nat 14%nat);
    try reflexivity; [vm_compute; discriminate|discriminate].
Defined.

Lemma output_armed_conn_pending : output_armed conn_pending world_conn_writing.
Proof. intros _ _. exists chan_conn_writing. split; reflexivity. Defined.

(** Two of the four pending bytes go out. *)
Lemma TcpConnection_handleWrite_conserves_bytes_witness :
  exists this' calls w',
    TcpConnection_handleWrite conn_pending (mkWrite 2 0) world_conn_writing
    = Done (this', calls) w'
    /\ socket_stream 5 (trace w')
       ++ ByteBuffer.readable (TcpConnection.m_outputBuffer this')
       = abcd
    /\ output_armed this' w'.
Proof.
  destruct (TcpConnection_handleWrite_conserves_bytes conn_pending world_conn_writing
              chan_conn_writing (mkWrite 2 0) 10%nat 14%nat)
    as (this' & calls & w' & E & _ & _ & Hs & Ha);
    [reflexivity|reflexivity|reflexivity|reflexivity|vm_compute; discriminate
    |exact output_armed_conn_pending|].
  exists this', calls, w'. split; [exact E|]. split; [exact Hs|exact Ha].
Defined.

Lemma output_armed_conn0 : output_armed conn0 world_conn.
Proof. intros _ H. vm_compute in H. discriminate. Defined.

Lemma output_armed_conn_closed :
  output_armed (TcpConnection.setState conn0 kDisconnected) world_conn.
Proof. intros H _. now contradiction H. Defined.

(** On the Connected connection the socket takes two of four bytes and
    the other two wait; on the same connection once Disconnected the four
    bytes are dropped and nothing happens. *)
Lemma TcpConnection_sendInLoop_conserves_bytes_witness :
  (exists this' w',
     TcpConnection_sendInLoop conn0 abcd (mkWrite 2 0) world_conn = Done this' w'
     /\ socket_stream 5 (trace w')
        ++ ByteBuffer.readable (TcpConnection.m_outputBuffer this')
        = abcd
     /\ output_armed this' w')
  /\ TcpConnection_sendInLoop (TcpConnection.setState conn0 kDisconnected) abcd
       (mkWrite 2 0) world_conn
     = Done (TcpConnection.setState conn0 kDisconnected) world_conn.
Proof.
  split.
  - destruct (TcpConnection_sendInLoop_conserves_bytes conn0 abcd (mkWrite 2 0)
                world_conn chan_conn)
      as (this' & w' & E & _ & Hs & Ha & _);
      [reflexivity|reflexivity|vm_compute; discriminate|reflexivity
      |exact output_armed_conn0|].
    exists this', w'. split; [exact E|]. split; [exact Hs|exact Ha].
  - destruct (TcpConnection_sendInLoop_conserves_bytes
                (TcpConnection.setState conn0 kDisconnected) abcd (mkWrite 2 0)
                world_conn chan_conn)
      as (this' & w' & E & _ & _ & _ & Hsame);
      [reflexivity|reflexivity|vm_compute; discriminate|reflexivity
      |exact output_armed_conn_closed|].
    destruct (Hsame eq_refl) as [-> ->]. exact E.
Defined.

(** connectEstablished on the fresh channel for fd 5. *)
Lemma TcpConnection_connectEstablished_registers_witness :
  exists w',
    TcpConnection_connectEstablished conn_connecting world_registered = Done conn0 w'
    /\ trace w' = [EvConnectionCallback 10%nat true]
    /\ SelectPoller.m_channels (poller w') !! 5 = Some 100
    /\ SelectPoller.m_events (poller w')
       = [SelectPoller.mk_event 3 200; SelectPoller.mk_event 3 100].
Proof.
  destruct (TcpConnection_connectEstablished_registers conn_connecting world_registered
              chan_new 10%nat)
    as (w' & E & Htr & _ & _ & Hm & He); try reflexivity.
  exists w'. split; [exact E|]. split; [exact Htr|].
  split; [rewrite Hm; reflexivity|exact He].
Defined.

(** connectEstablished when fd 5 belongs to another channel. *)
Lemma TcpConnection_connectEstablished_fd_taken_witness :
  exists w',
    TcpConnection_connectEstablished conn_connecting world_fd5_taken
    = Done (TcpConnection.setState conn_connecting kDisconnected) w'
    /\ trace w' = [EvConnectionCallback 10%nat false; EvCloseCallback 14%nat]
    /\ poller w' = poller world_fd5_taken.
Proof.
  eexists. split; [|split].
  - apply (TcpConnection_connectEstablished_fd_taken conn_connecting world_fd5_taken
             chan_new 10%nat 14%nat); try reflexivity. discriminate.
  - reflexivity.
  - reflexivity.
Defined.


(** forceClose from another thread, then the queued call in the loop
    thread, twice. *)
Lemma TcpConnection_forceClose_closes_once_witness :
  TcpConnection_forceClose conn0 world_conn_other_thread
  = Done conn_disconnecting
      (log_events [EvWakeup] (push_functor FnForceCloseInLoop world_conn_other_thread))
  /\ exists w3,
       TcpConnection_forceCloseInLoop conn_disconnecting world_conn
       = Done (TcpConnection.setState conn0 kDisconnected) w3
       /\ trace w3 = [EvConnectionCallback 10%nat false; EvCloseCallback 14%nat]
       /\ TcpConnection_forceCloseInLoop (TcpConnection.setState conn0 kDisconnected) w3
          = Done (TcpConnection.setState conn0 kDisconnected) w3.
Proof.
  destruct (TcpConnection_forceClose_closes_once conn0 world_conn_other_thread
              10%nat 14%nat) as [E H]; [now left|reflexivity|reflexivity|].
  split; [exact E|].
  destruct (H world_conn chan_conn eq_refl eq_refl) as (w3 & ch' & E3 & Htr & _ & _ & E4).
  exists w3. split; [exact E3|]. split; [exact Htr|exact E4].
Defined.

(** sendPackage of "abcd" when the socket takes all twelve bytes. *)
Lemma TcpSession_sendPackage_frames_witness :
  exists conn' w',
    TcpSession_sendPackage (Some conn0) abcd (mkWrite 12 0) world_conn
    = Done (Some conn') w'
    /\ socket_stream 5 (trace w')
       ++ ByteBuffer.readable (TcpConnection.m_outputBuffer conn')
       = [Byte.x04; Byte.x00; Byte.x00; Byte.x00; Byte.x00; Byte.x00; Byte.x00; Byte.x00;
          Byte.x61; Byte.x62; Byte.x63; Byte.x64].
Proof.
  destruct (TcpSession_sendPackage_frames conn0 abcd (mkWrite 12 0) world_conn chan_conn)
    as [(conn' & w' & E & _ & Hs & _) _];
    [reflexivity|reflexivity|reflexivity|reflexivity|reflexivity
    |vm_compute; discriminate|reflexivity|exact output_armed_conn0|].
  exists conn', w'. split; [exact E|exact Hs].
Defined.

Lemma watch_inv_world_registered : watch_inv world_registered.
Proof.
  intros c ch Hl. unfold world_registered in Hl. simpl in Hl.
  apply lookup_insert_Some in Hl as [[<- <-]|[_ Hl]].
  - split; [|split].
    + intros [H|H]; discriminate H.
    + intros H; discriminate H.
    + reflexivity.
  - apply lookup_singleton_Some in Hl as [<- <-].
    split; [|split].
    + intros _. reflexivity.
    + intros H; discriminate H.
    + reflexivity.
Defined.

(** Write interest for the registered channel of fd 6. *)
Lemma Channel_interest_keeps_poller_in_step_witness :
  exists w',
    Channel_enableWriting 200 world_registered = Done true w'
    /\ watch_inv w'.
Proof.
  destruct (Channel_interest_keeps_poller_in_step Channel_enableWriting 200 chan_added
              world_registered)
    as (ok & w' & E & Hinv & _ & Hno);
    [simpl; tauto|exact watch_inv_world_registered|reflexivity|reflexivity|].
  destruct ok.
  - exists w'. split; [exact E|exact Hinv].
  - exfalso. destruct (Hno eq_refl) as [Hx _]. apply Hx. reflexivity.
Defined.

Lemma watch_inv_world_deleted : watch_inv world_deleted.
Proof.
  intros c ch Hl. unfold world_deleted in Hl. simpl in Hl.
  apply lookup_singleton_Some in Hl as [<- <-].
  split; [|split].
  - intros _. reflexivity.
  - intros _. reflexivity.
  - reflexivity.
Defined.

(** Channel::remove of the Deleted channel of fd 6. *)
Lemma Channel_remove_unregisters_witness :
  exists w',
    Channel_remove 200 world_deleted = Done tt w'
    /\ watch_inv w'
    /\ SelectPoller.m_channels (poller w') = ∅
    /\ index_of w' 200 = SelectPoller.kNew.
Proof.
  destruct (Channel_remove_unregisters 200 chan_deleted world_deleted
              watch_inv_world_deleted eq_refl eq_refl)
    as (w' & E & _ & _ & Hdel & _).
  destruct (Hdel eq_refl) as (Hinv & Hm & Hh).
  exists w'. split; [exact E|]. split; [exact Hinv|].
  split; [rewrite Hm; reflexivity|].
  unfold index_of. rewrite Hh. reflexivity.
Defined.

(** The fresh channel for fd 5 is registered and unregistered again. *)
Lemma Channel_register_unregister_round_trip_witness :
  exists w1 w',
    Channel_enableReading 100 world_registered = Done true w1
    /\ SelectPoller_hasChannel 100 w1 = Done true w1
    /\ (Channel_disableAll 100 ;; Channel_remove 100) w1 = Done tt w'
    /\ channels w' = channels world_registered
    /\ SelectPoller.m_channels (poller w') = {[6 := 200]}
    /\ SelectPoller.m_events (poller w') = [SelectPoller.mk_event 3 200].
Proof.
  destruct (Channel_register_unregister_round_trip 100 chan_new world_registered)
    as (w1 & w' & E1 & _ & _ & Hhas & E2 & _ & Hh & Hm & He & _);
    try reflexivity.
  exists w1, w'. split; [exact E1|]. split; [exact Hhas|]. split; [exact E2|].
  split; [exact Hh|]. split; [exact Hm|exact He].
Defined.

Lemma poller_inv_world_poll : poller_inv world_poll.
Proof.
  unfold poller_inv. simpl. apply map_Forall_insert_2; [reflexivity|].
  apply map_Forall_singleton. reflexivity.
Defined.

Lemma fds_in_range_world_poll : fds_in_range world_poll.
Proof.
  unfold fds_in_range. simpl. apply map_Forall_insert_2; [reflexivity|].
  apply map_Forall_singleton. reflexivity.
Defined.

(** A poll of one and a half seconds on two channels; select says
    nothing is ready. *)
Lemma SelectPoller_poll_select_call_witness :
  exists call,
    SelectPoller_poll 1500 [] (mkSelectResult 0 ∅ ∅) 77 world_poll
    = Done (77, [], call) world_poll
    /\ (5 ∈ sc_readfds call /\ 7 ∈ sc_readfds call)
    /\ (7 ∈ sc_writefds call /\ 5 ∉ sc_writefds call)
    /\ 7 < sc_nfds call
    /\ sc_tv_sec call = 1
    /\ sc_tv_usec call = 500000.
Proof.
  destruct (SelectPoller_poll_select_call 1500 [] (mkSelectResult 0 ∅ ∅) 77 world_poll
              poller_inv_world_poll fds_in_range_world_poll)
    as (active' & call & w' & E & Hr & Hw & Hn & _ & Hsum & Hpos & _ & Hidle).
  destruct (Hidle ltac:(simpl; lia)) as [-> ->].
  exists call. split; [exact E|].
  split; [|split; [|split; [|split]]].
  - split; apply Hr.
    + exists 100, chan_conn. repeat split.
    + exists 300, chan_fd7. repeat split.
  - split.
    + apply Hw. exists 300, chan_fd7. repeat split.
    + intros Hx. apply Hw in Hx as (c & ch & Hm & Hc & Hi).
      change (SelectPoller.m_channels (poller world_poll) !! 5) with (Some 100) in Hm.
      inversion Hm; subst c.
      change (channels world_poll !! 100) with (Some chan_conn) in Hc.
      inversion Hc; subst ch. discriminate Hi.
  - apply (Hn 7 300). reflexivity.
  - destruct (Hpos ltac:(lia)) as [H1 H2]. lia.
  - destruct (Hpos ltac:(lia)) as [H1 H2]. lia.
Defined.

(** select found fd 5 readable and fd 7 writable: both channels are
    reported, in the order of their fds, each with its bit, and the event
    list of two entries doubles. *)
Lemma SelectPoller_poll_reports_ready_witness :
  exists call w',
    SelectPoller_poll 1500 [] select_5r_7w 77 world_poll = Done (77, [100; 300], call) w'
    /\ channels w' !! 100 = Some (Channel.add_revents chan_conn XPOLLIN)
    /\ channels w' !! 300 = Some (Channel.add_revents chan_fd7 XPOLLOUT)
    /\ length (SelectPoller.m_events (poller w')) = 4%nat.
Proof.
  destruct (SelectPoller_poll_reports_ready 1500 [] select_5r_7w 77 world_poll
              poller_inv_world_poll fds_in_range_world_poll)
    as (call & w' & E & _ & _ & _ & Hch & _ & He & _); [reflexivity|].
  exists call, w'. split; [exact E|].
  split; [|split].
  - destruct (Hch 100 chan_conn eq_refl) as [H _]. apply H. vm_compute. auto.
  - destruct (Hch 300 chan_fd7 eq_refl) as [H _]. apply H. vm_compute. auto.
  - rewrite He. reflexivity.
Defined.

(** A pass at time 20 over the four timers leaves a set fit for the
    next pass. *)
Lemma TimerQueue_doTimer_can_run_again_witness :
  exists w',
    TimerQueue_doTimer 20 world_timers = Done tt w'
    /\ in_loop_thread w'
    /\ NoDup (map snd (timer_queue w'))
    /\ timers_live w'.
Proof.
  destruct (TimerQueue_doTimer_can_run_again world_timers 20 eq_refl
              NoDup_world_timers timers_live_world_timers)
    as (w' & E & Ht & Hnd & Hlive & _).
  exists w'. split; [exact E|]. split; [exact Ht|]. split; [exact Hnd|exact Hlive].
Defined.


(** The repeating timer is cancelled before the pass at time 20. *)
Lemma TimerQueue_cancelTimerInLoop_silences_witness :
  exists w1 w2 evs,
    TimerQueue_cancelTimerInLoop 7 true world_timers = Done tt w1
    /\ TimerQueue_doTimer 20 w1 = Done tt w2
    /\ trace w2 = evs
    /\ ~ In (EvTimerCallback 7 70%nat) evs
    /\ In (10, 7) (timer_queue w2)
    /\ TimerQueue_cancelTimerInLoop 7 false w1 = Done tt world_timers.
Proof.
  destruct (TimerQueue_cancelTimerInLoop_silences world_timers 10 7 20 timer_repeating
              eq_refl NoDup_world_timers timers_live_world_timers)
    as (w1 & w2 & evs & E1 & _ & _ & E2 & Htr & Hno & _ & Hin & Hback);
    [vm_compute; auto|reflexivity|].
  exists w1, w2, evs. split; [exact E1|]. split; [exact E2|]. split; [exact Htr|].
  split; [apply Hno|]. split; [apply Hin; discriminate|apply Hback; reflexivity].
Defined.

(** A single-shot timer due at 10 is added at time 20 to the empty set. *)
Lemma TimerQueue_addTimer_due_fires_next_pass_witness :
  exists seq w1 w2 evs,
    TimerQueue_addTimer_move 50 9%nat 10 0 1 world0 = Done (50, seq) w1
    /\ TimerQueue_doTimer 20 w1 = Done tt w2
    /\ trace w2 = evs
    /\ In (EvTimerCallback 50 9%nat) evs
    /\ ~ In 50 (map snd (timer_queue w2)).
Proof.
  destruct (TimerQueue_addTimer_due_fires_next_pass world0 50 9%nat 10 0 1 20
              queue_ok_world0 eq_refl eq_refl)
    as (seq & w1 & w2 & evs & E1 & _ & E2 & Htr & Hin & Hgone & _);
    [vm_compute; discriminate|].
  exists seq, w1, w2, evs. split; [exact E1|]. split; [exact E2|].
  split; [exact Htr|]. split; [exact Hin|exact (Hgone eq_refl)].
Defined.

(** addTimer from thread 2. *)
Lemma TimerQueue_addTimer_from_other_thread_witness :
  exists w1,
    TimerQueue_addTimer_move 50 9%nat 10 0 1 world_other_thread = Done (50, 1) w1
    /\ timer_queue w1 = []
    /\ pending w1 = [FnAddTimerInLoop 50]
    /\ trace w1 = [EvWakeup].
Proof.
  destruct (TimerQueue_addTimer_from_other_thread world_other_thread 50 9%nat 10 0 1)
    as (w1 & E & Hq & _ & Hp & Htr & _); [discriminate|reflexivity|].
  exists w1. split; [exact E|]. split; [exact Hq|]. split; [exact Hp|exact Htr].
Defined.

Lemma process_short_fails_keeps_input c body w0 ok c' w' :
  process_short_fails c body w0 = Done (ok, c') w' ->
  TcpConnection.m_inputBuffer c' = TcpConnection.m_inputBuffer c.
Proof. unfold process_short_fails, ret. intros H. inversion H. reflexivity. Defined.

(** Two packages and one stray byte: "abcd" is processed, "a" is
    processed and fails, so forceClose follows, and the byte stays. *)
Lemma FileSession_onRead_delivers_witness :
  FileSession_onRead process_short_fails 3 conn_two_packages world_conn
  = Done (Some (TcpConnection.set_inputBuffer conn_disconnecting (ByteBuffer.mk [Byte.x00])))
      (push_functor FnForceCloseInLoop world_conn).
Proof.
  destruct (FileSession_onRead_delivers process_short_fails [abcd; [Byte.x61]] [Byte.x00]
              conn_two_packages 3%nat world_conn process_short_fails_keeps_input)
    as [H _].
  - repeat constructor; vm_compute; discriminate.
  - vm_compute. reflexivity.
  - simpl. lia.
  - rewrite H.
    + reflexivity.
    + left. vm_compute. reflexivity.
Defined.
